(** * dynamd: the window manager's model, over a shallow embedding of dynamd.c

    The development follows [src/dynamd.c] and [src/config.h].  The C program
    keeps its state in global variables and in heap-allocated [Client] and
    [Monitor] structs; the embedding threads one [World] value through every
    function.

    Conventions of the embedding.
    - [int] values are integers of [Z]; signed arithmetic is exact (signed
      overflow is undefined behaviour in C, so only overflow-free runs are
      described).  [unsigned int] values live in [0, 2^32): [u32] is the
      conversion to [unsigned int], [s32] the conversion back to [int], and
      an expression that C evaluates in [unsigned int] is wrapped in [u32].
    - [float] and [double] values are IEEE 754 binary32 and binary64 numbers
      ([cfloat]): a NaN, an infinity, or a rational that the format holds.
      Every operation rounds the exact result to nearest, ties to even, in the
      format of its C type (float expressions are evaluated in float, as with
      FLT_EVAL_METHOD 0), with gradual underflow and overflow to infinity.
      The two zeros are one value: no division of the program has a divisor
      that can be the negative zero, and nothing else tells them apart.
    - A pointer to a [Client] or a [Monitor] is an address ([nat]); the heap is
      a total map from addresses to structs; a nullable pointer is an [option].
    - The intrusive chains [m->clients, c->next, ...] and
      [m->stack, c->snext, ...] are the lists of the addresses met along the
      chain, head first.
    - Requests sent to the X server are appended to a log ([g_xlog]); what the
      server answers (window titles, class hints) is read from oracles kept in
      the [World].  The drawing code (drw.h, drawbar, drawtab) is represented
      by the requests [DrawBar] and [DrawTab] only. *)

From Stdlib Require Import ZArith QArith Qround Qabs Qpower List String Bool Lia Lqa Arith.
From Stdlib Require Import DecimalString FunctionalExtensionality Floats.SpecFloat.
Import ListNotations.

Local Open Scope Z_scope.

(** ** Numbers *)

Definition u32 (x : Z) : Z := x mod 2 ^ 32.

Definition s32 (x : Z) : Z :=
  let y := x mod 2 ^ 32 in if y <? 2 ^ 31 then y else y - 2 ^ 32.

(** Modelled from the spec: util.h, which defines the macros [MAX] and [MIN],
    is not among the sources.  They are the two-argument maximum and minimum
    that the clamping of sizes and the count of master tiles call for:
    [((A) > (B) ? (A) : (B))] and [((A) < (B) ? (A) : (B))]. *)
Definition MAX (a b : Z) : Z := if a >? b then a else b.
Definition MIN (a b : Z) : Z := if a <? b then a else b.

(** [b2z] is the value of a C comparison, [truthy] the test [if (e)]. *)
Definition b2z (b : bool) : Z := if b then 1 else 0.
Definition truthy (z : Z) : bool := negb (z =? 0).

(** A two-slot array ([tagset[2]], [lt[2]]) read at an [unsigned] index. *)
Definition idx2 {A} (i : Z) (a0 a1 : A) : A := if i =? 0 then a0 else a1.

(** ** Floating point *)

Inductive cfloat :=
| FNaN
| FInf (neg : bool)
| FFin (q : Q).

Definition Qtrunc (q : Q) : Z := Z.quot (Qnum q) (Zpos (Qden q)).

Definition Qltb (a b : Q) : bool := negb (Qle_bool b a).

Definition pow2 (e : Z) : Q :=
  if 0 <=? e then inject_Z (2 ^ e) else 1 # Z.to_pos (2 ^ (- e)).

(** The exponent of a positive rational: [pow2 (Qlog2 x) <= x < pow2 (Qlog2 x + 1)]. *)
Definition Qlog2 (x : Q) : Z :=
  let k := Z.log2 (Qnum x) - Z.log2 (Zpos (Qden x)) in
  if Qle_bool (pow2 k) x then k else k - 1.

(** The nearest integer, ties to even. *)
Definition rne (x : Q) : Z :=
  let f := Qfloor x in
  match (x - inject_Z f ?= 1 # 2)%Q with
  | Lt => f
  | Gt => f + 1
  | Eq => if Z.even f then f else f + 1
  end.

(** Rounding to the format of precision [prec] and exponent bound [emax]:
    the significand is an integer of at most [prec] bits, scaled by a power of
    two that is at least [2 ^ (3 - emax - prec)] (subnormal numbers below);
    a result of magnitude [2 ^ emax] or more is an infinity. *)
Definition round (prec emax : Z) (x : Q) : cfloat :=
  if Qeq_bool x 0 then FFin 0 else
  let e := Z.max (Qlog2 (Qabs x) - prec + 1) (3 - emax - prec) in
  let y := (inject_Z (rne (x / pow2 e)) * pow2 e)%Q in
  if Qle_bool (pow2 emax) (Qabs y) then FInf (Qltb x 0) else FFin (Qred y).

Definition fneg (a : cfloat) : cfloat :=
  match a with
  | FNaN => FNaN
  | FInf s => FInf (negb s)
  | FFin x => FFin (Qred (- x))
  end.

Definition fadd (prec emax : Z) (a b : cfloat) : cfloat :=
  match a, b with
  | FNaN, _ | _, FNaN => FNaN
  | FInf s, FInf t => if Bool.eqb s t then FInf s else FNaN
  | FInf s, FFin _ | FFin _, FInf s => FInf s
  | FFin x, FFin y => round prec emax (x + y)
  end.

Definition fsub (prec emax : Z) (a b : cfloat) : cfloat := fadd prec emax a (fneg b).

Definition fmul (prec emax : Z) (a b : cfloat) : cfloat :=
  match a, b with
  | FNaN, _ | _, FNaN => FNaN
  | FInf s, FInf t => FInf (xorb s t)
  | FInf s, FFin y | FFin y, FInf s =>
      if Qeq_bool y 0 then FNaN else FInf (xorb s (Qltb y 0))
  | FFin x, FFin y => round prec emax (x * y)
  end.

(** A zero divisor is the positive zero. *)
Definition fdiv (prec emax : Z) (a b : cfloat) : cfloat :=
  match a, b with
  | FNaN, _ | _, FNaN => FNaN
  | FInf _, FInf _ => FNaN
  | FInf s, FFin y => FInf (xorb s (Qltb y 0))
  | FFin _, FInf _ => FFin 0
  | FFin x, FFin y =>
      if Qeq_bool y 0
      then if Qeq_bool x 0 then FNaN else FInf (Qltb x 0)
      else round prec emax (x / y)
  end.

(** [a < b] and [a > b]: false when an operand is a NaN. *)
Definition flt (a b : cfloat) : bool :=
  match a, b with
  | FNaN, _ | _, FNaN => false
  | FInf s, FInf t => s && negb t
  | FInf s, FFin _ => s
  | FFin _, FInf t => negb t
  | FFin x, FFin y => Qltb x y
  end.

Definition fgt (a b : cfloat) : bool := flt b a.

(** binary32 ([float]) and binary64 ([double]). *)
Definition f32 (x : Q) : cfloat := round 24 128 x.
Definition f64 (x : Q) : cfloat := round 53 1024 x.

Definition addf : cfloat -> cfloat -> cfloat := fadd 24 128.
Definition subf : cfloat -> cfloat -> cfloat := fsub 24 128.
Definition mulf : cfloat -> cfloat -> cfloat := fmul 24 128.
Definition divf : cfloat -> cfloat -> cfloat := fdiv 24 128.
Definition addd : cfloat -> cfloat -> cfloat := fadd 53 1024.
Definition subd : cfloat -> cfloat -> cfloat := fsub 53 1024.
Definition muld : cfloat -> cfloat -> cfloat := fmul 53 1024.

(** The conversions of an [int] or [unsigned int] to [float] and to [double],
    and of a [double] to [float]; a [float] is converted to [double] without
    change. *)
Definition i2f (z : Z) : cfloat := f32 (inject_Z z).
Definition i2d (z : Z) : cfloat := f64 (inject_Z z).
Definition d2f (a : cfloat) : cfloat :=
  match a with
  | FFin x => f32 x
  | _ => a
  end.

(** A constant such as [0.9] is a [double]; [float f = 0.56] converts it. *)
Definition dlit (q : Q) : cfloat := f64 q.
Definition flit (q : Q) : cfloat := d2f (dlit q).

(** The conversion to [int] truncates toward zero.  C leaves the conversion
    of a NaN, of an infinity and of a value outside [int] undefined; the
    value given here, [INT_MIN], is the one of the x86-64 conversion
    instructions. *)
Definition f2i (a : cfloat) : Z :=
  match a with
  | FFin q =>
      let t := Qtrunc q in
      if (- 2 ^ 31 <=? t) && (t <? 2 ^ 31) then t else - 2 ^ 31
  | _ => - 2 ^ 31
  end.

(** ** config.h *)

Definition tags : list string :=
  ["1"; "2"; "3"; "4"; "5"; "6"; "7"; "8"; "9"; "10"; "11"; "12"; "13"; "14";
   "15"; "16"; "17"; "18"; "19"; "20"; "21"; "22"; "23"; "24"; "25"]%string.

Definition NTAGS : Z := Z.of_nat (List.length tags).

Definition TAGMASK : Z := Z.shiftl 1 NTAGS - 1.

Record Rule := {
  r_class : option string;
  r_instance : option string;
  r_title : option string;
  r_tags : Z;
  r_isfloating : Z;
  r_isterminal : Z;
  r_noswallow : Z;
  r_monitor : Z
}.

Definition rules : list Rule :=
  [ {| r_class := Some "Alacritty"%string; r_instance := None; r_title := None;
       r_tags := 0; r_isfloating := 0; r_isterminal := 1; r_noswallow := 0;
       r_monitor := -1 |};
    {| r_class := None; r_instance := None; r_title := Some "Event Tester"%string;
       r_tags := 0; r_isfloating := 0; r_isterminal := 0; r_noswallow := 1;
       r_monitor := -1 |} ].

(** ** Layouts *)

Inductive ArrangeFn :=
| LtCenteredmaster | LtMonocle | LtTile | LtDeck | LtDwindle | LtSpiral
| LtGrid | LtHorizgrid | LtGaplessgrid | LtBstack | LtBstackhoriz
| LtCenteredfloatingmaster.

Definition ArrangeFn_eqb (a b : ArrangeFn) : bool :=
  match a, b with
  | LtCenteredmaster, LtCenteredmaster | LtMonocle, LtMonocle | LtTile, LtTile
  | LtDeck, LtDeck | LtDwindle, LtDwindle | LtSpiral, LtSpiral
  | LtGrid, LtGrid | LtHorizgrid, LtHorizgrid | LtGaplessgrid, LtGaplessgrid
  | LtBstack, LtBstack | LtBstackhoriz, LtBstackhoriz
  | LtCenteredfloatingmaster, LtCenteredfloatingmaster => true
  | _, _ => false
  end.

(** [l_arrange = None] is the NULL arrange pointer of the floating layout. *)
Record Layout := { l_symbol : string; l_arrange : option ArrangeFn }.

Definition layouts : list Layout :=
  [ {| l_symbol := "[|W|]"; l_arrange := Some LtCenteredmaster |};
    {| l_symbol := "[M]"; l_arrange := Some LtMonocle |};
    {| l_symbol := "[T]"; l_arrange := Some LtTile |};
    {| l_symbol := "[D]"; l_arrange := Some LtDeck |};
    {| l_symbol := "[@~]"; l_arrange := Some LtDwindle |};
    {| l_symbol := "[~@]"; l_arrange := Some LtSpiral |};
    {| l_symbol := "[G]"; l_arrange := Some LtGrid |};
    {| l_symbol := "[GH]"; l_arrange := Some LtHorizgrid |};
    {| l_symbol := "[:G:]"; l_arrange := Some LtGaplessgrid |};
    {| l_symbol := "[TTT]"; l_arrange := Some LtBstack |};
    {| l_symbol := "[===]"; l_arrange := Some LtBstackhoriz |};
    {| l_symbol := "[|=|]"; l_arrange := Some LtCenteredfloatingmaster |};
    {| l_symbol := "[=]"; l_arrange := None |} ]%string.

(** ** The structs *)

Definition Window := Z.
Definition cid := nat.
Definition mid := nat.

Record Client := {
  c_name : string;
  c_mina : cfloat; c_maxa : cfloat;
  c_x : Z; c_y : Z; c_w : Z; c_h : Z;
  c_oldx : Z; c_oldy : Z; c_oldw : Z; c_oldh : Z;
  c_basew : Z; c_baseh : Z; c_incw : Z; c_inch : Z;
  c_maxw : Z; c_maxh : Z; c_minw : Z; c_minh : Z;
  c_bw : Z; c_oldbw : Z;
  c_tags : Z;
  c_isfixed : Z; c_isfloating : Z; c_isurgent : Z; c_neverfocus : Z;
  c_oldstate : Z; c_isfullscreen : Z; c_isterminal : Z; c_noswallow : Z;
  c_pid : Z;
  c_swallowing : option cid;
  c_mon : mid;
  c_win : Window
}.

Record Pertag := {
  pt_curtag : Z; pt_prevtag : Z;
  pt_nmasters : list Z;
  pt_mfacts : list cfloat;
  pt_sellts : list Z;
  pt_ltidxs : list (Layout * Layout);
  pt_showbars : list Z
}.

Record Monitor := {
  m_ltsymbol : string;
  m_mfact : cfloat;
  m_nmaster : Z;
  m_num : Z;
  m_by : Z; m_ty : Z;
  m_mx : Z; m_my : Z; m_mw : Z; m_mh : Z;
  m_wx : Z; m_wy : Z; m_ww : Z; m_wh : Z;
  m_gappih : Z; m_gappiv : Z; m_gappoh : Z; m_gappov : Z;
  m_seltags : Z;
  m_sellt : Z;
  m_tagset0 : Z; m_tagset1 : Z;
  m_showbar : Z; m_showtab : Z; m_topbar : Z; m_toptab : Z;
  m_clients : list cid;
  m_sel : option cid;
  m_stack : list cid;
  m_barwin : Window; m_tabwin : Window;
  m_lt0 : Layout; m_lt1 : Layout;
  m_pertag : Pertag
}.

(** ** Requests to the X server *)

Inductive Scheme := SchemeNorm | SchemeSel.

Inductive XReq :=
| XMoveResizeWindow (win : Window) (x y width height : Z)
| XMoveWindow (win : Window) (x y : Z)
| XConfigureWindow (win : Window) (x y width height border : Z)
| XRestackBelow (win sibling : Window)
| XRaiseWindow (win : Window)
| XMapWindow (win : Window)
| XUnmapWindow (win : Window)
| XSetWindowBorder (win : Window) (s : Scheme)
| XSetWMState (win : Window) (state : Z)
| XSetNetWMState (win : Window) (fullscreen : bool)
| XSendConfigureNotify (win : Window) (x y width height border : Z)
| XSync
| XSetInputFocus (win : option Window)
| XSetActiveWindow (win : option Window)
| XGrabButtons (win : Window) (focused : Z)
| XSetUrgencyHint (win : Window) (urg : Z)
| XSendProtocol (win : Window) (takefocus : bool)
| XSetClientList (wins : list Window)
| XDrainEnterEvents
| DrawBar (m : mid)
| DrawTab (m : mid).

Definition WithdrawnState : Z := 0.
Definition NormalState : Z := 1.
Definition IconicState : Z := 3.

(** ** The global state *)

Record World := {
  g_clients : cid -> Client;
  g_monitors : mid -> Monitor;
  g_mons : list mid;
  g_selmon : mid;
  g_bh : Z; g_th : Z;
  g_sw : Z; g_sh : Z;
  g_enablegaps : Z;
  g_xtitle : Window -> string;
  g_xclass : Window -> option string * option string;
  g_xlog : list XReq
}.
(** ** Field updates

    [set_f v s] is the struct [s] after the assignment [s.f = v]. *)

Definition set_c_name (v : string) (c : Client) : Client :=
  {| c_name := v; c_mina := c_mina c; c_maxa := c_maxa c; c_x := c_x c; c_y := c_y c;
     c_w := c_w c; c_h := c_h c; c_oldx := c_oldx c; c_oldy := c_oldy c;
     c_oldw := c_oldw c; c_oldh := c_oldh c; c_basew := c_basew c; c_baseh := c_baseh c;
     c_incw := c_incw c; c_inch := c_inch c; c_maxw := c_maxw c; c_maxh := c_maxh c;
     c_minw := c_minw c; c_minh := c_minh c; c_bw := c_bw c; c_oldbw := c_oldbw c;
     c_tags := c_tags c; c_isfixed := c_isfixed c; c_isfloating := c_isfloating c;
     c_isurgent := c_isurgent c; c_neverfocus := c_neverfocus c;
     c_oldstate := c_oldstate c; c_isfullscreen := c_isfullscreen c;
     c_isterminal := c_isterminal c; c_noswallow := c_noswallow c; c_pid := c_pid c;
     c_swallowing := c_swallowing c; c_mon := c_mon c; c_win := c_win c |}.

Definition set_c_geom (v0 : Z) (v1 : Z) (v2 : Z) (v3 : Z) (c : Client) : Client :=
  {| c_name := c_name c; c_mina := c_mina c; c_maxa := c_maxa c; c_x := v0; c_y := v1;
     c_w := v2; c_h := v3; c_oldx := c_oldx c; c_oldy := c_oldy c; c_oldw := c_oldw c;
     c_oldh := c_oldh c; c_basew := c_basew c; c_baseh := c_baseh c; c_incw := c_incw c;
     c_inch := c_inch c; c_maxw := c_maxw c; c_maxh := c_maxh c; c_minw := c_minw c;
     c_minh := c_minh c; c_bw := c_bw c; c_oldbw := c_oldbw c; c_tags := c_tags c;
     c_isfixed := c_isfixed c; c_isfloating := c_isfloating c;
     c_isurgent := c_isurgent c; c_neverfocus := c_neverfocus c;
     c_oldstate := c_oldstate c; c_isfullscreen := c_isfullscreen c;
     c_isterminal := c_isterminal c; c_noswallow := c_noswallow c; c_pid := c_pid c;
     c_swallowing := c_swallowing c; c_mon := c_mon c; c_win := c_win c |}.

Definition set_c_old (v0 : Z) (v1 : Z) (v2 : Z) (v3 : Z) (c : Client) : Client :=
  {| c_name := c_name c; c_mina := c_mina c; c_maxa := c_maxa c; c_x := c_x c;
     c_y := c_y c; c_w := c_w c; c_h := c_h c; c_oldx := v0; c_oldy := v1; c_oldw := v2;
     c_oldh := v3; c_basew := c_basew c; c_baseh := c_baseh c; c_incw := c_incw c;
     c_inch := c_inch c; c_maxw := c_maxw c; c_maxh := c_maxh c; c_minw := c_minw c;
     c_minh := c_minh c; c_bw := c_bw c; c_oldbw := c_oldbw c; c_tags := c_tags c;
     c_isfixed := c_isfixed c; c_isfloating := c_isfloating c;
     c_isurgent := c_isurgent c; c_neverfocus := c_neverfocus c;
     c_oldstate := c_oldstate c; c_isfullscreen := c_isfullscreen c;
     c_isterminal := c_isterminal c; c_noswallow := c_noswallow c; c_pid := c_pid c;
     c_swallowing := c_swallowing c; c_mon := c_mon c; c_win := c_win c |}.

Definition set_c_bw (v : Z) (c : Client) : Client :=
  {| c_name := c_name c; c_mina := c_mina c; c_maxa := c_maxa c; c_x := c_x c;
     c_y := c_y c; c_w := c_w c; c_h := c_h c; c_oldx := c_oldx c; c_oldy := c_oldy c;
     c_oldw := c_oldw c; c_oldh := c_oldh c; c_basew := c_basew c; c_baseh := c_baseh c;
     c_incw := c_incw c; c_inch := c_inch c; c_maxw := c_maxw c; c_maxh := c_maxh c;
     c_minw := c_minw c; c_minh := c_minh c; c_bw := v; c_oldbw := c_oldbw c;
     c_tags := c_tags c; c_isfixed := c_isfixed c; c_isfloating := c_isfloating c;
     c_isurgent := c_isurgent c; c_neverfocus := c_neverfocus c;
     c_oldstate := c_oldstate c; c_isfullscreen := c_isfullscreen c;
     c_isterminal := c_isterminal c; c_noswallow := c_noswallow c; c_pid := c_pid c;
     c_swallowing := c_swallowing c; c_mon := c_mon c; c_win := c_win c |}.

Definition set_c_oldbw (v : Z) (c : Client) : Client :=
  {| c_name := c_name c; c_mina := c_mina c; c_maxa := c_maxa c; c_x := c_x c;
     c_y := c_y c; c_w := c_w c; c_h := c_h c; c_oldx := c_oldx c; c_oldy := c_oldy c;
     c_oldw := c_oldw c; c_oldh := c_oldh c; c_basew := c_basew c; c_baseh := c_baseh c;
     c_incw := c_incw c; c_inch := c_inch c; c_maxw := c_maxw c; c_maxh := c_maxh c;
     c_minw := c_minw c; c_minh := c_minh c; c_bw := c_bw c; c_oldbw := v;
     c_tags := c_tags c; c_isfixed := c_isfixed c; c_isfloating := c_isfloating c;
     c_isurgent := c_isurgent c; c_neverfocus := c_neverfocus c;
     c_oldstate := c_oldstate c; c_isfullscreen := c_isfullscreen c;
     c_isterminal := c_isterminal c; c_noswallow := c_noswallow c; c_pid := c_pid c;
     c_swallowing := c_swallowing c; c_mon := c_mon c; c_win := c_win c |}.

Definition set_c_tags (v : Z) (c : Client) : Client :=
  {| c_name := c_name c; c_mina := c_mina c; c_maxa := c_maxa c; c_x := c_x c;
     c_y := c_y c; c_w := c_w c; c_h := c_h c; c_oldx := c_oldx c; c_oldy := c_oldy c;
     c_oldw := c_oldw c; c_oldh := c_oldh c; c_basew := c_basew c; c_baseh := c_baseh c;
     c_incw := c_incw c; c_inch := c_inch c; c_maxw := c_maxw c; c_maxh := c_maxh c;
     c_minw := c_minw c; c_minh := c_minh c; c_bw := c_bw c; c_oldbw := c_oldbw c;
     c_tags := v; c_isfixed := c_isfixed c; c_isfloating := c_isfloating c;
     c_isurgent := c_isurgent c; c_neverfocus := c_neverfocus c;
     c_oldstate := c_oldstate c; c_isfullscreen := c_isfullscreen c;
     c_isterminal := c_isterminal c; c_noswallow := c_noswallow c; c_pid := c_pid c;
     c_swallowing := c_swallowing c; c_mon := c_mon c; c_win := c_win c |}.

Definition set_c_isfloating (v : Z) (c : Client) : Client :=
  {| c_name := c_name c; c_mina := c_mina c; c_maxa := c_maxa c; c_x := c_x c;
     c_y := c_y c; c_w := c_w c; c_h := c_h c; c_oldx := c_oldx c; c_oldy := c_oldy c;
     c_oldw := c_oldw c; c_oldh := c_oldh c; c_basew := c_basew c; c_baseh := c_baseh c;
     c_incw := c_incw c; c_inch := c_inch c; c_maxw := c_maxw c; c_maxh := c_maxh c;
     c_minw := c_minw c; c_minh := c_minh c; c_bw := c_bw c; c_oldbw := c_oldbw c;
     c_tags := c_tags c; c_isfixed := c_isfixed c; c_isfloating := v;
     c_isurgent := c_isurgent c; c_neverfocus := c_neverfocus c;
     c_oldstate := c_oldstate c; c_isfullscreen := c_isfullscreen c;
     c_isterminal := c_isterminal c; c_noswallow := c_noswallow c; c_pid := c_pid c;
     c_swallowing := c_swallowing c; c_mon := c_mon c; c_win := c_win c |}.

Definition set_c_isurgent (v : Z) (c : Client) : Client :=
  {| c_name := c_name c; c_mina := c_mina c; c_maxa := c_maxa c; c_x := c_x c;
     c_y := c_y c; c_w := c_w c; c_h := c_h c; c_oldx := c_oldx c; c_oldy := c_oldy c;
     c_oldw := c_oldw c; c_oldh := c_oldh c; c_basew := c_basew c; c_baseh := c_baseh c;
     c_incw := c_incw c; c_inch := c_inch c; c_maxw := c_maxw c; c_maxh := c_maxh c;
     c_minw := c_minw c; c_minh := c_minh c; c_bw := c_bw c; c_oldbw := c_oldbw c;
     c_tags := c_tags c; c_isfixed := c_isfixed c; c_isfloating := c_isfloating c;
     c_isurgent := v; c_neverfocus := c_neverfocus c; c_oldstate := c_oldstate c;
     c_isfullscreen := c_isfullscreen c; c_isterminal := c_isterminal c;
     c_noswallow := c_noswallow c; c_pid := c_pid c; c_swallowing := c_swallowing c;
     c_mon := c_mon c; c_win := c_win c |}.

Definition set_c_oldstate (v : Z) (c : Client) : Client :=
  {| c_name := c_name c; c_mina := c_mina c; c_maxa := c_maxa c; c_x := c_x c;
     c_y := c_y c; c_w := c_w c; c_h := c_h c; c_oldx := c_oldx c; c_oldy := c_oldy c;
     c_oldw := c_oldw c; c_oldh := c_oldh c; c_basew := c_basew c; c_baseh := c_baseh c;
     c_incw := c_incw c; c_inch := c_inch c; c_maxw := c_maxw c; c_maxh := c_maxh c;
     c_minw := c_minw c; c_minh := c_minh c; c_bw := c_bw c; c_oldbw := c_oldbw c;
     c_tags := c_tags c; c_isfixed := c_isfixed c; c_isfloating := c_isfloating c;
     c_isurgent := c_isurgent c; c_neverfocus := c_neverfocus c; c_oldstate := v;
     c_isfullscreen := c_isfullscreen c; c_isterminal := c_isterminal c;
     c_noswallow := c_noswallow c; c_pid := c_pid c; c_swallowing := c_swallowing c;
     c_mon := c_mon c; c_win := c_win c |}.

Definition set_c_isfullscreen (v : Z) (c : Client) : Client :=
  {| c_name := c_name c; c_mina := c_mina c; c_maxa := c_maxa c; c_x := c_x c;
     c_y := c_y c; c_w := c_w c; c_h := c_h c; c_oldx := c_oldx c; c_oldy := c_oldy c;
     c_oldw := c_oldw c; c_oldh := c_oldh c; c_basew := c_basew c; c_baseh := c_baseh c;
     c_incw := c_incw c; c_inch := c_inch c; c_maxw := c_maxw c; c_maxh := c_maxh c;
     c_minw := c_minw c; c_minh := c_minh c; c_bw := c_bw c; c_oldbw := c_oldbw c;
     c_tags := c_tags c; c_isfixed := c_isfixed c; c_isfloating := c_isfloating c;
     c_isurgent := c_isurgent c; c_neverfocus := c_neverfocus c;
     c_oldstate := c_oldstate c; c_isfullscreen := v; c_isterminal := c_isterminal c;
     c_noswallow := c_noswallow c; c_pid := c_pid c; c_swallowing := c_swallowing c;
     c_mon := c_mon c; c_win := c_win c |}.

Definition set_c_isterminal (v : Z) (c : Client) : Client :=
  {| c_name := c_name c; c_mina := c_mina c; c_maxa := c_maxa c; c_x := c_x c;
     c_y := c_y c; c_w := c_w c; c_h := c_h c; c_oldx := c_oldx c; c_oldy := c_oldy c;
     c_oldw := c_oldw c; c_oldh := c_oldh c; c_basew := c_basew c; c_baseh := c_baseh c;
     c_incw := c_incw c; c_inch := c_inch c; c_maxw := c_maxw c; c_maxh := c_maxh c;
     c_minw := c_minw c; c_minh := c_minh c; c_bw := c_bw c; c_oldbw := c_oldbw c;
     c_tags := c_tags c; c_isfixed := c_isfixed c; c_isfloating := c_isfloating c;
     c_isurgent := c_isurgent c; c_neverfocus := c_neverfocus c;
     c_oldstate := c_oldstate c; c_isfullscreen := c_isfullscreen c; c_isterminal := v;
     c_noswallow := c_noswallow c; c_pid := c_pid c; c_swallowing := c_swallowing c;
     c_mon := c_mon c; c_win := c_win c |}.

Definition set_c_noswallow (v : Z) (c : Client) : Client :=
  {| c_name := c_name c; c_mina := c_mina c; c_maxa := c_maxa c; c_x := c_x c;
     c_y := c_y c; c_w := c_w c; c_h := c_h c; c_oldx := c_oldx c; c_oldy := c_oldy c;
     c_oldw := c_oldw c; c_oldh := c_oldh c; c_basew := c_basew c; c_baseh := c_baseh c;
     c_incw := c_incw c; c_inch := c_inch c; c_maxw := c_maxw c; c_maxh := c_maxh c;
     c_minw := c_minw c; c_minh := c_minh c; c_bw := c_bw c; c_oldbw := c_oldbw c;
     c_tags := c_tags c; c_isfixed := c_isfixed c; c_isfloating := c_isfloating c;
     c_isurgent := c_isurgent c; c_neverfocus := c_neverfocus c;
     c_oldstate := c_oldstate c; c_isfullscreen := c_isfullscreen c;
     c_isterminal := c_isterminal c; c_noswallow := v; c_pid := c_pid c;
     c_swallowing := c_swallowing c; c_mon := c_mon c; c_win := c_win c |}.

Definition set_c_swallowing (v : option cid) (c : Client) : Client :=
  {| c_name := c_name c; c_mina := c_mina c; c_maxa := c_maxa c; c_x := c_x c;
     c_y := c_y c; c_w := c_w c; c_h := c_h c; c_oldx := c_oldx c; c_oldy := c_oldy c;
     c_oldw := c_oldw c; c_oldh := c_oldh c; c_basew := c_basew c; c_baseh := c_baseh c;
     c_incw := c_incw c; c_inch := c_inch c; c_maxw := c_maxw c; c_maxh := c_maxh c;
     c_minw := c_minw c; c_minh := c_minh c; c_bw := c_bw c; c_oldbw := c_oldbw c;
     c_tags := c_tags c; c_isfixed := c_isfixed c; c_isfloating := c_isfloating c;
     c_isurgent := c_isurgent c; c_neverfocus := c_neverfocus c;
     c_oldstate := c_oldstate c; c_isfullscreen := c_isfullscreen c;
     c_isterminal := c_isterminal c; c_noswallow := c_noswallow c; c_pid := c_pid c;
     c_swallowing := v; c_mon := c_mon c; c_win := c_win c |}.

Definition set_c_mon (v : mid) (c : Client) : Client :=
  {| c_name := c_name c; c_mina := c_mina c; c_maxa := c_maxa c; c_x := c_x c;
     c_y := c_y c; c_w := c_w c; c_h := c_h c; c_oldx := c_oldx c; c_oldy := c_oldy c;
     c_oldw := c_oldw c; c_oldh := c_oldh c; c_basew := c_basew c; c_baseh := c_baseh c;
     c_incw := c_incw c; c_inch := c_inch c; c_maxw := c_maxw c; c_maxh := c_maxh c;
     c_minw := c_minw c; c_minh := c_minh c; c_bw := c_bw c; c_oldbw := c_oldbw c;
     c_tags := c_tags c; c_isfixed := c_isfixed c; c_isfloating := c_isfloating c;
     c_isurgent := c_isurgent c; c_neverfocus := c_neverfocus c;
     c_oldstate := c_oldstate c; c_isfullscreen := c_isfullscreen c;
     c_isterminal := c_isterminal c; c_noswallow := c_noswallow c; c_pid := c_pid c;
     c_swallowing := c_swallowing c; c_mon := v; c_win := c_win c |}.

Definition set_c_win (v : Window) (c : Client) : Client :=
  {| c_name := c_name c; c_mina := c_mina c; c_maxa := c_maxa c; c_x := c_x c;
     c_y := c_y c; c_w := c_w c; c_h := c_h c; c_oldx := c_oldx c; c_oldy := c_oldy c;
     c_oldw := c_oldw c; c_oldh := c_oldh c; c_basew := c_basew c; c_baseh := c_baseh c;
     c_incw := c_incw c; c_inch := c_inch c; c_maxw := c_maxw c; c_maxh := c_maxh c;
     c_minw := c_minw c; c_minh := c_minh c; c_bw := c_bw c; c_oldbw := c_oldbw c;
     c_tags := c_tags c; c_isfixed := c_isfixed c; c_isfloating := c_isfloating c;
     c_isurgent := c_isurgent c; c_neverfocus := c_neverfocus c;
     c_oldstate := c_oldstate c; c_isfullscreen := c_isfullscreen c;
     c_isterminal := c_isterminal c; c_noswallow := c_noswallow c; c_pid := c_pid c;
     c_swallowing := c_swallowing c; c_mon := c_mon c; c_win := v |}.

Definition set_pt_curtag (v : Z) (p : Pertag) : Pertag :=
  {| pt_curtag := v; pt_prevtag := pt_prevtag p; pt_nmasters := pt_nmasters p;
     pt_mfacts := pt_mfacts p; pt_sellts := pt_sellts p; pt_ltidxs := pt_ltidxs p;
     pt_showbars := pt_showbars p |}.

Definition set_pt_prevtag (v : Z) (p : Pertag) : Pertag :=
  {| pt_curtag := pt_curtag p; pt_prevtag := v; pt_nmasters := pt_nmasters p;
     pt_mfacts := pt_mfacts p; pt_sellts := pt_sellts p; pt_ltidxs := pt_ltidxs p;
     pt_showbars := pt_showbars p |}.

Definition set_pt_mfacts (v : list cfloat) (p : Pertag) : Pertag :=
  {| pt_curtag := pt_curtag p; pt_prevtag := pt_prevtag p; pt_nmasters := pt_nmasters p;
     pt_mfacts := v; pt_sellts := pt_sellts p; pt_ltidxs := pt_ltidxs p;
     pt_showbars := pt_showbars p |}.

Definition set_pt_showbars (v : list Z) (p : Pertag) : Pertag :=
  {| pt_curtag := pt_curtag p; pt_prevtag := pt_prevtag p; pt_nmasters := pt_nmasters p;
     pt_mfacts := pt_mfacts p; pt_sellts := pt_sellts p; pt_ltidxs := pt_ltidxs p;
     pt_showbars := v |}.

Definition set_m_ltsymbol (v : string) (m : Monitor) : Monitor :=
  {| m_ltsymbol := v; m_mfact := m_mfact m; m_nmaster := m_nmaster m; m_num := m_num m;
     m_by := m_by m; m_ty := m_ty m; m_mx := m_mx m; m_my := m_my m; m_mw := m_mw m;
     m_mh := m_mh m; m_wx := m_wx m; m_wy := m_wy m; m_ww := m_ww m; m_wh := m_wh m;
     m_gappih := m_gappih m; m_gappiv := m_gappiv m; m_gappoh := m_gappoh m;
     m_gappov := m_gappov m; m_seltags := m_seltags m; m_sellt := m_sellt m;
     m_tagset0 := m_tagset0 m; m_tagset1 := m_tagset1 m; m_showbar := m_showbar m;
     m_showtab := m_showtab m; m_topbar := m_topbar m; m_toptab := m_toptab m;
     m_clients := m_clients m; m_sel := m_sel m; m_stack := m_stack m;
     m_barwin := m_barwin m; m_tabwin := m_tabwin m; m_lt0 := m_lt0 m; m_lt1 := m_lt1 m;
     m_pertag := m_pertag m |}.

Definition set_m_mfact (v : cfloat) (m : Monitor) : Monitor :=
  {| m_ltsymbol := m_ltsymbol m; m_mfact := v; m_nmaster := m_nmaster m;
     m_num := m_num m; m_by := m_by m; m_ty := m_ty m; m_mx := m_mx m; m_my := m_my m;
     m_mw := m_mw m; m_mh := m_mh m; m_wx := m_wx m; m_wy := m_wy m; m_ww := m_ww m;
     m_wh := m_wh m; m_gappih := m_gappih m; m_gappiv := m_gappiv m;
     m_gappoh := m_gappoh m; m_gappov := m_gappov m; m_seltags := m_seltags m;
     m_sellt := m_sellt m; m_tagset0 := m_tagset0 m; m_tagset1 := m_tagset1 m;
     m_showbar := m_showbar m; m_showtab := m_showtab m; m_topbar := m_topbar m;
     m_toptab := m_toptab m; m_clients := m_clients m; m_sel := m_sel m;
     m_stack := m_stack m; m_barwin := m_barwin m; m_tabwin := m_tabwin m;
     m_lt0 := m_lt0 m; m_lt1 := m_lt1 m; m_pertag := m_pertag m |}.

Definition set_m_nmaster (v : Z) (m : Monitor) : Monitor :=
  {| m_ltsymbol := m_ltsymbol m; m_mfact := m_mfact m; m_nmaster := v; m_num := m_num m;
     m_by := m_by m; m_ty := m_ty m; m_mx := m_mx m; m_my := m_my m; m_mw := m_mw m;
     m_mh := m_mh m; m_wx := m_wx m; m_wy := m_wy m; m_ww := m_ww m; m_wh := m_wh m;
     m_gappih := m_gappih m; m_gappiv := m_gappiv m; m_gappoh := m_gappoh m;
     m_gappov := m_gappov m; m_seltags := m_seltags m; m_sellt := m_sellt m;
     m_tagset0 := m_tagset0 m; m_tagset1 := m_tagset1 m; m_showbar := m_showbar m;
     m_showtab := m_showtab m; m_topbar := m_topbar m; m_toptab := m_toptab m;
     m_clients := m_clients m; m_sel := m_sel m; m_stack := m_stack m;
     m_barwin := m_barwin m; m_tabwin := m_tabwin m; m_lt0 := m_lt0 m; m_lt1 := m_lt1 m;
     m_pertag := m_pertag m |}.

Definition set_m_bar (v0 : Z) (v1 : Z) (v2 : Z) (v3 : Z) (m : Monitor) : Monitor :=
  {| m_ltsymbol := m_ltsymbol m; m_mfact := m_mfact m; m_nmaster := m_nmaster m;
     m_num := m_num m; m_by := v0; m_ty := v1; m_mx := m_mx m; m_my := m_my m;
     m_mw := m_mw m; m_mh := m_mh m; m_wx := m_wx m; m_wy := v2; m_ww := m_ww m;
     m_wh := v3; m_gappih := m_gappih m; m_gappiv := m_gappiv m; m_gappoh := m_gappoh m;
     m_gappov := m_gappov m; m_seltags := m_seltags m; m_sellt := m_sellt m;
     m_tagset0 := m_tagset0 m; m_tagset1 := m_tagset1 m; m_showbar := m_showbar m;
     m_showtab := m_showtab m; m_topbar := m_topbar m; m_toptab := m_toptab m;
     m_clients := m_clients m; m_sel := m_sel m; m_stack := m_stack m;
     m_barwin := m_barwin m; m_tabwin := m_tabwin m; m_lt0 := m_lt0 m; m_lt1 := m_lt1 m;
     m_pertag := m_pertag m |}.

Definition set_m_gaps (v0 : Z) (v1 : Z) (v2 : Z) (v3 : Z) (m : Monitor) : Monitor :=
  {| m_ltsymbol := m_ltsymbol m; m_mfact := m_mfact m; m_nmaster := m_nmaster m;
     m_num := m_num m; m_by := m_by m; m_ty := m_ty m; m_mx := m_mx m; m_my := m_my m;
     m_mw := m_mw m; m_mh := m_mh m; m_wx := m_wx m; m_wy := m_wy m; m_ww := m_ww m;
     m_wh := m_wh m; m_gappih := v0; m_gappiv := v1; m_gappoh := v2; m_gappov := v3;
     m_seltags := m_seltags m; m_sellt := m_sellt m; m_tagset0 := m_tagset0 m;
     m_tagset1 := m_tagset1 m; m_showbar := m_showbar m; m_showtab := m_showtab m;
     m_topbar := m_topbar m; m_toptab := m_toptab m; m_clients := m_clients m;
     m_sel := m_sel m; m_stack := m_stack m; m_barwin := m_barwin m;
     m_tabwin := m_tabwin m; m_lt0 := m_lt0 m; m_lt1 := m_lt1 m;
     m_pertag := m_pertag m |}.

Definition set_m_seltags (v : Z) (m : Monitor) : Monitor :=
  {| m_ltsymbol := m_ltsymbol m; m_mfact := m_mfact m; m_nmaster := m_nmaster m;
     m_num := m_num m; m_by := m_by m; m_ty := m_ty m; m_mx := m_mx m; m_my := m_my m;
     m_mw := m_mw m; m_mh := m_mh m; m_wx := m_wx m; m_wy := m_wy m; m_ww := m_ww m;
     m_wh := m_wh m; m_gappih := m_gappih m; m_gappiv := m_gappiv m;
     m_gappoh := m_gappoh m; m_gappov := m_gappov m; m_seltags := v;
     m_sellt := m_sellt m; m_tagset0 := m_tagset0 m; m_tagset1 := m_tagset1 m;
     m_showbar := m_showbar m; m_showtab := m_showtab m; m_topbar := m_topbar m;
     m_toptab := m_toptab m; m_clients := m_clients m; m_sel := m_sel m;
     m_stack := m_stack m; m_barwin := m_barwin m; m_tabwin := m_tabwin m;
     m_lt0 := m_lt0 m; m_lt1 := m_lt1 m; m_pertag := m_pertag m |}.

Definition set_m_sellt (v : Z) (m : Monitor) : Monitor :=
  {| m_ltsymbol := m_ltsymbol m; m_mfact := m_mfact m; m_nmaster := m_nmaster m;
     m_num := m_num m; m_by := m_by m; m_ty := m_ty m; m_mx := m_mx m; m_my := m_my m;
     m_mw := m_mw m; m_mh := m_mh m; m_wx := m_wx m; m_wy := m_wy m; m_ww := m_ww m;
     m_wh := m_wh m; m_gappih := m_gappih m; m_gappiv := m_gappiv m;
     m_gappoh := m_gappoh m; m_gappov := m_gappov m; m_seltags := m_seltags m;
     m_sellt := v; m_tagset0 := m_tagset0 m; m_tagset1 := m_tagset1 m;
     m_showbar := m_showbar m; m_showtab := m_showtab m; m_topbar := m_topbar m;
     m_toptab := m_toptab m; m_clients := m_clients m; m_sel := m_sel m;
     m_stack := m_stack m; m_barwin := m_barwin m; m_tabwin := m_tabwin m;
     m_lt0 := m_lt0 m; m_lt1 := m_lt1 m; m_pertag := m_pertag m |}.

Definition set_m_tagset0 (v : Z) (m : Monitor) : Monitor :=
  {| m_ltsymbol := m_ltsymbol m; m_mfact := m_mfact m; m_nmaster := m_nmaster m;
     m_num := m_num m; m_by := m_by m; m_ty := m_ty m; m_mx := m_mx m; m_my := m_my m;
     m_mw := m_mw m; m_mh := m_mh m; m_wx := m_wx m; m_wy := m_wy m; m_ww := m_ww m;
     m_wh := m_wh m; m_gappih := m_gappih m; m_gappiv := m_gappiv m;
     m_gappoh := m_gappoh m; m_gappov := m_gappov m; m_seltags := m_seltags m;
     m_sellt := m_sellt m; m_tagset0 := v; m_tagset1 := m_tagset1 m;
     m_showbar := m_showbar m; m_showtab := m_showtab m; m_topbar := m_topbar m;
     m_toptab := m_toptab m; m_clients := m_clients m; m_sel := m_sel m;
     m_stack := m_stack m; m_barwin := m_barwin m; m_tabwin := m_tabwin m;
     m_lt0 := m_lt0 m; m_lt1 := m_lt1 m; m_pertag := m_pertag m |}.

Definition set_m_tagset1 (v : Z) (m : Monitor) : Monitor :=
  {| m_ltsymbol := m_ltsymbol m; m_mfact := m_mfact m; m_nmaster := m_nmaster m;
     m_num := m_num m; m_by := m_by m; m_ty := m_ty m; m_mx := m_mx m; m_my := m_my m;
     m_mw := m_mw m; m_mh := m_mh m; m_wx := m_wx m; m_wy := m_wy m; m_ww := m_ww m;
     m_wh := m_wh m; m_gappih := m_gappih m; m_gappiv := m_gappiv m;
     m_gappoh := m_gappoh m; m_gappov := m_gappov m; m_seltags := m_seltags m;
     m_sellt := m_sellt m; m_tagset0 := m_tagset0 m; m_tagset1 := v;
     m_showbar := m_showbar m; m_showtab := m_showtab m; m_topbar := m_topbar m;
     m_toptab := m_toptab m; m_clients := m_clients m; m_sel := m_sel m;
     m_stack := m_stack m; m_barwin := m_barwin m; m_tabwin := m_tabwin m;
     m_lt0 := m_lt0 m; m_lt1 := m_lt1 m; m_pertag := m_pertag m |}.

Definition set_m_showbar (v : Z) (m : Monitor) : Monitor :=
  {| m_ltsymbol := m_ltsymbol m; m_mfact := m_mfact m; m_nmaster := m_nmaster m;
     m_num := m_num m; m_by := m_by m; m_ty := m_ty m; m_mx := m_mx m; m_my := m_my m;
     m_mw := m_mw m; m_mh := m_mh m; m_wx := m_wx m; m_wy := m_wy m; m_ww := m_ww m;
     m_wh := m_wh m; m_gappih := m_gappih m; m_gappiv := m_gappiv m;
     m_gappoh := m_gappoh m; m_gappov := m_gappov m; m_seltags := m_seltags m;
     m_sellt := m_sellt m; m_tagset0 := m_tagset0 m; m_tagset1 := m_tagset1 m;
     m_showbar := v; m_showtab := m_showtab m; m_topbar := m_topbar m;
     m_toptab := m_toptab m; m_clients := m_clients m; m_sel := m_sel m;
     m_stack := m_stack m; m_barwin := m_barwin m; m_tabwin := m_tabwin m;
     m_lt0 := m_lt0 m; m_lt1 := m_lt1 m; m_pertag := m_pertag m |}.

Definition set_m_clients (v : list cid) (m : Monitor) : Monitor :=
  {| m_ltsymbol := m_ltsymbol m; m_mfact := m_mfact m; m_nmaster := m_nmaster m;
     m_num := m_num m; m_by := m_by m; m_ty := m_ty m; m_mx := m_mx m; m_my := m_my m;
     m_mw := m_mw m; m_mh := m_mh m; m_wx := m_wx m; m_wy := m_wy m; m_ww := m_ww m;
     m_wh := m_wh m; m_gappih := m_gappih m; m_gappiv := m_gappiv m;
     m_gappoh := m_gappoh m; m_gappov := m_gappov m; m_seltags := m_seltags m;
     m_sellt := m_sellt m; m_tagset0 := m_tagset0 m; m_tagset1 := m_tagset1 m;
     m_showbar := m_showbar m; m_showtab := m_showtab m; m_topbar := m_topbar m;
     m_toptab := m_toptab m; m_clients := v; m_sel := m_sel m; m_stack := m_stack m;
     m_barwin := m_barwin m; m_tabwin := m_tabwin m; m_lt0 := m_lt0 m; m_lt1 := m_lt1 m;
     m_pertag := m_pertag m |}.

Definition set_m_sel (v : option cid) (m : Monitor) : Monitor :=
  {| m_ltsymbol := m_ltsymbol m; m_mfact := m_mfact m; m_nmaster := m_nmaster m;
     m_num := m_num m; m_by := m_by m; m_ty := m_ty m; m_mx := m_mx m; m_my := m_my m;
     m_mw := m_mw m; m_mh := m_mh m; m_wx := m_wx m; m_wy := m_wy m; m_ww := m_ww m;
     m_wh := m_wh m; m_gappih := m_gappih m; m_gappiv := m_gappiv m;
     m_gappoh := m_gappoh m; m_gappov := m_gappov m; m_seltags := m_seltags m;
     m_sellt := m_sellt m; m_tagset0 := m_tagset0 m; m_tagset1 := m_tagset1 m;
     m_showbar := m_showbar m; m_showtab := m_showtab m; m_topbar := m_topbar m;
     m_toptab := m_toptab m; m_clients := m_clients m; m_sel := v; m_stack := m_stack m;
     m_barwin := m_barwin m; m_tabwin := m_tabwin m; m_lt0 := m_lt0 m; m_lt1 := m_lt1 m;
     m_pertag := m_pertag m |}.

Definition set_m_stack (v : list cid) (m : Monitor) : Monitor :=
  {| m_ltsymbol := m_ltsymbol m; m_mfact := m_mfact m; m_nmaster := m_nmaster m;
     m_num := m_num m; m_by := m_by m; m_ty := m_ty m; m_mx := m_mx m; m_my := m_my m;
     m_mw := m_mw m; m_mh := m_mh m; m_wx := m_wx m; m_wy := m_wy m; m_ww := m_ww m;
     m_wh := m_wh m; m_gappih := m_gappih m; m_gappiv := m_gappiv m;
     m_gappoh := m_gappoh m; m_gappov := m_gappov m; m_seltags := m_seltags m;
     m_sellt := m_sellt m; m_tagset0 := m_tagset0 m; m_tagset1 := m_tagset1 m;
     m_showbar := m_showbar m; m_showtab := m_showtab m; m_topbar := m_topbar m;
     m_toptab := m_toptab m; m_clients := m_clients m; m_sel := m_sel m; m_stack := v;
     m_barwin := m_barwin m; m_tabwin := m_tabwin m; m_lt0 := m_lt0 m; m_lt1 := m_lt1 m;
     m_pertag := m_pertag m |}.

Definition set_m_lt0 (v : Layout) (m : Monitor) : Monitor :=
  {| m_ltsymbol := m_ltsymbol m; m_mfact := m_mfact m; m_nmaster := m_nmaster m;
     m_num := m_num m; m_by := m_by m; m_ty := m_ty m; m_mx := m_mx m; m_my := m_my m;
     m_mw := m_mw m; m_mh := m_mh m; m_wx := m_wx m; m_wy := m_wy m; m_ww := m_ww m;
     m_wh := m_wh m; m_gappih := m_gappih m; m_gappiv := m_gappiv m;
     m_gappoh := m_gappoh m; m_gappov := m_gappov m; m_seltags := m_seltags m;
     m_sellt := m_sellt m; m_tagset0 := m_tagset0 m; m_tagset1 := m_tagset1 m;
     m_showbar := m_showbar m; m_showtab := m_showtab m; m_topbar := m_topbar m;
     m_toptab := m_toptab m; m_clients := m_clients m; m_sel := m_sel m;
     m_stack := m_stack m; m_barwin := m_barwin m; m_tabwin := m_tabwin m; m_lt0 := v;
     m_lt1 := m_lt1 m; m_pertag := m_pertag m |}.

Definition set_m_lt1 (v : Layout) (m : Monitor) : Monitor :=
  {| m_ltsymbol := m_ltsymbol m; m_mfact := m_mfact m; m_nmaster := m_nmaster m;
     m_num := m_num m; m_by := m_by m; m_ty := m_ty m; m_mx := m_mx m; m_my := m_my m;
     m_mw := m_mw m; m_mh := m_mh m; m_wx := m_wx m; m_wy := m_wy m; m_ww := m_ww m;
     m_wh := m_wh m; m_gappih := m_gappih m; m_gappiv := m_gappiv m;
     m_gappoh := m_gappoh m; m_gappov := m_gappov m; m_seltags := m_seltags m;
     m_sellt := m_sellt m; m_tagset0 := m_tagset0 m; m_tagset1 := m_tagset1 m;
     m_showbar := m_showbar m; m_showtab := m_showtab m; m_topbar := m_topbar m;
     m_toptab := m_toptab m; m_clients := m_clients m; m_sel := m_sel m;
     m_stack := m_stack m; m_barwin := m_barwin m; m_tabwin := m_tabwin m;
     m_lt0 := m_lt0 m; m_lt1 := v; m_pertag := m_pertag m |}.

Definition set_m_pertag (v : Pertag) (m : Monitor) : Monitor :=
  {| m_ltsymbol := m_ltsymbol m; m_mfact := m_mfact m; m_nmaster := m_nmaster m;
     m_num := m_num m; m_by := m_by m; m_ty := m_ty m; m_mx := m_mx m; m_my := m_my m;
     m_mw := m_mw m; m_mh := m_mh m; m_wx := m_wx m; m_wy := m_wy m; m_ww := m_ww m;
     m_wh := m_wh m; m_gappih := m_gappih m; m_gappiv := m_gappiv m;
     m_gappoh := m_gappoh m; m_gappov := m_gappov m; m_seltags := m_seltags m;
     m_sellt := m_sellt m; m_tagset0 := m_tagset0 m; m_tagset1 := m_tagset1 m;
     m_showbar := m_showbar m; m_showtab := m_showtab m; m_topbar := m_topbar m;
     m_toptab := m_toptab m; m_clients := m_clients m; m_sel := m_sel m;
     m_stack := m_stack m; m_barwin := m_barwin m; m_tabwin := m_tabwin m;
     m_lt0 := m_lt0 m; m_lt1 := m_lt1 m; m_pertag := v |}.

Definition set_g_clients (v : cid -> Client) (g : World) : World :=
  {| g_clients := v; g_monitors := g_monitors g; g_mons := g_mons g;
     g_selmon := g_selmon g; g_bh := g_bh g; g_th := g_th g; g_sw := g_sw g;
     g_sh := g_sh g; g_enablegaps := g_enablegaps g; g_xtitle := g_xtitle g;
     g_xclass := g_xclass g; g_xlog := g_xlog g |}.

Definition set_g_monitors (v : mid -> Monitor) (g : World) : World :=
  {| g_clients := g_clients g; g_monitors := v; g_mons := g_mons g;
     g_selmon := g_selmon g; g_bh := g_bh g; g_th := g_th g; g_sw := g_sw g;
     g_sh := g_sh g; g_enablegaps := g_enablegaps g; g_xtitle := g_xtitle g;
     g_xclass := g_xclass g; g_xlog := g_xlog g |}.

Definition set_g_selmon (v : mid) (g : World) : World :=
  {| g_clients := g_clients g; g_monitors := g_monitors g; g_mons := g_mons g;
     g_selmon := v; g_bh := g_bh g; g_th := g_th g; g_sw := g_sw g; g_sh := g_sh g;
     g_enablegaps := g_enablegaps g; g_xtitle := g_xtitle g; g_xclass := g_xclass g;
     g_xlog := g_xlog g |}.

Definition set_g_xlog (v : list XReq) (g : World) : World :=
  {| g_clients := g_clients g; g_monitors := g_monitors g; g_mons := g_mons g;
     g_selmon := g_selmon g; g_bh := g_bh g; g_th := g_th g; g_sw := g_sw g;
     g_sh := g_sh g; g_enablegaps := g_enablegaps g; g_xtitle := g_xtitle g;
     g_xclass := g_xclass g; g_xlog := v |}.


(** ** Heap access, the request log, macros *)

Definition upd {A} (f : nat -> A) (k : nat) (v : A) : nat -> A :=
  fun j => if Nat.eqb j k then v else f j.

Definition client (g : World) (c : cid) : Client := g_clients g c.
Definition monitor (g : World) (m : mid) : Monitor := g_monitors g m.

Definition with_client (c : cid) (f : Client -> Client) (g : World) : World :=
  set_g_clients (upd (g_clients g) c (f (g_clients g c))) g.

Definition with_monitor (m : mid) (f : Monitor -> Monitor) (g : World) : World :=
  set_g_monitors (upd (g_monitors g) m (f (g_monitors g m))) g.

Definition xreq (r : XReq) (g : World) : World := set_g_xlog (g_xlog g ++ [r]) g.

Definition m_tagset (m : Monitor) (i : Z) : Z := idx2 i (m_tagset0 m) (m_tagset1 m).
Definition set_m_tagset (i v : Z) (m : Monitor) : Monitor :=
  if i =? 0 then set_m_tagset0 v m else set_m_tagset1 v m.
Definition m_lt (m : Monitor) (i : Z) : Layout := idx2 i (m_lt0 m) (m_lt1 m).
Definition set_m_lt (i : Z) (v : Layout) (m : Monitor) : Monitor :=
  if i =? 0 then set_m_lt0 v m else set_m_lt1 v m.

(** [m->tagset[m->seltags]] and [m->lt[m->sellt]]. *)
Definition sel_tagset (m : Monitor) : Z := m_tagset m (m_seltags m).
Definition sel_layout (m : Monitor) : Layout := m_lt m (m_sellt m).

Definition has_arrange (m : Monitor) : bool :=
  match l_arrange (sel_layout m) with Some _ => true | None => false end.

Definition arrange_is (f : ArrangeFn) (m : Monitor) : bool :=
  match l_arrange (sel_layout m) with Some f' => ArrangeFn_eqb f' f | None => false end.

Definition ISVISIBLE (g : World) (c : cid) : bool :=
  truthy (Z.land (c_tags (client g c)) (sel_tagset (monitor g (c_mon (client g c))))).

Definition WIDTH (c : Client) : Z := c_w c + 2 * c_bw c.
Definition HEIGHT (c : Client) : Z := c_h c + 2 * c_bw c.

(** An array of [LENGTH(tags) + 1] entries read and written at an index. *)
Definition aget {A} (d : A) (l : list A) (i : Z) : A := nth (Z.to_nat i) l d.

Fixpoint aset_nat {A} (l : list A) (i : nat) (v : A) : list A :=
  match l, i with
  | [], _ => []
  | _ :: t, O => v :: t
  | a :: t, S j => a :: aset_nat t j v
  end.

Definition aset {A} (l : list A) (i : Z) (v : A) : list A := aset_nat l (Z.to_nat i) v.

(** ** Chains *)

(** The test of [nexttiled]'s loop: the client is skipped. *)
Definition untiled (g : World) (c : cid) : bool :=
  truthy (c_isfloating (client g c)) || negb (ISVISIBLE g c).

(** [nexttiled g l] is the part of the chain [l] that starts at its first tiled
    client: the head of the result is the client returned by the C function
    and the tail is that client's [next] chain; [[]] is NULL. *)
Fixpoint nexttiled (g : World) (l : list cid) : list cid :=
  match l with
  | [] => []
  | c :: rest => if untiled g c then nexttiled g rest else l
  end.

(** [c->next], for a client [c] on the chain [l]. *)
Fixpoint next_of (c : cid) (l : list cid) : list cid :=
  match l with
  | [] => []
  | d :: rest => if Nat.eqb d c then rest else next_of c rest
  end.

Definition head_is (l : list cid) (c : cid) : bool :=
  match l with d :: _ => Nat.eqb d c | [] => false end.

Definition is_null {A} (l : list A) : bool :=
  match l with [] => true | _ => false end.

(** [for (...; c = nexttiled(m->clients); c; c = nexttiled(c->next), ...)]: the
    body runs on every client of the chain that [nexttiled] stops at, in the
    world left by the bodies before it. *)
Fixpoint tiled_loop {S : Type} (body : S -> cid -> World -> S * World)
         (st : S) (l : list cid) (g : World) : S * World :=
  match l with
  | [] => (st, g)
  | c :: rest =>
      if untiled g c then tiled_loop body st rest g
      else let '(st', g') := body st c g in tiled_loop body st' rest g'
  end.

(** [for (n = 0, c = nexttiled(m->clients); c; c = nexttiled(c->next), n++);] *)
Definition count_tiled (g : World) (l : list cid) : Z :=
  fst (tiled_loop (fun n _ g' => (n + 1, g')) 0 l g).

(** detach and detachstack unlink the first occurrence of [c] from a chain. *)
Fixpoint unlink (c : cid) (l : list cid) : list cid :=
  match l with
  | [] => []
  | d :: rest => if Nat.eqb d c then rest else d :: unlink c rest
  end.

(** [for (t = stack; t && !ISVISIBLE(t); t = t->snext);] *)
Fixpoint first_visible (g : World) (l : list cid) : option cid :=
  match l with
  | [] => None
  | c :: rest => if ISVISIBLE g c then Some c else first_visible g rest
  end.

(** ** Geometry: applysizehints, resizeclient, resize *)

Definition applysizehints (g : World) (c : cid) (x y w h interact : Z)
  : bool * (Z * Z * Z * Z) :=
  let cl := client g c in
  let m := monitor g (c_mon cl) in
  let w := MAX 1 w in
  let h := MAX 1 h in
  let '(x, y) :=
    if truthy interact then
      let x := if x >? g_sw g then g_sw g - WIDTH cl else x in
      let y := if y >? g_sh g then g_sh g - HEIGHT cl else y in
      let x := if x + w + 2 * c_bw cl <? 0 then 0 else x in
      let y := if y + h + 2 * c_bw cl <? 0 then 0 else y in
      (x, y)
    else
      let x := if x >=? m_wx m + m_ww m then m_wx m + m_ww m - WIDTH cl else x in
      let y := if y >=? m_wy m + m_wh m then m_wy m + m_wh m - HEIGHT cl else y in
      let x := if x + w + 2 * c_bw cl <=? m_wx m then m_wx m else x in
      let y := if y + h + 2 * c_bw cl <=? m_wy m then m_wy m else y in
      (x, y) in
  let h := if h <? g_bh g then g_bh g else h in
  let w := if w <? g_bh g then g_bh g else w in
  let '(w, h) :=
    if truthy (c_isfloating cl) || negb (has_arrange m) then
      let baseismin := (c_basew cl =? c_minw cl) && (c_baseh cl =? c_minh cl) in
      let '(w, h) := if negb baseismin then (w - c_basew cl, h - c_baseh cl) else (w, h) in
      let '(w, h) :=
        if fgt (c_mina cl) (i2f 0) && fgt (c_maxa cl) (i2f 0) then
          if flt (c_maxa cl) (divf (i2f w) (i2f h))
          then (f2i (addd (mulf (i2f h) (c_maxa cl)) (dlit (1 # 2))), h)
          else if flt (c_mina cl) (divf (i2f h) (i2f w))
               then (w, f2i (addd (mulf (i2f w) (c_mina cl)) (dlit (1 # 2))))
               else (w, h)
        else (w, h) in
      let '(w, h) := if baseismin then (w - c_basew cl, h - c_baseh cl) else (w, h) in
      let w := if truthy (c_incw cl) then w - Z.rem w (c_incw cl) else w in
      let h := if truthy (c_inch cl) then h - Z.rem h (c_inch cl) else h in
      let w := MAX (w + c_basew cl) (c_minw cl) in
      let h := MAX (h + c_baseh cl) (c_minh cl) in
      let w := if truthy (c_maxw cl) then MIN w (c_maxw cl) else w in
      let h := if truthy (c_maxh cl) then MIN h (c_maxh cl) else h in
      (w, h)
    else (w, h) in
  (negb (x =? c_x cl) || negb (y =? c_y cl) || negb (w =? c_w cl) || negb (h =? c_h cl),
   (x, y, w, h)).

Definition configure (c : cid) (g : World) : World :=
  let cl := client g c in
  xreq (XSendConfigureNotify (c_win cl) (c_x cl) (c_y cl) (c_w cl) (c_h cl) (c_bw cl)) g.

(** The test of resizeclient: [c] is the only tiled client of its monitor, or
    the monitor is in the monocle layout; and [c] is neither fullscreen nor
    floating.  [c->next] is read on the chain of [c]'s monitor. *)
Definition borderless (g : World) (c : cid) : bool :=
  let cl := client g c in
  let m := monitor g (c_mon cl) in
  ((head_is (nexttiled g (m_clients m)) c
    && is_null (nexttiled g (next_of c (m_clients m))))
   || arrange_is LtMonocle m)
  && negb (truthy (c_isfullscreen cl)) && negb (truthy (c_isfloating cl)).

Definition resizeclient (c : cid) (x y w h : Z) (g : World) : World :=
  let g := with_client c (fun cl =>
             set_c_geom x y w h (set_c_old (c_x cl) (c_y cl) (c_w cl) (c_h cl) cl)) g in
  let bw := c_bw (client g c) in
  let '(w, h, border) :=
    if borderless g c then (w + bw * 2, h + bw * 2, 0) else (w, h, bw) in
  let g := with_client c (set_c_geom x y w h) g in
  let g := xreq (XConfigureWindow (c_win (client g c)) x y w h border) g in
  let g := configure c g in
  xreq XSync g.

Definition resize (c : cid) (x y w h interact : Z) (g : World) : World :=
  let '(changed, (x, y, w, h)) := applysizehints g c x y w h interact in
  if changed then resizeclient c x y w h g else g.

(** ** Gaps and the even split of an extent *)

Definition getgaps (g : World) (m : mid) : Z * Z * Z * Z * Z :=
  let mo := monitor g m in
  let ie := u32 (g_enablegaps g) in
  let n := count_tiled g (m_clients mo) in
  let oe := if n =? 1 then 0 else ie in
  (s32 (m_gappoh mo * oe), s32 (m_gappov mo * oe),
   s32 (m_gappih mo * ie), s32 (m_gappiv mo * ie), n).

(** [mtotal += msize / mfacts]: the sum is formed in [float] and converted. *)
Definition add_share (total size : Z) (facts : cfloat) : Z :=
  f2i (addf (i2f total) (divf (i2f size) facts)).

Definition getfacts (g : World) (m : mid) (msize ssize : Z)
  : cfloat * cfloat * Z * Z :=
  let mo := monitor g m in
  let n := count_tiled g (m_clients mo) in
  let mfacts := i2f (MIN n (u32 (m_nmaster mo))) in
  let sfacts := i2f (u32 (n - m_nmaster mo)) in
  let '(_, mtotal, stotal) :=
    fst (tiled_loop
           (fun '(n, mtotal, stotal) _ g' =>
              (if n <? u32 (m_nmaster mo)
               then (n + 1, add_share mtotal msize mfacts, stotal)
               else (n + 1, mtotal, add_share stotal ssize sfacts), g'))
           (0, 0, 0) (m_clients mo) g) in
  (mfacts, sfacts, msize - mtotal, ssize - stotal).

(** ** The layouts *)

(** [(size / facts) + (i < rest ? 1 : 0) - (2 * c->bw)], handed to resize as an
    [int]; [i] is [unsigned], so the comparison converts [rest]. *)
Definition share (size : Z) (facts : cfloat) (i rest bw : Z) : Z :=
  f2i (subf (addf (divf (i2f size) facts) (i2f (b2z (i <? u32 rest)))) (i2f (2 * bw))).

(** The [%d] conversion of snprintf. *)
Definition fmt_d (z : Z) : string := NilZero.string_of_int (Z.to_int z).

(** strncpy and snprintf into [char ltsymbol[16]]. *)
Definition strncpy16 (s : string) : string := substring 0 16 s.
Definition snprintf16 (s : string) : string := substring 0 15 s.

Definition count_visible (g : World) (l : list cid) : Z :=
  Z.of_nat (List.length (filter (ISVISIBLE g) l)).

Definition monocle (m : mid) (g : World) : World :=
  let n := count_visible g (m_clients (monitor g m)) in
  let g :=
    if n >? 0
    then with_monitor m (set_m_ltsymbol (snprintf16 ("[M " ++ fmt_d n ++ "]"))) g
    else g in
  snd (tiled_loop
         (fun (_ : unit) c g =>
            let mo := monitor g m in
            let bw := c_bw (client g c) in
            (tt, resize c (m_wx mo) (m_wy mo) (m_ww mo - 2 * bw) (m_wh mo - 2 * bw) 0 g))
         tt (m_clients (monitor g m)) g).

(** The heights [mh] and [sh] that tile gives to the master and stack areas. *)
Definition tile_extents (g : World) (m : mid) : Z * Z :=
  let mo := monitor g m in
  let '(oh, ov, ih, iv, n) := getgaps g m in
  (s32 (m_wh mo - 2 * oh - ih * (MIN n (u32 (m_nmaster mo)) - 1)),
   s32 (m_wh mo - 2 * oh - ih * (n - m_nmaster mo - 1))).

Definition tile (m : mid) (g : World) : World :=
  let mo := monitor g m in
  let '(oh, ov, ih, iv, n) := getgaps g m in
  if n =? 0 then g else
  let nm := u32 (m_nmaster mo) in
  let mx := m_wx mo + ov in
  let my := m_wy mo + oh in
  let '(mh, sh) := tile_extents g m in
  let mw := m_ww mo - 2 * ov in
  let '(sw, mw, sx) :=
    if truthy (m_nmaster mo) && (n >? nm) then
      let sw := f2i (mulf (i2f (mw - iv)) (subf (i2f 1) (m_mfact mo))) in
      let mw := mw - iv - sw in
      (sw, mw, mx + mw + iv)
    else (mw, mw, mx) in
  let '(mfacts, sfacts, mrest, srest) := getfacts g m mh sh in
  snd (tiled_loop
         (fun '(i, my, sy) c g =>
            let bw := c_bw (client g c) in
            if i <? nm then
              let g := resize c mx my (mw - 2 * bw) (share mh mfacts i mrest bw) 0 g in
              ((i + 1, my + HEIGHT (client g c) + ih, sy), g)
            else
              let g :=
                resize c sx sy (sw - 2 * bw) (share sh sfacts (u32 (i - nm)) srest bw) 0 g in
              ((i + 1, my, sy + HEIGHT (client g c) + ih), g))
         (0, my, my) (m_clients mo) g).

Definition deck (m : mid) (g : World) : World :=
  let mo := monitor g m in
  let '(oh, ov, ih, iv, n) := getgaps g m in
  if n =? 0 then g else
  let nm := u32 (m_nmaster mo) in
  let mx := m_wx mo + ov in
  let my := m_wy mo + oh in
  let sy := my in
  let mh := s32 (m_wh mo - 2 * oh - ih * (MIN n nm - 1)) in
  let mw := m_ww mo - 2 * ov in
  let '(sw, mw, sx, sh) :=
    if truthy (m_nmaster mo) && (n >? nm) then
      let sw := f2i (mulf (i2f (mw - iv)) (subf (i2f 1) (m_mfact mo))) in
      let mw := mw - iv - sw in
      (sw, mw, mx + mw + iv, m_wh mo - 2 * oh)
    else (mw, mw, mx, mh) in
  let '(mfacts, sfacts, mrest, srest) := getfacts g m mh sh in
  let g :=
    if u32 (n - nm) >? 0
    then with_monitor m
           (set_m_ltsymbol (snprintf16 ("[D " ++ fmt_d (s32 (n - nm)) ++ "]"))) g
    else g in
  snd (tiled_loop
         (fun '(i, my) c g =>
            let bw := c_bw (client g c) in
            if i <? nm then
              let g := resize c mx my (mw - 2 * bw) (share mh mfacts i mrest bw) 0 g in
              ((i + 1, my + HEIGHT (client g c) + ih), g)
            else
              ((i + 1, my), resize c sx sy (sw - 2 * bw) (sh - 2 * bw) 0 g))
         (0, my) (m_clients mo) g).

Definition bstack (m : mid) (g : World) : World :=
  let mo := monitor g m in
  let '(oh, ov, ih, iv, n) := getgaps g m in
  if n =? 0 then g else
  let nm := u32 (m_nmaster mo) in
  let mx := m_wx mo + ov in
  let my := m_wy mo + oh in
  let mh := m_wh mo - 2 * oh in
  let mw := s32 (m_ww mo - 2 * ov - iv * (MIN n nm - 1)) in
  let sw := s32 (m_ww mo - 2 * ov - iv * (n - m_nmaster mo - 1)) in
  let '(sh, mh, sy) :=
    if truthy (m_nmaster mo) && (n >? nm) then
      let sh := f2i (mulf (i2f (mh - ih)) (subf (i2f 1) (m_mfact mo))) in
      let mh := mh - ih - sh in
      (sh, mh, my + mh + ih)
    else (mh, mh, my) in
  let '(mfacts, sfacts, mrest, srest) := getfacts g m mw sw in
  snd (tiled_loop
         (fun '(i, mx, sx) c g =>
            let bw := c_bw (client g c) in
            if i <? nm then
              let g := resize c mx my (share mw mfacts i mrest bw) (mh - 2 * bw) 0 g in
              ((i + 1, mx + WIDTH (client g c) + iv, sx), g)
            else
              let g :=
                resize c sx sy (share sw sfacts (u32 (i - nm)) srest bw) (sh - 2 * bw) 0 g in
              ((i + 1, mx, sx + WIDTH (client g c) + iv), g))
         (0, mx, mx) (m_clients mo) g).

Definition bstackhoriz (m : mid) (g : World) : World :=
  let mo := monitor g m in
  let '(oh, ov, ih, iv, n) := getgaps g m in
  if n =? 0 then g else
  let nm := u32 (m_nmaster mo) in
  let mx := m_wx mo + ov in
  let my := m_wy mo + oh in
  let sx := mx in
  let mh := m_wh mo - 2 * oh in
  let sh := s32 (m_wh mo - 2 * oh - ih * (n - m_nmaster mo - 1)) in
  let mw := s32 (m_ww mo - 2 * ov - iv * (MIN n nm - 1)) in
  let sw := m_ww mo - 2 * ov in
  let '(sh, mh, sy) :=
    if truthy (m_nmaster mo) && (n >? nm) then
      let sh := f2i (mulf (i2f (mh - ih)) (subf (i2f 1) (m_mfact mo))) in
      let mh := mh - ih - sh in
      (s32 (m_wh mo - mh - 2 * oh - ih * (n - m_nmaster mo)), mh, my + mh + ih)
    else (sh, mh, my) in
  let '(mfacts, sfacts, mrest, srest) := getfacts g m mw sh in
  snd (tiled_loop
         (fun '(i, mx, sy) c g =>
            let bw := c_bw (client g c) in
            if i <? nm then
              let g := resize c mx my (share mw mfacts i mrest bw) (mh - 2 * bw) 0 g in
              ((i + 1, mx + WIDTH (client g c) + iv, sy), g)
            else
              let g :=
                resize c sx sy (sw - 2 * bw) (share sh sfacts (u32 (i - nm)) srest bw) 0 g in
              ((i + 1, mx, sy + HEIGHT (client g c) + ih), g))
         (0, mx, sy) (m_clients mo) g).

Definition centeredfloatingmaster (m : mid) (g : World) : World :=
  let mo := monitor g m in
  let '(oh, ov, ih, iv, n) := getgaps g m in
  if n =? 0 then g else
  let nm := u32 (m_nmaster mo) in
  let sx := m_wx mo + ov in
  let sy := m_wy mo + oh in
  let sh := m_wh mo - 2 * oh in
  let sw := s32 (m_ww mo - 2 * ov - iv * (n - m_nmaster mo - 1)) in
  let '(mivf, mw, mh, mx, my) :=
    if truthy (m_nmaster mo) && (n >? nm) then
      let mivf := flit (8 # 10) in
      let gap := mulf (mulf (i2f iv) mivf) (i2f (u32 (MIN n nm - 1))) in
      let '(mw, mh) :=
        if m_ww mo >? m_wh mo then
          (f2i (subf (mulf (i2f (m_ww mo)) (m_mfact mo)) gap),
           f2i (muld (i2d (m_wh mo)) (dlit (9 # 10))))
        else
          (f2i (subd (muld (i2d (m_ww mo)) (dlit (9 # 10))) gap),
           f2i (mulf (i2f (m_wh mo)) (m_mfact mo))) in
      (mivf, mw, mh, m_wx mo + Z.quot (m_ww mo - mw) 2,
       m_wy mo + Z.quot (m_wh mo - mh - 2 * oh) 2)
    else (flit 1, s32 (m_ww mo - 2 * ov - iv * (n - 1)), sh, sx, sy) in
  let '(mfacts, sfacts, mrest, srest) := getfacts g m mw sw in
  snd (tiled_loop
         (fun '(i, mx, sx) c g =>
            let bw := c_bw (client g c) in
            if i <? nm then
              let g := resize c mx my (share mw mfacts i mrest bw) (mh - 2 * bw) 0 g in
              ((i + 1,
                f2i (addf (i2f mx) (addf (i2f (WIDTH (client g c))) (mulf (i2f iv) mivf))),
                sx), g)
            else
              let g :=
                resize c sx sy (share sw sfacts (u32 (i - nm)) srest bw) (sh - 2 * bw) 0 g in
              ((i + 1, mx, sx + WIDTH (client g c) + iv), g))
         (0, mx, sx) (m_clients mo) g).

Definition centeredmaster (m : mid) (g : World) : World :=
  let mo := monitor g m in
  let '(oh, ov, ih, iv, n) := getgaps g m in
  if n =? 0 then g else
  let nm := u32 (m_nmaster mo) in
  let is_master (i : Z) := negb (truthy (m_nmaster mo)) || (i <? nm) in
  let mx := m_wx mo + ov in
  let my := m_wy mo + oh in
  let mh :=
    s32 (m_wh mo - 2 * oh
         - ih * ((if truthy (m_nmaster mo) then MIN n nm else n) - 1)) in
  let mw := m_ww mo - 2 * ov in
  let lh := s32 (m_wh mo - 2 * oh - ih * (u32 (n - nm) / 2 - 1)) in
  let rh :=
    s32 (m_wh mo - 2 * oh
         - ih * (u32 (n - nm) / 2 - (if truthy (u32 (n - nm) mod 2) then 0 else 1))) in
  let '(mw, lw, rw, mx, lx, ly, rx, ry) :=
    if truthy (m_nmaster mo) && (n >? nm) then
      let '(mw, lw, rw, mx) :=
        if u32 (n - nm) >? 1 then
          let mw := f2i (mulf (i2f (m_ww mo - 2 * ov - 2 * iv)) (m_mfact mo)) in
          let lw := Z.quot (m_ww mo - mw - 2 * ov - 2 * iv) 2 in
          let rw := (m_ww mo - mw - 2 * ov - 2 * iv) - lw in
          (mw, lw, rw, mx + (lw + iv))
        else
          let mw := f2i (mulf (i2f (mw - iv)) (m_mfact mo)) in
          (mw, 0, m_ww mo - mw - iv - 2 * ov, mx) in
      (mw, lw, rw, mx, m_wx mo + ov, m_wy mo + oh, mx + mw + iv, m_wy mo + oh)
    else (mw, 0, 0, mx, 0, 0, 0, 0) in
  let '(_, mfacts, lfacts, rfacts) :=
    fst (tiled_loop
           (fun '(k, mf, lf, rf) _ g' =>
              (if is_master k then (k + 1, addf mf (i2f 1), lf, rf)
               else if truthy (u32 (k - nm) mod 2) then (k + 1, mf, addf lf (i2f 1), rf)
                    else (k + 1, mf, lf, addf rf (i2f 1)), g'))
           (0, i2f 0, i2f 0, i2f 0) (m_clients mo) g) in
  let '(_, mtotal, ltotal, rtotal) :=
    fst (tiled_loop
           (fun '(k, mt, lt, rt) _ g' =>
              (if is_master k then (k + 1, add_share mt mh mfacts, lt, rt)
               else if truthy (u32 (k - nm) mod 2)
                    then (k + 1, mt, add_share lt lh lfacts, rt)
                    else (k + 1, mt, lt, add_share rt rh rfacts), g'))
           (0, 0, 0, 0) (m_clients mo) g) in
  let mrest := mh - mtotal in
  let lrest := lh - ltotal in
  let rrest := rh - rtotal in
  snd (tiled_loop
         (fun '(i, my, ly, ry) c g =>
            let bw := c_bw (client g c) in
            if is_master i then
              let g := resize c mx my (mw - 2 * bw) (share mh mfacts i mrest bw) 0 g in
              ((i + 1, my + HEIGHT (client g c) + ih, ly, ry), g)
            else if truthy (u32 (i - nm) mod 2) then
              let g :=
                resize c lx ly (lw - 2 * bw)
                       (share lh lfacts (u32 (i - 2 * m_nmaster mo)) (2 * lrest) bw) 0 g in
              ((i + 1, my, ly + HEIGHT (client g c) + ih, ry), g)
            else
              let g :=
                resize c rx ry (rw - 2 * bw)
                       (share rh rfacts (u32 (i - 2 * m_nmaster mo)) (2 * rrest) bw) 0 g in
              ((i + 1, my, ly, ry + HEIGHT (client g c) + ih), g))
         (0, my, ly, ry) (m_clients mo) g).

(** The loop state of fibonacci: [i], the cell [nx ny nw nh], the two rests
    and the flag [r]. *)
Record Fib := {
  f_i : Z; f_nx : Z; f_ny : Z; f_nw : Z; f_nh : Z;
  f_hrest : Z; f_wrest : Z; f_r : bool
}.

Definition fib_step (mo : Monitor) (bh oh ov ih iv n s bw : Z) (f : Fib) : Fib :=
  if negb (f_r f) then f else
  let i := f_i f in
  let odd := truthy (i mod 2) in
  let r :=
    negb ((odd && (Z.quot (f_nh f - ih) 2 <=? bh + 2 * bw))
          || (negb odd && (Z.quot (f_nw f - iv) 2 <=? bh + 2 * bw))) in
  let '(nx, ny, nw, nh, hrest, wrest) :=
    (f_nx f, f_ny f, f_nw f, f_nh f, f_hrest f, f_wrest f) in
  let '(nx, ny, nw, nh, hrest, wrest) :=
    if r && (i <? u32 (n - 1)) then
      let '(nw, nh, hrest, wrest) :=
        if odd then
          let nv := Z.quot (nh - ih) 2 in (nw, nv, nh - 2 * nv - ih, wrest)
        else
          let nv := Z.quot (nw - iv) 2 in (nv, nh, hrest, nw - 2 * nv - iv) in
      if (i mod 4 =? 2) && negb (truthy s) then (nx + (nw + iv), ny, nw, nh, hrest, wrest)
      else if (i mod 4 =? 3) && negb (truthy s)
           then (nx, ny + (nh + ih), nw, nh, hrest, wrest)
           else (nx, ny, nw, nh, hrest, wrest)
    else (nx, ny, nw, nh, hrest, wrest) in
  let '(nx, ny, nw, nh) :=
    if i mod 4 =? 0 then
      if truthy s then (nx, ny + (nh + ih), nw, nh + hrest)
      else let nh := nh - hrest in (nx, ny - (nh + ih), nw, nh)
    else if i mod 4 =? 1 then (nx + (nw + iv), ny, nw + wrest, nh)
    else if i mod 4 =? 2 then
      (nx, ny + (nh + ih), (if i <? u32 (n - 1) then nw + wrest else nw), nh + hrest)
    else
      if truthy s then (nx + (nw + iv), ny, nw - wrest, nh)
      else let nw := nw - wrest in (nx - (nw + iv), ny, nw, nh + hrest) in
  let '(ny, nw, wrest) :=
    if i =? 0 then
      let '(nw, wrest) :=
        if negb (n =? 1) then
          (f2i (subf (i2f (m_ww mo - iv - 2 * ov))
                     (mulf (i2f (m_ww mo - iv - 2 * ov)) (subf (i2f 1) (m_mfact mo)))), 0)
        else (nw, wrest) in
      (m_wy mo + oh, nw, wrest)
    else if i =? 1 then (ny, m_ww mo - nw - iv - 2 * ov, wrest)
    else (ny, nw, wrest) in
  {| f_i := i + 1; f_nx := nx; f_ny := ny; f_nw := nw; f_nh := nh;
     f_hrest := hrest; f_wrest := wrest; f_r := r |}.

Definition fibonacci (m : mid) (s : Z) (g : World) : World :=
  let mo := monitor g m in
  let '(oh, ov, ih, iv, n) := getgaps g m in
  if n =? 0 then g else
  snd (tiled_loop
         (fun f c g =>
            let bw := c_bw (client g c) in
            let f := fib_step mo (g_bh g) oh ov ih iv n s bw f in
            (f, resize c (f_nx f) (f_ny f) (f_nw f - 2 * bw) (f_nh f - 2 * bw) 0 g))
         {| f_i := 0; f_nx := m_wx mo + ov; f_ny := m_wy mo + oh;
            f_nw := m_ww mo - 2 * ov; f_nh := m_wh mo - 2 * oh;
            f_hrest := 0; f_wrest := 0; f_r := true |}
         (m_clients mo) g).

Definition dwindle (m : mid) (g : World) : World := fibonacci m 1 g.

Definition spiral (m : mid) (g : World) : World := fibonacci m 0 g.

(** [for (k = 0; k <= n / 2; k++) if (k * k >= n) break;] run from [k], at most
    [fuel] times: [fuel = n / 2 + 2] rounds always reach the exit. *)
Fixpoint grid_dim (fuel : nat) (k n : Z) : Z :=
  match fuel with
  | O => k
  | S fuel' =>
      if k <=? n / 2 then if k * k >=? n then k else grid_dim fuel' (k + 1) n else k
  end.

Definition grid (m : mid) (g : World) : World :=
  let mo := monitor g m in
  let '(oh, ov, ih, iv, n) := getgaps g m in
  let rows := grid_dim (Z.to_nat (n / 2 + 2)) 0 n in
  let cols := if truthy rows && ((rows - 1) * rows >=? n) then rows - 1 else rows in
  let ch := Z.quot (m_wh mo - 2 * oh - ih * (rows - 1)) (if truthy rows then rows else 1) in
  let cw := Z.quot (m_ww mo - 2 * ov - iv * (cols - 1)) (if truthy cols then cols else 1) in
  let chrest := (m_wh mo - 2 * oh - ih * (rows - 1)) - ch * rows in
  let cwrest := (m_ww mo - 2 * ov - iv * (cols - 1)) - cw * cols in
  snd (tiled_loop
         (fun i c g =>
            let bw := c_bw (client g c) in
            let cc := s32 (i / u32 rows) in
            let cr := s32 (i mod u32 rows) in
            let cx := m_wx mo + ov + cc * (cw + iv) + MIN cc cwrest in
            let cy := m_wy mo + oh + cr * (ch + ih) + MIN cr chrest in
            (i + 1,
             resize c cx cy (cw + b2z (cc <? cwrest) - 2 * bw)
                    (ch + b2z (cr <? chrest) - 2 * bw) 0 g))
         0 (m_clients mo) g).

Definition horizgrid (m : mid) (g : World) : World :=
  let mo := monitor g m in
  let '(oh, ov, ih, iv, n) := getgaps g m in
  if n =? 0 then g else
  let '(ntop, nbottom) := if n <=? 2 then (s32 n, 1) else (s32 (n / 2), s32 (n - s32 (n / 2))) in
  let mx := m_wx mo + ov in
  let my := m_wy mo + oh in
  let mh := m_wh mo - 2 * oh in
  let mw := m_ww mo - 2 * ov in
  let '(sh, mh, sy, mw, sw) :=
    if n >? u32 ntop then
      let sh := Z.quot (mh - ih) 2 in
      let mh := mh - ih - sh in
      (sh, mh, my + mh + ih,
       m_ww mo - 2 * ov - iv * (ntop - 1), m_ww mo - 2 * ov - iv * (nbottom - 1))
    else (mh, mh, my, mw, mw) in
  let mfacts := i2f ntop in
  let sfacts := i2f nbottom in
  let mrest := mw - Z.quot mw ntop * ntop in
  let srest := sw - Z.quot sw nbottom * nbottom in
  snd (tiled_loop
         (fun '(i, mx, sx) c g =>
            let bw := c_bw (client g c) in
            if i <? u32 ntop then
              let g := resize c mx my (share mw mfacts i mrest bw) (mh - 2 * bw) 0 g in
              ((i + 1, mx + WIDTH (client g c) + iv, sx), g)
            else
              let g :=
                resize c sx sy (share sw sfacts (u32 (i - ntop)) srest bw) (sh - 2 * bw) 0 g in
              ((i + 1, mx, sx + WIDTH (client g c) + iv), g))
         (0, mx, mx) (m_clients mo) g).

Definition gaplessgrid (m : mid) (g : World) : World :=
  let mo := monitor g m in
  let '(oh, ov, ih, iv, n) := getgaps g m in
  if n =? 0 then g else
  let cols := grid_dim (Z.to_nat (n / 2 + 2)) 0 n in
  let cols := if n =? 5 then 2 else cols in
  let rows := s32 (n / u32 cols) in
  let height (rows : Z) := m_wh mo - 2 * oh - ih * (rows - 1) in
  let ch := Z.quot (height rows) rows in
  let cw := Z.quot (m_ww mo - 2 * ov - iv * (cols - 1)) cols in
  let rrest := height rows - ch * rows in
  let crest := (m_ww mo - 2 * ov - iv * (cols - 1)) - cw * cols in
  snd (tiled_loop
         (fun '(i, x, cn, rn, rows, ch, rrest) c g =>
            let bw := c_bw (client g c) in
            let '(rows, ch, rrest) :=
              if u32 (i / u32 rows + 1) >? u32 (cols - n mod u32 cols) then
                let rows := s32 (n / u32 cols + 1) in
                let ch := Z.quot (height rows) rows in
                (rows, ch, height rows - ch * rows)
              else (rows, ch, rrest) in
            let g :=
              resize c x (m_wy mo + oh + rn * (ch + ih) + MIN rn rrest)
                     (cw + b2z (cn <? crest) - 2 * bw)
                     (ch + b2z (rn <? rrest) - 2 * bw) 0 g in
            let rn := rn + 1 in
            if rn >=? rows
            then ((i + 1, x + (cw + ih + b2z (cn <? crest)), cn + 1, 0, rows, ch, rrest), g)
            else ((i + 1, x, cn, rn, rows, ch, rrest), g))
         (0, m_wx mo + ov, 0, 0, rows, ch, rrest) (m_clients mo) g).

(** ** Showing, arranging, restacking *)

Fixpoint showhide (l : list cid) (g : World) : World :=
  match l with
  | [] => g
  | c :: rest =>
      if ISVISIBLE g c then
        let cl := client g c in
        let g := xreq (XMoveWindow (c_win cl) (c_x cl) (c_y cl)) g in
        let g :=
          if (negb (has_arrange (monitor g (c_mon cl))) || truthy (c_isfloating cl))
             && negb (truthy (c_isfullscreen cl))
          then resize c (c_x cl) (c_y cl) (c_w cl) (c_h cl) 0 g
          else g in
        showhide rest g
      else
        let g := showhide rest g in
        let cl := client g c in
        xreq (XMoveWindow (c_win cl) (WIDTH cl * -2) (c_y cl)) g
  end.

Definition updatebarpos (m : mid) (g : World) : World :=
  let mo := monitor g m in
  let bh := g_bh g in
  let th := g_th g in
  let wy := m_my mo in
  let wh := m_mh mo in
  let '(wy, wh, by_) :=
    if truthy (m_showbar mo) then
      let wh := wh - bh in
      let by_ := if truthy (m_topbar mo) then wy else wy + wh in
      ((if truthy (m_topbar mo) then wy + bh else wy), wh, by_)
    else (wy, wh, - bh) in
  let nvis := count_visible g (m_clients mo) in
  let '(wy, wh, ty) :=
    if (nvis >? 1) && arrange_is LtMonocle mo then
      let wh := wh - th in
      let ty := if truthy (m_toptab mo) then wy else wy + wh in
      ((if truthy (m_toptab mo) then wy + th else wy), wh, ty)
    else (wy, wh, - th) in
  with_monitor m (set_m_bar by_ ty wy wh) g.

Definition run_layout (f : ArrangeFn) (m : mid) (g : World) : World :=
  match f with
  | LtCenteredmaster => centeredmaster m g
  | LtMonocle => monocle m g
  | LtTile => tile m g
  | LtDeck => deck m g
  | LtDwindle => dwindle m g
  | LtSpiral => spiral m g
  | LtGrid => grid m g
  | LtHorizgrid => horizgrid m g
  | LtGaplessgrid => gaplessgrid m g
  | LtBstack => bstack m g
  | LtBstackhoriz => bstackhoriz m g
  | LtCenteredfloatingmaster => centeredfloatingmaster m g
  end.

Definition arrangemon (m : mid) (g : World) : World :=
  let g := updatebarpos m g in
  let mo := monitor g m in
  let g := xreq (XMoveResizeWindow (m_tabwin mo) (m_wx mo) (m_ty mo) (m_ww mo) (g_th g)) g in
  let g := with_monitor m (set_m_ltsymbol (strncpy16 (l_symbol (sel_layout mo)))) g in
  match l_arrange (sel_layout (monitor g m)) with
  | Some f => run_layout f m g
  | None => g
  end.

Definition drawbar (m : mid) (g : World) : World := xreq (DrawBar m) g.
Definition drawtab (m : mid) (g : World) : World := xreq (DrawTab m) g.

Definition drawbars (g : World) : World := fold_left (fun g m => drawbar m g) (g_mons g) g.
Definition drawtabs (g : World) : World := fold_left (fun g m => drawtab m g) (g_mons g) g.

(** The loop of restack: every tiled visible client is put below [sibling]. *)
Fixpoint restack_below (sibling : Window) (l : list cid) (g : World) : World :=
  match l with
  | [] => g
  | c :: rest =>
      let cl := client g c in
      if negb (truthy (c_isfloating cl)) && ISVISIBLE g c
      then restack_below (c_win cl) rest (xreq (XRestackBelow (c_win cl) sibling) g)
      else restack_below sibling rest g
  end.

Definition restack (m : mid) (g : World) : World :=
  let g := drawbar m g in
  let g := drawtab m g in
  let mo := monitor g m in
  match m_sel mo with
  | None => g
  | Some s =>
      let g :=
        if truthy (c_isfloating (client g s)) || negb (has_arrange mo)
        then xreq (XRaiseWindow (c_win (client g s))) g
        else g in
      let g := if has_arrange mo then restack_below (m_barwin mo) (m_stack mo) g else g in
      xreq XDrainEnterEvents (xreq XSync g)
  end.

(** [arrange (Some m)] is [arrange(m)], [arrange None] is [arrange(NULL)]. *)
Definition arrange (m : option mid) (g : World) : World :=
  match m with
  | Some m =>
      let g := showhide (m_stack (monitor g m)) g in
      let g := arrangemon m g in
      restack m g
  | None =>
      let g := fold_left (fun g m => showhide (m_stack (monitor g m)) g) (g_mons g) g in
      fold_left (fun g m => arrangemon m g) (g_mons g) g
  end.

Definition setgaps (oh ov ih iv : Z) (g : World) : World :=
  let oh := if oh <? 0 then 0 else oh in
  let ov := if ov <? 0 then 0 else ov in
  let ih := if ih <? 0 then 0 else ih in
  let iv := if iv <? 0 then 0 else iv in
  let g := with_monitor (g_selmon g) (set_m_gaps ih iv oh ov) g in
  arrange (Some (g_selmon g)) g.

Definition gaps (i : Z) (g : World) : World :=
  let mo := monitor g (g_selmon g) in
  setgaps (m_gappoh mo + i) (m_gappov mo + i) (m_gappih mo + i) (m_gappiv mo + i) g.

(** ** Chains of a monitor, focus *)

Definition attach (c : cid) (g : World) : World :=
  with_monitor (c_mon (client g c)) (fun mo => set_m_clients (c :: m_clients mo) mo) g.

Definition attachstack (c : cid) (g : World) : World :=
  with_monitor (c_mon (client g c)) (fun mo => set_m_stack (c :: m_stack mo) mo) g.

Definition detach (c : cid) (g : World) : World :=
  with_monitor (c_mon (client g c)) (fun mo => set_m_clients (unlink c (m_clients mo)) mo) g.

Definition same_client (a : option cid) (c : cid) : bool :=
  match a with Some d => Nat.eqb d c | None => false end.

Definition detachstack (c : cid) (g : World) : World :=
  let m := c_mon (client g c) in
  let g := with_monitor m (fun mo => set_m_stack (unlink c (m_stack mo)) mo) g in
  if same_client (m_sel (monitor g m)) c
  then with_monitor m (set_m_sel (first_visible g (m_stack (monitor g m)))) g
  else g.

Definition grabbuttons (c : cid) (focused : Z) (g : World) : World :=
  xreq (XGrabButtons (c_win (client g c)) focused) g.

Definition unfocus (c : option cid) (setfocus : Z) (g : World) : World :=
  match c with
  | None => g
  | Some c =>
      let g := grabbuttons c 0 g in
      let g := xreq (XSetWindowBorder (c_win (client g c)) SchemeNorm) g in
      if truthy setfocus
      then xreq (XSetActiveWindow None) (xreq (XSetInputFocus None) g)
      else g
  end.

Definition seturgent (c : cid) (urg : Z) (g : World) : World :=
  let g := with_client c (set_c_isurgent urg) g in
  xreq (XSetUrgencyHint (c_win (client g c)) urg) g.

Definition sendevent_takefocus (c : cid) (g : World) : World :=
  xreq (XSendProtocol (c_win (client g c)) true) g.

Definition setfocus (c : cid) (g : World) : World :=
  let cl := client g c in
  let g :=
    if negb (truthy (c_neverfocus cl))
    then xreq (XSetActiveWindow (Some (c_win cl))) (xreq (XSetInputFocus (Some (c_win cl))) g)
    else g in
  sendevent_takefocus c g.

Definition focus (c : option cid) (g : World) : World :=
  let c :=
    match c with
    | Some c' =>
        if ISVISIBLE g c' then Some c'
        else first_visible g (m_stack (monitor g (g_selmon g)))
    | None => first_visible g (m_stack (monitor g (g_selmon g)))
    end in
  let sel := m_sel (monitor g (g_selmon g)) in
  let g :=
    match sel, c with
    | Some s, Some c' => if Nat.eqb s c' then g else unfocus sel 0 g
    | Some s, None => unfocus sel 0 g
    | None, _ => g
    end in
  let g :=
    match c with
    | Some c' =>
        let g :=
          if negb (Nat.eqb (c_mon (client g c')) (g_selmon g))
          then set_g_selmon (c_mon (client g c')) g else g in
        let g := if truthy (c_isurgent (client g c')) then seturgent c' 0 g else g in
        let g := detachstack c' g in
        let g := attachstack c' g in
        let g := grabbuttons c' 1 g in
        let g := xreq (XSetWindowBorder (c_win (client g c')) SchemeSel) g in
        setfocus c' g
    | None => xreq (XSetActiveWindow None) (xreq (XSetInputFocus None) g)
    end in
  let g := with_monitor (g_selmon g) (set_m_sel c) g in
  drawtabs (drawbars g).

(** ** Window state, titles, the client list *)

Definition setclientstate (c : cid) (state : Z) (g : World) : World :=
  xreq (XSetWMState (c_win (client g c)) state) g.

Definition broken : string := "broken".

(** [g_xtitle g win] is the text the two gettextprop calls leave in [c->name]. *)
Definition updatetitle (c : cid) (g : World) : World :=
  let t := g_xtitle g (c_win (client g c)) in
  with_client c (set_c_name (if String.eqb t EmptyString then broken else t)) g.

Definition updateclientlist (g : World) : World :=
  xreq (XSetClientList
          (flat_map (fun m => map (fun c => c_win (client g c)) (m_clients (monitor g m)))
                    (g_mons g))) g.

Definition setfullscreen (c : cid) (fullscreen : Z) (g : World) : World :=
  let cl := client g c in
  if truthy fullscreen && negb (truthy (c_isfullscreen cl)) then
    let g := xreq (XSetNetWMState (c_win cl) true) g in
    let g := with_client c (fun cl =>
               set_c_isfloating 1 (set_c_bw 0 (set_c_oldbw (c_bw cl)
                 (set_c_oldstate (c_isfloating cl) (set_c_isfullscreen 1 cl))))) g in
    let mo := monitor g (c_mon (client g c)) in
    let g := resizeclient c (m_mx mo) (m_my mo) (m_mw mo) (m_mh mo) g in
    xreq (XRaiseWindow (c_win (client g c))) g
  else if negb (truthy fullscreen) && truthy (c_isfullscreen cl) then
    let g := xreq (XSetNetWMState (c_win cl) false) g in
    let g := with_client c (fun cl =>
               set_c_geom (c_oldx cl) (c_oldy cl) (c_oldw cl) (c_oldh cl)
                 (set_c_bw (c_oldbw cl) (set_c_isfloating (c_oldstate cl)
                   (set_c_isfullscreen 0 cl)))) g in
    let cl := client g c in
    let g := resizeclient c (c_x cl) (c_y cl) (c_w cl) (c_h cl) g in
    arrange (Some (c_mon (client g c))) g
  else g.

(** ** Swallowing *)

Definition swallow (p c : cid) (g : World) : World :=
  if truthy (c_noswallow (client g c)) || truthy (c_isterminal (client g c)) then g else
  if truthy (c_noswallow (client g c)) && negb (truthy 1)
     && truthy (c_isfloating (client g c)) then g else
  let g := detach c g in
  let g := detachstack c g in
  let g := setclientstate c WithdrawnState g in
  let g := xreq (XUnmapWindow (c_win (client g p))) g in
  let g := with_client p (set_c_swallowing (Some c)) g in
  let g := with_client c (set_c_mon (c_mon (client g p))) g in
  let w := c_win (client g p) in
  let g := with_client p (set_c_win (c_win (client g c))) g in
  let g := with_client c (set_c_win w) g in
  let g := updatetitle p g in
  let pl := client g p in
  let g := xreq (XMoveResizeWindow (c_win pl) (c_x pl) (c_y pl) (c_w pl) (c_h pl)) g in
  let g := arrange (Some (c_mon (client g p))) g in
  let g := configure p g in
  updateclientlist g.

(** The first half of unswallow, up to the first [arrange(c->mon)]: the window
    handle is taken back from the snapshot [s], the snapshot is dropped (free
    leaves the heap of the model as it is), fullscreen is left. *)
Definition unswallow_restore (c s : cid) (g : World) : World :=
  let g := with_client c (set_c_win (c_win (client g s))) g in
  let g := with_client c (set_c_swallowing None) g in
  let g := setfullscreen c 0 g in
  let g := updatetitle c g in
  arrange (Some (c_mon (client g c))) g.

(** The second half: map, move and resize, NormalState, focus, arrange. *)
Definition unswallow_show (c : cid) (g : World) : World :=
  let cl := client g c in
  let g := xreq (XMapWindow (c_win cl)) g in
  let g := xreq (XMoveResizeWindow (c_win cl) (c_x cl) (c_y cl) (c_w cl) (c_h cl)) g in
  let g := setclientstate c NormalState g in
  let g := focus None g in
  arrange (Some (c_mon (client g c))) g.

(** unswallow is called on a client that swallows (unmanage tests
    [c->swallowing]); with a NULL snapshot the C code has no defined
    behaviour and the model leaves the world as it is. *)
Definition unswallow (c : cid) (g : World) : World :=
  match c_swallowing (client g c) with
  | None => g
  | Some s => unswallow_show c (unswallow_restore c s g)
  end.

(** ** Tags and views *)

Definition togglebar (g : World) : World :=
  let m := g_selmon g in
  let v := b2z (negb (truthy (m_showbar (monitor g m)))) in
  let g := with_monitor m (fun mo =>
             set_m_showbar v
               (set_m_pertag
                  (set_pt_showbars
                     (aset (pt_showbars (m_pertag mo)) (pt_curtag (m_pertag mo)) v)
                     (m_pertag mo)) mo)) g in
  let g := updatebarpos m g in
  let mo := monitor g m in
  let g := xreq (XMoveResizeWindow (m_barwin mo) (m_wx mo) (m_by mo) (m_ww mo) (g_bh g)) g in
  arrange (Some m) g.

(** [for (i = from; !(ui & 1 << i); i++);], cut after [fuel] rounds. *)
Fixpoint lowbit_from (fuel : nat) (i ui : Z) : Z :=
  match fuel with
  | O => i
  | S fuel' =>
      if truthy (Z.land ui (Z.shiftl 1 i)) then i else lowbit_from fuel' (i + 1) ui
  end.

Definition lowbit (ui : Z) : Z := lowbit_from 32 0 ui.

(** The settings of the current tag are copied into the monitor (view and
    toggleview share these lines). *)
Definition apply_pertag (mo : Monitor) : Monitor :=
  let pt := m_pertag mo in
  let cur := pt_curtag pt in
  let mo := set_m_nmaster (aget 0 (pt_nmasters pt) cur) mo in
  let mo := set_m_mfact (aget (FFin 0) (pt_mfacts pt) cur) mo in
  let mo := set_m_sellt (aget 0 (pt_sellts pt) cur) mo in
  let pair := aget (m_lt0 mo, m_lt1 mo) (pt_ltidxs pt) cur in
  let mo := set_m_lt (m_sellt mo) (idx2 (m_sellt mo) (fst pair) (snd pair)) mo in
  set_m_lt (Z.lxor (m_sellt mo) 1)
           (idx2 (Z.lxor (m_sellt mo) 1) (fst pair) (snd pair)) mo.

Definition view (ui : Z) (g : World) : World :=
  let m := g_selmon g in
  if Z.land ui TAGMASK =? sel_tagset (monitor g m) then g else
  let g := with_monitor m (fun mo => set_m_seltags (Z.lxor (m_seltags mo) 1) mo) g in
  let g :=
    if truthy (Z.land ui TAGMASK) then
      with_monitor m (fun mo =>
        let mo := set_m_tagset (m_seltags mo) (Z.land ui TAGMASK) mo in
        let pt := set_pt_prevtag (pt_curtag (m_pertag mo)) (m_pertag mo) in
        let pt :=
          if ui =? 2 ^ 32 - 1 then set_pt_curtag 0 pt
          else set_pt_curtag (lowbit ui + 1) pt in
        set_m_pertag pt mo) g
    else
      with_monitor m (fun mo =>
        let pt := m_pertag mo in
        let tmptag := pt_prevtag pt in
        set_m_pertag (set_pt_curtag tmptag (set_pt_prevtag (pt_curtag pt) pt)) mo) g in
  let g := with_monitor m apply_pertag g in
  let mo := monitor g m in
  let g :=
    if negb (m_showbar mo =? aget 0 (pt_showbars (m_pertag mo)) (pt_curtag (m_pertag mo)))
    then togglebar g else g in
  let g := focus None g in
  arrange (Some (g_selmon g)) g.

Definition tag (ui : Z) (g : World) : World :=
  match m_sel (monitor g (g_selmon g)) with
  | Some s =>
      if truthy (Z.land ui TAGMASK) then
        let g := with_client s (set_c_tags (Z.land ui TAGMASK)) g in
        let g := focus None g in
        arrange (Some (g_selmon g)) g
      else g
  | None => g
  end.

Definition toggletag (ui : Z) (g : World) : World :=
  match m_sel (monitor g (g_selmon g)) with
  | None => g
  | Some s =>
      let newtags := Z.lxor (c_tags (client g s)) (Z.land ui TAGMASK) in
      if truthy newtags then
        let g := with_client s (set_c_tags newtags) g in
        let g := focus None g in
        arrange (Some (g_selmon g)) g
      else g
  end.

Definition sendmon (c : cid) (m : mid) (g : World) : World :=
  if Nat.eqb (c_mon (client g c)) m then g else
  let g := unfocus (Some c) 1 g in
  let g := detach c g in
  let g := detachstack c g in
  let g := with_client c (set_c_mon m) g in
  let g := with_client c (set_c_tags (sel_tagset (monitor g m))) g in
  let g := attach c g in
  let g := attachstack c g in
  let g := focus None g in
  arrange None g.

(** ** Rules *)

(** [strstr(hay, needle) != NULL]. *)
Definition strstr (hay needle : string) : bool :=
  match index 0 needle hay with Some _ => true | None => false end.

Definition rule_matches (name class instance : string) (r : Rule) : bool :=
  match r_title r with None => true | Some t => strstr name t end
  && match r_class r with None => true | Some k => strstr class k end
  && match r_instance r with None => true | Some i => strstr instance i end.

(** [for (m = mons; m && m->num != r->monitor; m = m->next);] *)
Fixpoint find_monitor (g : World) (num : Z) (l : list mid) : option mid :=
  match l with
  | [] => None
  | m :: rest => if m_num (monitor g m) =? num then Some m else find_monitor g num rest
  end.

Definition apply_rule (c : cid) (class instance : string) (g : World) (r : Rule) : World :=
  if rule_matches (c_name (client g c)) class instance r then
    let g := with_client c (fun cl =>
               set_c_tags (Z.lor (c_tags cl) (r_tags r))
                 (set_c_isfloating (r_isfloating r)
                    (set_c_noswallow (r_noswallow r)
                       (set_c_isterminal (r_isterminal r) cl)))) g in
    match find_monitor g (r_monitor r) (g_mons g) with
    | Some m => with_client c (set_c_mon m) g
    | None => g
    end
  else g.

(** applyrules over a rule table; config.h supplies [rules]. *)
Definition applyrules_with (rs : list Rule) (c : cid) (g : World) : World :=
  let g := with_client c (fun cl => set_c_tags 0 (set_c_isfloating 0 cl)) g in
  let hint := g_xclass g (c_win (client g c)) in
  let class := match fst hint with Some s => s | None => broken end in
  let instance := match snd hint with Some s => s | None => broken end in
  let g := fold_left (apply_rule c class instance) rs g in
  with_client c (fun cl =>
    set_c_tags
      (if truthy (Z.land (c_tags cl) TAGMASK) then Z.land (c_tags cl) TAGMASK
       else sel_tagset (monitor g (c_mon cl))) cl) g.

Definition applyrules (c : cid) (g : World) : World := applyrules_with rules c g.

(** ** organizetags *)

(** [ffs] of the C library: the position of the lowest set bit, counted from
    1, and 0 when no bit is set. *)
Definition ffs (x : Z) : Z := if x =? 0 then 0 else lowbit x + 1.

(** [while (unocc < i && (occ & (1 << unocc))) unocc++;] *)
Fixpoint skip_occupied (fuel : nat) (unocc i occ : Z) : Z :=
  match fuel with
  | O => unocc
  | S fuel' =>
      if (unocc <? i) && truthy (Z.land occ (Z.shiftl 1 unocc))
      then skip_occupied fuel' (unocc + 1) i occ
      else unocc
  end.

(** One round of the loop over [i]; the state is [(occ, unocc, tagdest)]. *)
Definition organize_step (st : Z * Z * list Z) (i : Z) : Z * Z * list Z :=
  let '(occ, unocc, tagdest) := st in
  let unocc := skip_occupied (Z.to_nat i) unocc i occ in
  if truthy (Z.land occ (Z.shiftl 1 i)) then
    (Z.lor (Z.land occ (Z.lnot (Z.shiftl 1 i))) (Z.shiftl 1 unocc), unocc,
     aset tagdest i unocc)
  else (occ, unocc, tagdest).

Definition tag_indices : list Z := map Z.of_nat (seq 0 (List.length tags)).

(** The occupied tags: the lowest tag of every client of the chain. *)
Definition occupied (g : World) (l : list cid) : Z :=
  fold_left (fun occ c => Z.lor occ (Z.shiftl 1 (ffs (c_tags (client g c)) - 1))) l 0.

(** [tagdest] after the loop; entries never written are 0 in the model (they
    are uninitialised in C and never read for a client with a valid tag). *)
Definition tagdest_of (occ : Z) : list Z :=
  snd (fold_left organize_step tag_indices (occ, 0, repeat 0 (List.length tags))).

Definition organizetags (g : World) : World :=
  let m := g_selmon g in
  let l := m_clients (monitor g m) in
  let tagdest := tagdest_of (occupied g l) in
  let g :=
    fold_left
      (fun g c =>
         with_client c (fun cl =>
           set_c_tags (Z.shiftl 1 (aget 0 tagdest (ffs (c_tags cl) - 1))) cl) g)
      l g in
  let g :=
    match m_sel (monitor g m) with
    | Some s => with_monitor m (fun mo => set_m_tagset (m_seltags mo) (c_tags (client g s)) mo) g
    | None => g
    end in
  arrange (Some m) g.

(** ** setmfact, togglefloating *)

(** [arg] is the [.f] member of the argument; [None] is a NULL [arg].  The
    test [arg->f < 1.0] and the difference [arg->f - 1.0] are formed in
    [double], the sum [arg->f + selmon->mfact] in [float]; the assignment to
    [f] converts to [float], and [f < 0.1 || f > 0.9] compares [f] with the
    [double] constants. *)
Definition setmfact (arg : option cfloat) (g : World) : World :=
  let m := g_selmon g in
  match arg with
  | None => g
  | Some af =>
      if negb (has_arrange (monitor g m)) then g else
      let f :=
        d2f (if flt af (dlit 1) then addf af (m_mfact (monitor g m))
             else subd af (dlit 1)) in
      if flt f (dlit (1 # 10)) || fgt f (dlit (9 # 10)) then g else
      let g := with_monitor m (fun mo =>
                 set_m_mfact f
                   (set_m_pertag
                      (set_pt_mfacts
                         (aset (pt_mfacts (m_pertag mo)) (pt_curtag (m_pertag mo)) f)
                         (m_pertag mo)) mo)) g in
      arrange (Some m) g
  end.

Definition togglefloating (g : World) : World :=
  match m_sel (monitor g (g_selmon g)) with
  | None => g
  | Some s =>
      if truthy (c_isfullscreen (client g s)) then g else
      let g := with_client s (fun cl =>
                 set_c_isfloating
                   (b2z (negb (truthy (c_isfloating cl)) || truthy (c_isfixed cl))) cl) g in
      let cl := client g s in
      let g :=
        if truthy (c_isfloating cl)
        then resize s (c_x cl) (c_y cl) (c_w cl) (c_h cl) 0 g else g in
      arrange (Some (g_selmon g)) g
  end.

(** ** createmon, and the zeroed structs of ecalloc *)

Definition mfact : cfloat := flit (56 # 100).
Definition nmaster : Z := 1.

Definition layout_at (i : nat) : Layout :=
  nth i layouts {| l_symbol := EmptyString; l_arrange := None |}.

Definition createmon : Monitor :=
  let lt0 := layout_at 0 in
  let lt1 := layout_at 1 in
  let slots := S (List.length tags) in
  {| m_ltsymbol := strncpy16 (l_symbol lt0);
     m_mfact := mfact; m_nmaster := nmaster; m_num := 0;
     m_by := 0; m_ty := 0;
     m_mx := 0; m_my := 0; m_mw := 0; m_mh := 0;
     m_wx := 0; m_wy := 0; m_ww := 0; m_wh := 0;
     m_gappih := 10; m_gappiv := 10; m_gappoh := 10; m_gappov := 10;
     m_seltags := 0; m_sellt := 0;
     m_tagset0 := 1; m_tagset1 := 1;
     m_showbar := 1; m_showtab := 1; m_topbar := 1; m_toptab := 0;
     m_clients := []; m_sel := None; m_stack := [];
     m_barwin := 0; m_tabwin := 0;
     m_lt0 := lt0; m_lt1 := lt1;
     m_pertag :=
       {| pt_curtag := 1; pt_prevtag := 1;
          pt_nmasters := repeat nmaster slots;
          pt_mfacts := repeat mfact slots;
          pt_sellts := repeat 0 slots;
          pt_ltidxs := repeat (lt0, lt1) slots;
          pt_showbars := repeat 1 slots |} |}.

Definition zero_client : Client :=
  {| c_name := EmptyString; c_mina := FFin 0; c_maxa := FFin 0;
     c_x := 0; c_y := 0; c_w := 0; c_h := 0;
     c_oldx := 0; c_oldy := 0; c_oldw := 0; c_oldh := 0;
     c_basew := 0; c_baseh := 0; c_incw := 0; c_inch := 0;
     c_maxw := 0; c_maxh := 0; c_minw := 0; c_minh := 0;
     c_bw := 0; c_oldbw := 0; c_tags := 0;
     c_isfixed := 0; c_isfloating := 0; c_isurgent := 0; c_neverfocus := 0;
     c_oldstate := 0; c_isfullscreen := 0; c_isterminal := 0; c_noswallow := 0;
     c_pid := 0; c_swallowing := None; c_mon := O; c_win := 0 |}.

(** ** Sample states

    One 1920x1080 monitor with a 20 pixel bar on top, as updatebarpos leaves
    it, showing tag 1 in the layout [layouts[lt]]; three clients with border
    2 on its chain, the first one selected. *)

Definition sample_monitor (lt : nat) (chain : list cid) : Monitor :=
  {| m_ltsymbol := strncpy16 (l_symbol (layout_at lt));
     m_mfact := mfact; m_nmaster := nmaster; m_num := 0;
     m_by := 0; m_ty := -20;
     m_mx := 0; m_my := 0; m_mw := 1920; m_mh := 1080;
     m_wx := 0; m_wy := 20; m_ww := 1920; m_wh := 1060;
     m_gappih := 10; m_gappiv := 10; m_gappoh := 10; m_gappov := 10;
     m_seltags := 0; m_sellt := 0;
     m_tagset0 := 1; m_tagset1 := 1;
     m_showbar := 1; m_showtab := 1; m_topbar := 1; m_toptab := 0;
     m_clients := chain; m_sel := hd_error chain; m_stack := chain;
     m_barwin := 900; m_tabwin := 901;
     m_lt0 := layout_at lt; m_lt1 := layout_at 1;
     m_pertag := m_pertag createmon |}.

Definition sample_client (win : Window) (tagmask : Z) : Client :=
  set_c_win win
    (set_c_tags tagmask (set_c_bw 2 (set_c_geom 100 100 300 200 zero_client))).

Definition sample_world (lt : nat) (chain : list cid) (tagmask : Z) : World :=
  {| g_clients := fun c => sample_client (100 + Z.of_nat c) tagmask;
     g_monitors := fun _ => sample_monitor lt chain;
     g_mons := [O]; g_selmon := O;
     g_bh := 20; g_th := 20; g_sw := 1920; g_sh := 1080;
     g_enablegaps := 1;
     g_xtitle := fun _ => "xterm"%string;
     g_xclass := fun _ => (Some "xterm"%string, Some "XTerm"%string);
     g_xlog := [] |}.

(** * The vocabulary of the statements *)

(** Requests that neither map nor unmap a window nor write its WM_STATE. *)
Definition benign (r : XReq) : Prop :=
  match r with
  | XMapWindow _ | XUnmapWindow _ | XSetWMState _ _ => False
  | _ => True
  end.

(** The fields of a client outside its rectangles, and the fields of a
    monitor outside its bar geometry and layout symbol. *)
Definition nogeom (c : Client) : Client := set_c_geom 0 0 0 0 (set_c_old 0 0 0 0 c).
Definition nobar (m : Monitor) : Monitor :=
  set_m_bar 0 0 0 0 (set_m_ltsymbol EmptyString m).

(** The fields that neither arranging nor focusing nor the fullscreen toggle
    nor a title update touches. *)
Definition cstable (c : Client) : Client :=
  set_c_name EmptyString
    (set_c_isurgent 0
       (set_c_isfullscreen 0
          (set_c_isfloating 0
             (set_c_bw 0 (set_c_oldbw 0 (set_c_oldstate 0 (nogeom c))))))).

Definition mstable (m : Monitor) : Monitor :=
  set_m_sel None
    (set_m_stack []
       (set_m_showbar 0
          (set_m_pertag (set_pt_showbars [] (m_pertag m)) (nobar m)))).

(** [frame pc pm P ks g g']: from [g] to [g'] clients changed only outside
    [pc] and only where [P] holds, monitors only outside [pm], the selected
    monitor only if [ks] is off, and the log grew by benign requests. *)
Record frame (pc : Client -> Client) (pm : Monitor -> Monitor) (P : cid -> Prop)
       (ks : bool) (g g' : World) : Prop := {
  fr_client : forall c, pc (client g' c) = pc (client g c);
  fr_other : forall c, ~ P c -> client g' c = client g c;
  fr_monitor : forall m, pm (monitor g' m) = pm (monitor g m);
  fr_mons : g_mons g' = g_mons g;
  fr_selmon : ks = true -> g_selmon g' = g_selmon g;
  fr_env : g_bh g' = g_bh g /\ g_th g' = g_th g;
  fr_log : exists l, g_xlog g' = g_xlog g ++ l /\ Forall benign l
}.

(** Arranging changes rectangles, bar geometry and the layout symbol. *)
Abbreviation arrP P := (frame nogeom nobar P true).

(** Everything else that the operations below run through. *)
Abbreviation evolves := (frame cstable mstable (fun _ : cid => True) false).

(** The clients a layout of the chain [l0] may resize, seen from [g0]. *)
Definition tiled_in (g0 : World) (l0 : list cid) (c : cid) : Prop :=
  untiled g0 c = false /\ In c l0.

(** The clients shown in [g0]. *)
Definition shown (g0 : World) (c : cid) : Prop := ISVISIBLE g0 c = true.

(** The number that a value of the Standard Library's specification of
    IEEE 754 arithmetic ([SpecFloat]) stands for, and the integer [z] as a
    value of that specification. *)
Definition of_spec (s : spec_float) : cfloat :=
  match s with
  | S754_zero _ => FFin 0
  | S754_infinity neg => FInf neg
  | S754_nan => FNaN
  | S754_finite neg sig e =>
      FFin (Qred (inject_Z (if neg then Z.neg sig else Z.pos sig) * pow2 e))
  end.

Definition spec32 (z : Z) : spec_float := binary_normalize 24 128 z 0 false.
Definition spec64 (z : Z) : spec_float := binary_normalize 53 1024 z 0 false.

(** A floating client with the aspect ratio 1 and the base height 20. *)
Definition hinted_client : Client :=
  {| c_name := EmptyString; c_mina := FFin 1; c_maxa := FFin 1;
     c_x := 100; c_y := 100; c_w := 300; c_h := 200;
     c_oldx := 0; c_oldy := 0; c_oldw := 0; c_oldh := 0;
     c_basew := 0; c_baseh := 20; c_incw := 0; c_inch := 0;
     c_maxw := 0; c_maxh := 0; c_minw := 0; c_minh := 0;
     c_bw := 2; c_oldbw := 0; c_tags := 1;
     c_isfixed := 0; c_isfloating := 1; c_isurgent := 0; c_neverfocus := 0;
     c_oldstate := 0; c_isfullscreen := 0; c_isterminal := 0; c_noswallow := 0;
     c_pid := 0; c_swallowing := None; c_mon := O; c_win := 101 |}.

(** The candidate factor: the sum with the current factor, formed in
    [float], for an argument below 1.0, and the argument less 1.0, formed in
    [double], otherwise; converted to [float]. *)
Definition mfact_candidate (af : cfloat) (mo : Monitor) : cfloat :=
  d2f (if flt af (dlit 1) then addf af (m_mfact mo) else subd af (dlit 1)).

(** The interval [0.1, 0.9] of the real numbers. *)
Definition mfact_in_range (f : cfloat) : Prop :=
  match f with
  | FFin q => ((1 # 10) <= q /\ q <= (9 # 10))%Q
  | _ => False
  end.

(** A tag mask has a bit set under TAGMASK and no bit outside it. *)
Definition valid_tags (t : Z) : Prop := Z.land t TAGMASK <> 0 /\ Z.land t TAGMASK = t.

(** The operations that write [c->tags]. *)
Inductive TagOp :=
| OpApplyrules (rs : list Rule) (c : cid)
| OpTag (ui : Z)
| OpToggletag (ui : Z)
| OpSendmon (c : cid) (m : mid)
| OpOrganizetags.

Definition run_tagop (op : TagOp) (g : World) : World :=
  match op with
  | OpApplyrules rs c => applyrules_with rs c g
  | OpTag ui => tag ui g
  | OpToggletag ui => toggletag ui g
  | OpSendmon c m => sendmon c m g
  | OpOrganizetags => organizetags g
  end.

Definition tag_index (k : Z) : Prop := 0 <= k < 25.

Definition rule_tagless (r : Rule) : bool := Z.land (r_tags r) TAGMASK =? 0.

(** The map state and the WM_STATE of a window after the requests of a log. *)
Definition x_mapped (log : list XReq) (win : Window) (before : bool) : bool :=
  fold_left
    (fun st r =>
       match r with
       | XMapWindow w => if w =? win then true else st
       | XUnmapWindow w => if w =? win then false else st
       | _ => st
       end) log before.

Definition x_wm_state (log : list XReq) (win : Window) (before : option Z) : option Z :=
  fold_left
    (fun st r =>
       match r with
       | XSetWMState w s => if w =? win then Some s else st
       | _ => st
       end) log before.

(** Two tiled clients as tile has arranged them. *)
Definition arranged_world : World := arrange (Some O) (sample_world 2 [1; 2]%nat 1).

(** The state of the first counterexample: two tiled clients arranged by tile,
    after which the first one had its border width set to 5 (what
    configurerequest does on a request carrying CWBorderWidth, without
    arranging). *)
Definition border_changed_world : World :=
  with_client 1%nat (set_c_bw 5) (arrange (Some O) (sample_world 2 [1; 2]%nat 1)).

(** The state of the second counterexample: one client, alone on the monitor,
    under the floating layout. *)
Definition floating_layout_world : World :=
  arrange (Some O) (sample_world 12 [1]%nat 1).

Definition toggle_tuple (g : World) (c : cid) : Z * Z * Z * Z * Z * Z :=
  let cl := client g c in
  (c_isfloating cl, c_bw cl, c_x cl, c_y cl, c_w cl, c_h cl).

(** The number of clients of a chain that nexttiled stops at. *)
Fixpoint ntiled (g : World) (l : list cid) : nat :=
  match l with
  | [] => O
  | c :: rest => if untiled g c then ntiled g rest else S (ntiled g rest)
  end.

(** One round of the second loop of getfacts. *)
Definition facts_step (nm msize ssize : Z) (mfacts sfacts : cfloat) (st : Z * Z * Z)
  : Z * Z * Z :=
  let '(n, mtotal, stotal) := st in
  if n <? nm
  then (n + 1, add_share mtotal msize mfacts, stotal)
  else (n + 1, mtotal, add_share stotal ssize sfacts).

(** The clients of a chain that nexttiled stops at, in their order. *)
Definition tiled_list (g : World) (l : list cid) : list cid :=
  filter (fun c => negb (untiled g c)) l.

(** The even split of the claim: the floor of the quotient, and one pixel
    more for the first [ext mod k] indices. *)
Definition even_share (ext k i : Z) : Z :=
  ext / k + (if i <? ext mod k then 1 else 0).

(** The height, border included, of the tile of index [i] among the [n]
    tiled clients of the monitor: a share of the master extent for the first
    [nmaster] tiles, of the stack extent for the others. *)
Definition tile_height (g : World) (m : mid) (i : Z) : Z :=
  let mo := monitor g m in
  let n := count_tiled g (m_clients mo) in
  let nm := m_nmaster mo in
  if i <? nm
  then even_share (fst (tile_extents g m)) (Z.min n nm) i
  else even_share (snd (tile_extents g m)) (n - nm) (i - nm).

Definition zsum (l : list Z) : Z := fold_right Z.add 0 l.

(** The body of the loop of tile. *)
Definition tile_body (nm mx mw sx sw ih mh sh : Z) (mfacts sfacts : cfloat)
           (mrest srest : Z) (st : Z * Z * Z) (c : cid) (g : World)
  : Z * Z * Z * World :=
  let '(i, my, sy) := st in
  let bw := c_bw (client g c) in
  if i <? nm then
    let g := resize c mx my (mw - 2 * bw) (share mh mfacts i mrest bw) 0 g in
    ((i + 1, my + HEIGHT (client g c) + ih, sy), g)
  else
    let g :=
      resize c sx sy (sw - 2 * bw) (share sh sfacts (u32 (i - nm)) srest bw) 0 g in
    ((i + 1, my, sy + HEIGHT (client g c) + ih), g).

(** The height that the loop of tile hands to resize for the client [c], met
    as the tiled client of index [i]. *)
Definition tile_arg (g0 : World) (nm mh sh : Z) (mfacts sfacts : cfloat)
           (mrest srest : Z) (i : Z) (c : cid) : Z :=
  let bw := c_bw (client g0 c) in
  if i <? nm then share mh mfacts i mrest bw
  else share sh sfacts (u32 (i - nm)) srest bw.

(** The state of the counterexample: three tiled clients under tile, and
    every gap set to 401 by setgaps. *)
Definition wide_gaps_world : World :=
  setgaps 401 401 401 401 (sample_world 2 [1; 2; 3]%nat 1).

(** The lowest tag of a mask, as organizetags reads it: [ffs(tags) - 1]. *)
Definition lowest_tag (t : Z) : Z := ffs t - 1.

(** The number of occupied tags below [n]: the new index of tag [n]. *)
Fixpoint rank (occ : Z) (n : nat) : Z :=
  match n with
  | O => 0
  | S k => rank occ k + b2z (Z.testbit occ (Z.of_nat k))
  end.

Definition relabel (occ : Z) (i : Z) : Z := rank occ (Z.to_nat i).

(** The loop of organizetags over the tags below [n]. *)
Definition organize_upto (occ : Z) (n : nat) : Z * Z * list Z :=
  fold_left organize_step (map Z.of_nat (seq 0 n)) (occ, 0, repeat 0 (List.length tags)).

Record organized (occ : Z) (n : nat) (st : Z * Z * list Z) : Prop := {
  og_bits : forall j, 0 <= j ->
            Z.testbit (fst (fst st)) j
            = if j <? Z.of_nat n then j <? rank occ n else Z.testbit occ j;
  og_unocc : 0 <= snd (fst st) <= rank occ n;
  og_dest : forall j, 0 <= j < Z.of_nat n -> Z.testbit occ j = true ->
            aget 0 (snd st) j = relabel occ j;
  og_length : List.length (snd st) = List.length tags
}.


(** The state of the counterexample: the clients 1 and 2 on the chain, the
    first on the tags 0 and 2, the second on tag 2. *)
Definition multitag_world : World :=
  with_client 1%nat (set_c_tags 5) (sample_world 2 [1; 2]%nat 4).

(** A client without what the fullscreen toggle and resizeclient save (the old
    rectangle, the old floating state, the old border width), and a state
    without those fields and without the request log: arranging reads neither
    of them. *)
Definition unsaved (c : Client) : Client :=
  set_c_old 0 0 0 0 (set_c_oldstate 0 (set_c_oldbw 0 c)).

Definition norm (g : World) : World :=
  {| g_clients := fun c => unsaved (g_clients g c);
     g_monitors := g_monitors g;
     g_mons := g_mons g; g_selmon := g_selmon g;
     g_bh := g_bh g; g_th := g_th g; g_sw := g_sw g; g_sh := g_sh g;
     g_enablegaps := g_enablegaps g;
     g_xtitle := g_xtitle g; g_xclass := g_xclass g;
     g_xlog := [] |}.

Definition rect (g : World) (c : cid) : Z * Z * Z * Z :=
  let cl := client g c in (c_x cl, c_y cl, c_w cl, c_h cl).

(** From [g] to [g'] nothing but the client [c] and the log has changed. *)
Definition only_client (c : cid) (g g' : World) : Prop :=
  (forall k, k <> c -> client g' k = client g k)
  /\ (forall m, monitor g' m = monitor g m)
  /\ g_mons g' = g_mons g /\ g_selmon g' = g_selmon g
  /\ g_bh g' = g_bh g /\ g_th g' = g_th g /\ g_sw g' = g_sw g /\ g_sh g' = g_sh g
  /\ g_enablegaps g' = g_enablegaps g
  /\ g_xtitle g' = g_xtitle g /\ g_xclass g' = g_xclass g.

(** The state of the second counterexample: three tiled clients under tile,
    the inner horizontal gap set to 1020 by setgaps, which leaves the two
    stack tiles an extent of 20. *)
Definition narrow_stack_world : World :=
  setgaps 10 10 1020 10 (sample_world 2 [1; 2; 3]%nat 1).
(** * Floating point: rounding between representable bounds *)

Lemma pow2_Qpower e : (pow2 e == 2 ^ e)%Q.
Proof.
  unfold pow2. destruct (Z.leb_spec 0 e) as [H|H].
  - rewrite Zpower_Qpower by exact H. reflexivity.
  - destruct e as [|p|p]; try lia.
    change (- Z.neg p) with (Z.pos p).
    change ((2 ^ Z.neg p)%Q) with (/ (2 ^ Z.pos p))%Q.
    rewrite <- (Zpower_Qpower 2 (Z.pos p)) by lia.
    assert (Hp : 0 < 2 ^ Z.pos p) by (apply Z.pow_pos_nonneg; lia).
    destruct (2 ^ Z.pos p) as [|q|q] eqn:E; try lia.
    reflexivity.
Qed.

Lemma pow2_pos e : (0 < pow2 e)%Q.
Proof. rewrite pow2_Qpower. apply Qpower_0_lt. reflexivity. Qed.

Lemma pow2_add a b : (pow2 (a + b) == pow2 a * pow2 b)%Q.
Proof. rewrite !pow2_Qpower. apply Qpower_plus. discriminate. Qed.

Lemma pow2_le a b : a <= b -> (pow2 a <= pow2 b)%Q.
Proof.
  intros H. rewrite !pow2_Qpower. apply Qpower_le_compat_l; [exact H|discriminate].
Qed.

Lemma pow2_nonneg_Z e : 0 <= e -> pow2 e = inject_Z (2 ^ e).
Proof. intros H. unfold pow2. destruct (Z.leb_spec 0 e); [reflexivity|lia]. Qed.

Lemma scaled_int N e0 e :
  e <= e0 -> (inject_Z N * pow2 e0 == inject_Z (N * 2 ^ (e0 - e)) * pow2 e)%Q.
Proof.
  intros H. replace e0 with ((e0 - e) + e) at 1 by lia.
  rewrite pow2_add, (pow2_nonneg_Z (e0 - e)) by lia.
  rewrite inject_Z_mult. ring.
Qed.

Lemma rne_floor x :
  rne x = Qfloor x \/ (rne x = Qfloor x + 1 /\ (inject_Z (Qfloor x) < x)%Q).
Proof.
  unfold rne.
  destruct (Qcompare_spec (x - inject_Z (Qfloor x)) (1 # 2)) as [H|H|H].
  - destruct (Z.even (Qfloor x)); [left; reflexivity|].
    right. split; [reflexivity|]. lra.
  - left. reflexivity.
  - right. split; [reflexivity|]. lra.
Qed.

Lemma rne_le x k : (x <= inject_Z k)%Q -> rne x <= k.
Proof.
  intros H. pose proof (Qfloor_resp_le _ _ H) as Hf. rewrite Qfloor_Z in Hf.
  destruct (rne_floor x) as [->|[-> Hlt]]; [exact Hf|].
  assert (Hk : (inject_Z (Qfloor x) < inject_Z k)%Q) by lra.
  rewrite <- Zlt_Qlt in Hk. lia.
Qed.

Lemma rne_ge x k : (inject_Z k <= x)%Q -> k <= rne x.
Proof.
  intros H. pose proof (Qfloor_resp_le _ _ H) as Hf. rewrite Qfloor_Z in Hf.
  destruct (rne_floor x) as [->|[-> _]]; lia.
Qed.

Lemma Qabs_nonneg_eq x : (0 <= x)%Q -> Qabs x = x.
Proof.
  destruct x as [n d]. unfold Qle. simpl. intros H.
  rewrite Z.mul_1_r in H. rewrite Z.abs_eq by exact H. reflexivity.
Qed.

Lemma Qlog2_lower x : (0 < x)%Q -> (pow2 (Qlog2 x) <= x)%Q.
Proof.
  intros Hx. unfold Qlog2.
  set (a := Z.log2 (Qnum x)). set (b := Z.log2 (Z.pos (Qden x))).
  destruct (Qle_bool (pow2 (a - b)) x) eqn:E; [apply Qle_bool_iff; exact E|].
  destruct x as [n d]. cbn [Qnum Qden] in a, b.
  assert (Hn : 0 < n) by (unfold Qlt in Hx; simpl in Hx; lia).
  destruct (Z.log2_spec n Hn) as [Ha _]. fold a in Ha.
  destruct (Z.log2_spec (Z.pos d) ltac:(lia)) as [_ Hb]. fold b in Hb.
  assert (Ha0 : 0 <= a) by apply Z.log2_nonneg.
  assert (Hb0 : 0 <= b) by apply Z.log2_nonneg.
  assert (HP : (pow2 (a - b - 1) * pow2 (b + 1) == pow2 a)%Q).
  { rewrite <- pow2_add. replace (a - b - 1 + (b + 1)) with a by lia. reflexivity. }
  rewrite (pow2_nonneg_Z a), (pow2_nonneg_Z (b + 1)) in HP by lia.
  setoid_replace (n # d)%Q with (inject_Z n / inject_Z (Z.pos d))%Q
    by (first [apply Qmake_Qdiv | apply Qeq_sym, Qmake_Qdiv]).
  apply Qle_shift_div_l; [reflexivity|].
  pose proof (pow2_pos (a - b - 1)) as Hp.
  assert (H1 : (inject_Z (Z.pos d) <= inject_Z (2 ^ (b + 1)))%Q)
    by (rewrite <- Zle_Qle; replace (b + 1) with (Z.succ b) by lia; lia).
  assert (H2 : (inject_Z (2 ^ a) <= inject_Z n)%Q) by (rewrite <- Zle_Qle; exact Ha).
  apply Qle_trans with (pow2 (a - b - 1) * inject_Z (2 ^ (b + 1)))%Q.
  - apply Qmult_le_l; [exact Hp|exact H1].
  - rewrite HP. exact H2.
Qed.

Lemma Qlog2_upper x : (0 < x)%Q -> (x < pow2 (Qlog2 x + 1))%Q.
Proof.
  intros Hx. unfold Qlog2.
  set (a := Z.log2 (Qnum x)). set (b := Z.log2 (Z.pos (Qden x))).
  destruct (Qle_bool (pow2 (a - b)) x) eqn:E.
  - destruct x as [n d]. cbn [Qnum Qden] in a, b.
    assert (Hn : 0 < n) by (unfold Qlt in Hx; simpl in Hx; lia).
    destruct (Z.log2_spec n Hn) as [_ Ha]. fold a in Ha.
    destruct (Z.log2_spec (Z.pos d) ltac:(lia)) as [Hb _]. fold b in Hb.
    assert (Ha0 : 0 <= a) by apply Z.log2_nonneg.
    assert (Hb0 : 0 <= b) by apply Z.log2_nonneg.
    assert (HP : (pow2 (a - b + 1) * pow2 b == pow2 (a + 1))%Q).
    { rewrite <- pow2_add. replace (a - b + 1 + b) with (a + 1) by lia. reflexivity. }
    rewrite (pow2_nonneg_Z (a + 1)), (pow2_nonneg_Z b) in HP by lia.
    setoid_replace (n # d)%Q with (inject_Z n / inject_Z (Z.pos d))%Q
      by (first [apply Qmake_Qdiv | apply Qeq_sym, Qmake_Qdiv]).
    apply Qlt_shift_div_r; [reflexivity|].
    pose proof (pow2_pos (a - b + 1)) as Hp.
    assert (H1 : (inject_Z (2 ^ b) <= inject_Z (Z.pos d))%Q) by (rewrite <- Zle_Qle; exact Hb).
    assert (H2 : (inject_Z n < inject_Z (2 ^ (a + 1)))%Q)
      by (rewrite <- Zlt_Qlt; replace (a + 1) with (Z.succ a) by lia; exact Ha).
    apply Qlt_le_trans with (pow2 (a - b + 1) * inject_Z (2 ^ b))%Q.
    + rewrite HP. exact H2.
    + apply Qmult_le_l; [exact Hp|exact H1].
  - replace (a - b - 1 + 1) with (a - b) by lia.
    apply Qnot_le_lt. intros F. apply Qle_bool_iff in F. congruence.
Qed.

(** Rounding stays between two numbers of the format: with
    [N1 * 2 ^ e1 <= x <= N2 * 2 ^ e2], both bounds of at most [prec] bits and
    of an exponent the format has, the rounded [x] is finite and lies between
    the same bounds. *)
Lemma round_bracket prec emax x N1 e1 N2 e2 :
  0 < prec ->
  0 <= N1 < 2 ^ prec -> 3 - emax - prec <= e1 ->
  0 <= N2 < 2 ^ prec -> 3 - emax - prec <= e2 ->
  (inject_Z N2 * pow2 e2 < pow2 emax)%Q ->
  (inject_Z N1 * pow2 e1 <= x)%Q -> (x <= inject_Z N2 * pow2 e2)%Q ->
  exists y, round prec emax x = FFin (Qred y)
            /\ (inject_Z N1 * pow2 e1 <= y)%Q /\ (y <= inject_Z N2 * pow2 e2)%Q.
Proof.
  intros Hp HN1 He1 HN2 He2 Hmax Hlo Hhi.
  assert (Hlo0 : (0 <= inject_Z N1 * pow2 e1)%Q).
  { apply Qmult_le_0_compat; [change 0%Q with (inject_Z 0); rewrite <- Zle_Qle; lia|].
    apply Qlt_le_weak, pow2_pos. }
  unfold round. destruct (Qeq_bool x 0) eqn:Ez.
  - apply Qeq_bool_iff in Ez. exists 0%Q. split; [reflexivity|].
    rewrite Ez in Hlo, Hhi. split; assumption.
  - assert (Hx : (0 < x)%Q).
    { apply Qle_lt_or_eq in Hlo0. assert (Hx0 : (0 <= x)%Q) by lra.
      apply Qle_lt_or_eq in Hx0. destruct Hx0 as [H|H]; [exact H|].
      apply Qeq_sym in H. apply Qeq_bool_iff in H. congruence. }
    rewrite (Qabs_nonneg_eq x) by lra.
    set (L := Qlog2 x).
    pose proof (Qlog2_lower x Hx) as HL. fold L in HL.
    set (e := Z.max (L - prec + 1) (3 - emax - prec)).
    pose proof (pow2_pos e) as Hpe.
    set (z := rne (x / pow2 e)).
    assert (Hup : (inject_Z z * pow2 e <= inject_Z N2 * pow2 e2)%Q).
    { destruct (Z_le_gt_dec e e2) as [Hle|Hgt].
      - rewrite (scaled_int N2 e2 e Hle).
        apply Qmult_le_compat_r; [|lra].
        rewrite <- Zle_Qle. apply rne_le.
        apply Qle_shift_div_r; [exact Hpe|].
        rewrite <- (scaled_int N2 e2 e Hle). exact Hhi.
      - exfalso.
        assert (Ee : e = L - prec + 1) by lia.
        assert (H1 : (inject_Z N2 * pow2 e2 < pow2 prec * pow2 e2)%Q).
        { apply Qmult_lt_compat_r; [apply pow2_pos|].
          rewrite pow2_nonneg_Z by lia. rewrite <- Zlt_Qlt. lia. }
        rewrite <- pow2_add in H1.
        pose proof (pow2_le (prec + e2) L ltac:(lia)) as H2.
        lra. }
    assert (Hdn : (inject_Z N1 * pow2 e1 <= inject_Z z * pow2 e)%Q).
    { destruct (Z_le_gt_dec e e1) as [Hle|Hgt].
      - rewrite (scaled_int N1 e1 e Hle).
        apply Qmult_le_compat_r; [|lra].
        rewrite <- Zle_Qle. apply rne_ge.
        apply Qle_shift_div_l; [exact Hpe|].
        rewrite <- (scaled_int N1 e1 e Hle). exact Hlo.
      - assert (Ee : e = L - prec + 1) by lia.
        assert (H1 : (inject_Z N1 * pow2 e1 < pow2 prec * pow2 e1)%Q).
        { apply Qmult_lt_compat_r; [apply pow2_pos|].
          rewrite pow2_nonneg_Z by lia. rewrite <- Zlt_Qlt. lia. }
        rewrite <- pow2_add in H1.
        pose proof (pow2_le (prec + e1) L ltac:(lia)) as H2.
        assert (H3 : (pow2 L == inject_Z (2 ^ (prec - 1)) * pow2 e)%Q).
        { rewrite <- pow2_nonneg_Z by lia. rewrite <- pow2_add.
          replace (prec - 1 + e) with L by lia. reflexivity. }
        assert (H4 : 2 ^ (prec - 1) <= z).
        { apply rne_ge. apply Qle_shift_div_l; [exact Hpe|]. rewrite <- H3. exact HL. }
        assert (H5 : (inject_Z (2 ^ (prec - 1)) * pow2 e <= inject_Z z * pow2 e)%Q).
        { apply Qmult_le_compat_r; [|lra]. rewrite <- Zle_Qle. exact H4. }
        lra. }
    rewrite (Qabs_nonneg_eq (inject_Z z * pow2 e)) by lra.
    destruct (Qle_bool (pow2 emax) (inject_Z z * pow2 e)) eqn:Eo.
    + apply Qle_bool_iff in Eo. lra.
    + exists (inject_Z z * pow2 e)%Q. split; [reflexivity|]. split; assumption.
Qed.

(** A rounded number that is [2 ^ k] or more is a multiple of
    [2 ^ (k - prec + 1)]. *)
Lemma round_grid prec emax x q k :
  0 < prec -> 3 - emax - prec <= k - prec + 1 ->
  round prec emax x = FFin q -> (pow2 k <= q)%Q ->
  exists z, (q == inject_Z z * pow2 (k - prec + 1))%Q.
Proof.
  intros Hp Hk. unfold round.
  pose proof (pow2_pos k) as Hpk.
  destruct (Qeq_bool x 0) eqn:Ez.
  { intros E. injection E as <-. intros F. lra. }
  destruct (Qlt_le_dec 0 x) as [Hx|Hx].
  2: { set (e := Z.max _ _). set (z0 := rne (x / pow2 e)).
       destruct (Qle_bool _ _); [discriminate|].
       intros E.
       assert (Eq : Qred (inject_Z z0 * pow2 e) = q) by congruence.
       clear E. subst q. intros Hq.
       pose proof (Qred_correct (inject_Z z0 * pow2 e)) as Hr.
       pose proof (pow2_pos e) as Hpe.
       assert (Hz : z0 <= 0).
       { apply rne_le. apply Qle_shift_div_r; [exact Hpe|].
         change (inject_Z 0) with 0%Q. lra. }
       assert (Hz' : (inject_Z z0 <= 0)%Q)
         by (change 0%Q with (inject_Z 0); rewrite <- Zle_Qle; exact Hz).
       assert (Hy : (inject_Z z0 * pow2 e <= 0 * pow2 e)%Q)
         by (apply Qmult_le_compat_r; lra).
       set (y := (inject_Z z0 * pow2 e)%Q) in *. lra. }
  rewrite (Qabs_nonneg_eq x) by lra.
  set (L := Qlog2 x).
  set (e := Z.max (L - prec + 1) (3 - emax - prec)).
  set (z0 := rne (x / pow2 e)).
  destruct (Qle_bool _ _); [discriminate|].
  intros E.
  assert (Eq : Qred (inject_Z z0 * pow2 e) = q) by congruence.
  clear E. subst q. intros Hq.
  pose proof (Qred_correct (inject_Z z0 * pow2 e)) as Hr.
  pose proof (pow2_pos e) as Hpe.
  destruct (Z_le_gt_dec (k - prec + 1) e) as [Hle|Hgt].
  - exists (z0 * 2 ^ (e - (k - prec + 1))).
    apply (Qeq_trans _ _ _ Hr). apply scaled_int. exact Hle.
  - exists (2 ^ (prec - 1)).
    pose proof (Qlog2_upper x Hx) as HU. fold L in HU.
    pose proof (pow2_le (L + 1) k ltac:(lia)) as H1.
    assert (H2 : (pow2 k == inject_Z (2 ^ (k - e)) * pow2 e)%Q).
    { pose proof (scaled_int 1 k e ltac:(lia)) as S.
      rewrite Z.mul_1_l in S. rewrite <- S.
      change (inject_Z 1) with 1%Q. ring. }
    assert (H3 : z0 <= 2 ^ (k - e)).
    { apply rne_le. apply Qle_shift_div_r; [exact Hpe|]. rewrite <- H2. lra. }
    assert (H4 : (inject_Z z0 * pow2 e <= pow2 k)%Q).
    { rewrite H2. apply Qmult_le_compat_r; [|lra]. rewrite <- Zle_Qle. exact H3. }
    assert (H5 : (pow2 k == inject_Z (2 ^ (prec - 1)) * pow2 (k - prec + 1))%Q).
    { pose proof (scaled_int 1 k (k - prec + 1) ltac:(lia)) as S.
      rewrite Z.mul_1_l in S.
      replace (k - (k - prec + 1)) with (prec - 1) in S by lia. rewrite <- S.
      change (inject_Z 1) with 1%Q. ring. }
    apply (Qeq_trans _ _ _ Hr). apply (Qeq_trans _ (pow2 k)); [|exact H5].
    set (y := (inject_Z z0 * pow2 e)%Q) in *. lra.
Qed.

(** ** Integers and quotients in binary32 *)

Lemma Qred_inject_Z z : Qred (inject_Z z) = inject_Z z.
Proof.
  unfold Qred, inject_Z.
  pose proof (Z.ggcd_gcd z 1) as Hg. pose proof (Z.ggcd_correct_divisors z 1) as Hd.
  destruct (Z.ggcd z 1) as [d [a b]]. simpl in *.
  rewrite Z.gcd_1_r in Hg. subst d. destruct Hd as [Ha Hb].
  rewrite !Z.mul_1_l in *. subst. reflexivity.
Qed.

(** An integer below [2 ^ 24] is a [float]. *)
Lemma i2f_exact z : 0 <= z < 2 ^ 24 -> i2f z = FFin (inject_Z z).
Proof.
  intros Hz. unfold i2f, f32.
  destruct (round_bracket 24 128 (inject_Z z) z 0 z 0) as [y [E [H1 H2]]];
    try lia.
  - change (pow2 0) with 1%Q. change (pow2 128) with (inject_Z (2 ^ 128)).
    rewrite Qmult_1_r. rewrite <- Zlt_Qlt. lia.
  - change (pow2 0) with 1%Q. rewrite Qmult_1_r. apply Qle_refl.
  - change (pow2 0) with 1%Q. rewrite Qmult_1_r. apply Qle_refl.
  - rewrite E. f_equal. rewrite <- Qred_inject_Z. apply Qred_complete.
    change (pow2 0) with 1%Q in *. rewrite Qmult_1_r in *.
    apply Qle_antisym; assumption.
Qed.

(** The rounding of a number between an integer [A] and [A + 1023/1024] lies
    between the same bounds, for [A] below [2 ^ 14]. *)
Lemma f32_bracket A x :
  0 <= A < 2 ^ 14 ->
  (inject_Z A <= x)%Q -> (x <= inject_Z A + (1023 # 1024))%Q ->
  exists q, f32 x = FFin q /\ (inject_Z A <= q)%Q /\ (q <= inject_Z A + (1023 # 1024))%Q.
Proof.
  intros HA Hlo Hhi. unfold f32.
  assert (E1 : (inject_Z (A * 1024) * pow2 (-10) == inject_Z A)%Q).
  { change (pow2 (-10)) with (1 # 1024)%Q. rewrite inject_Z_mult.
    change (inject_Z 1024) with (1024 # 1)%Q. field. }
  assert (E2 : (inject_Z (A * 1024 + 1023) * pow2 (-10) == inject_Z A + (1023 # 1024))%Q).
  { change (pow2 (-10)) with (1 # 1024)%Q. rewrite inject_Z_plus, inject_Z_mult.
    change (inject_Z 1024) with (1024 # 1)%Q. change (inject_Z 1023) with (1023 # 1)%Q.
    field. }
  destruct (round_bracket 24 128 x (A * 1024) (-10) (A * 1024 + 1023) (-10))
    as [y [E [H1 H2]]]; try lia.
  - rewrite E2. change (pow2 128) with (inject_Z (2 ^ 128)).
    assert (H : (inject_Z A < inject_Z (2 ^ 14))%Q) by (rewrite <- Zlt_Qlt; lia).
    assert (H' : (inject_Z (2 ^ 14) + 1 <= inject_Z (2 ^ 128))%Q).
    { change 1%Q with (inject_Z 1). rewrite <- inject_Z_plus, <- Zle_Qle.
      vm_compute. discriminate. }
    lra.
  - rewrite E1. exact Hlo.
  - rewrite E2. exact Hhi.
  - exists (Qred y). split; [exact E|].
    pose proof (Qred_correct y) as Hr. rewrite E1 in H1. rewrite E2 in H2.
    split; lra.
Qed.

Lemma f2i_bracket A q :
  0 <= A < 2 ^ 31 ->
  (inject_Z A <= q)%Q -> (q <= inject_Z A + (1023 # 1024))%Q ->
  f2i (FFin q) = A.
Proof.
  intros HA Hlo Hhi. unfold f2i.
  assert (Hq : (0 <= q)%Q).
  { assert (H : (inject_Z 0 <= inject_Z A)%Q) by (rewrite <- Zle_Qle; lia).
    change (inject_Z 0) with 0%Q in H. lra. }
  assert (Ht : Qtrunc q = A).
  { destruct q as [n d]. unfold Qtrunc. cbn [Qnum Qden]. rewrite Z.quot_div_nonneg.
    - change (n / Z.pos d) with (Qfloor (n # d)).
      apply Z.le_antisymm.
      + assert (H : (inject_Z (Qfloor (n # d)) < inject_Z (A + 1))%Q).
        { pose proof (Qfloor_le (n # d)) as Hf. rewrite inject_Z_plus.
          change (inject_Z 1) with 1%Q. lra. }
        rewrite <- Zlt_Qlt in H. lia.
      + rewrite <- (Qfloor_Z A). apply Qfloor_resp_le. exact Hlo.
    - unfold Qle in Hq. simpl in Hq. lia.
    - reflexivity. }
  rewrite Ht.
  destruct (Z.leb_spec (- 2 ^ 31) A); [|lia].
  destruct (Z.ltb_spec A (2 ^ 31)); [|lia]. reflexivity.
Qed.

(** The quotient of two integers, by at most 1024, is rounded to a number
    between its floor and the floor plus 1023/1024. *)
Lemma divf_bracket a k :
  0 <= a < 2 ^ 14 -> 1 <= k <= 1024 ->
  exists q, divf (i2f a) (i2f k) = FFin q
            /\ (inject_Z (a / k) <= q)%Q /\ (q <= inject_Z (a / k) + (1023 # 1024))%Q.
Proof.
  intros Ha Hk. rewrite (i2f_exact a), (i2f_exact k) by lia.
  unfold divf, fdiv.
  assert (Hk0 : (0 < inject_Z k)%Q).
  { change 0%Q with (inject_Z 0). rewrite <- Zlt_Qlt. lia. }
  destruct (Qeq_bool (inject_Z k) 0) eqn:E.
  { apply Qeq_bool_iff in E. lra. }
  fold (f32 (inject_Z a / inject_Z k)).
  pose proof (Z.div_mod a k ltac:(lia)) as Hdm.
  pose proof (Z.mod_pos_bound a k ltac:(lia)) as Hm.
  assert (Hq : 0 <= a / k) by (apply Z.div_pos; lia).
  assert (Hq' : a / k <= a) by (apply Z.div_le_upper_bound; nia).
  set (Q := a / k) in *. set (r := a mod k) in *.
  assert (Ea : (inject_Z a == inject_Z k * inject_Z Q + inject_Z r)%Q).
  { rewrite <- inject_Z_mult, <- inject_Z_plus. rewrite <- Hdm. reflexivity. }
  assert (Hr0 : (0 <= inject_Z r)%Q).
  { change 0%Q with (inject_Z 0). rewrite <- Zle_Qle. lia. }
  assert (Hr1 : (inject_Z r <= inject_Z k - 1)%Q).
  { assert (H : (inject_Z (r + 1) <= inject_Z k)%Q) by (rewrite <- Zle_Qle; lia).
    rewrite inject_Z_plus in H. change (inject_Z 1) with 1%Q in H. lra. }
  assert (Hk1 : (inject_Z k <= 1024)%Q).
  { change 1024%Q with (inject_Z 1024). rewrite <- Zle_Qle. lia. }
  apply f32_bracket; [lia| |].
  - apply Qle_shift_div_l; [exact Hk0|]. rewrite Ea.
    setoid_replace (inject_Z Q * inject_Z k)%Q with (inject_Z k * inject_Z Q)%Q by ring.
    lra.
  - apply Qle_shift_div_r; [exact Hk0|]. rewrite Ea.
    setoid_replace ((inject_Z Q + (1023 # 1024)) * inject_Z k)%Q
      with (inject_Z k * inject_Z Q + (1023 # 1024) * inject_Z k)%Q by ring.
    lra.
Qed.

(** [mtotal += msize / mfacts] adds the floor of the quotient. *)
Lemma add_share_exact total size k :
  0 <= total -> 0 <= size -> 1 <= k <= 1024 -> total + size / k < 2 ^ 14 ->
  size < 2 ^ 14 ->
  add_share total size (i2f k) = total + size / k.
Proof.
  intros Ht Hs Hk Hb Hs'. unfold add_share.
  assert (Hq : 0 <= size / k) by (apply Z.div_pos; lia).
  destruct (divf_bracket size k ltac:(lia) Hk) as [q [E [H1 H2]]].
  rewrite E, (i2f_exact total) by lia.
  unfold addf, fadd. fold (f32 (inject_Z total + q)).
  destruct (f32_bracket (total + size / k) (inject_Z total + q)) as [q' [E' [H1' H2']]].
  - lia.
  - rewrite inject_Z_plus. lra.
  - rewrite inject_Z_plus. lra.
  - rewrite E'. apply f2i_bracket; [lia|assumption|assumption].
Qed.

(** The height handed to resize: the floor of the quotient, one more for an
    index below the rest, less the border. *)
Lemma share_exact size k i rest bw :
  0 <= size -> size < 2 ^ 14 - 1 -> 1 <= k <= 1024 -> 0 <= rest < 2 ^ 32 ->
  0 <= 2 * bw <= size / k ->
  share size (i2f k) i rest bw = size / k + (if i <? rest then 1 else 0) - 2 * bw.
Proof.
  intros Hs Hs' Hk Hr Hb. unfold share, u32. rewrite (Z.mod_small rest) by lia.
  set (e := b2z (i <? rest)).
  assert (He : e = if i <? rest then 1 else 0) by reflexivity.
  assert (He' : 0 <= e <= 1) by (rewrite He; destruct (i <? rest); lia).
  rewrite <- He. clearbody e.
  assert (Hq' : size / k <= size) by (apply Z.div_le_upper_bound; nia).
  destruct (divf_bracket size k ltac:(lia) Hk) as [q [E [H1 H2]]].
  rewrite E, (i2f_exact e), (i2f_exact (2 * bw)) by lia.
  unfold addf, fadd. fold (f32 (q + inject_Z e)).
  destruct (f32_bracket (size / k + e) (q + inject_Z e)) as [q1 [E1 [H3 H4]]].
  - lia.
  - rewrite inject_Z_plus. lra.
  - rewrite inject_Z_plus. lra.
  - rewrite E1. unfold subf, fsub, fneg, fadd.
    fold (f32 (q1 + Qred (- inject_Z (2 * bw)))).
    pose proof (Qred_correct (- inject_Z (2 * bw))) as Hred.
    destruct (f32_bracket (size / k + e - 2 * bw) (q1 + Qred (- inject_Z (2 * bw))))
      as [q2 [E2 [H5 H6]]].
    + lia.
    + unfold Z.sub. rewrite !inject_Z_plus, inject_Z_opp in *. lra.
    + unfold Z.sub. rewrite !inject_Z_plus, inject_Z_opp in *. lra.
    + rewrite E2. apply f2i_bracket; [lia|assumption|assumption].
Qed.

(** ** The model against the Standard Library's specification

    Conversions, quotients, sums and products of the model, against
    [SpecFloat] of the Standard Library: ties to even, a significand of more
    than 24 bits, subnormal numbers, overflow, and the operands of the
    program. *)
Lemma float_model_agrees :
  i2f 4294967295 = of_spec (spec32 4294967295)
  /\ i2f (2 ^ 24 + 1) = of_spec (spec32 (2 ^ 24 + 1))
  /\ i2f (2 ^ 24 + 3) = of_spec (spec32 (2 ^ 24 + 3))
  /\ i2f (- (2 ^ 25 + 6)) = of_spec (spec32 (- (2 ^ 25 + 6)))
  /\ f32 (4 # 10) = of_spec (SFdiv 24 128 (spec32 4) (spec32 10))
  /\ f64 (1 # 10) = of_spec (SFdiv 53 1024 (spec64 1) (spec64 10))
  /\ f64 (9 # 10) = of_spec (SFdiv 53 1024 (spec64 9) (spec64 10))
  /\ divf (i2f (-1000)) (i2f 7) = of_spec (SFdiv 24 128 (spec32 (-1000)) (spec32 7))
  /\ addf (f32 (4 # 10)) (f32 (1 # 2))
     = of_spec (SFadd 24 128 (SFdiv 24 128 (spec32 4) (spec32 10))
                             (SFdiv 24 128 (spec32 1) (spec32 2)))
  /\ mulf (i2f 1890) (subf (i2f 1) (f32 (56 # 100)))
     = of_spec (SFmul 24 128 (spec32 1890)
                  (SFsub 24 128 (spec32 1) (SFdiv 24 128 (spec32 56) (spec32 100))))
  /\ f32 (1 # 3 * 2 ^ 149)
     = of_spec (SFdiv 24 128 (binary_normalize 24 128 1 (-149) false) (spec32 3))
  /\ f32 (3 # 2 * 2 ^ 149)
     = of_spec (SFdiv 24 128 (binary_normalize 24 128 3 (-149) false) (spec32 2))
  /\ mulf (f32 (inject_Z (2 ^ 127))) (i2f 2)
     = of_spec (SFmul 24 128 (binary_normalize 24 128 1 127 false) (spec32 2))
  /\ f32 (inject_Z (2 ^ 128 - 2 ^ 103 - 1)) = of_spec (spec32 (2 ^ 128 - 2 ^ 103 - 1))
  /\ f32 (inject_Z (2 ^ 128 - 2 ^ 103)) = of_spec (spec32 (2 ^ 128 - 2 ^ 103))
  /\ divf (i2f 100) (i2f 0) = of_spec (SFdiv 24 128 (spec32 100) (spec32 0))
  /\ divf (i2f 0) (i2f 0) = of_spec (SFdiv 24 128 (spec32 0) (spec32 0)).
Proof. vm_compute. repeat split. Qed.

(** The [float] constants of config.h: 0.56 is 9395241 / 2^24, a little more
    than 56/100. *)
Lemma mfact_value : mfact = FFin (9395241 # 16777216).
Proof. vm_compute. reflexivity. Qed.
(** * Frames: what a function leaves alone *)

Section Frame.

Variable pc : Client -> Client.
Variable pm : Monitor -> Monitor.
Variable P : cid -> Prop.
Variable ks : bool.

Local Abbreviation framed := (frame pc pm P ks).

Lemma frame_refl g : framed g g.
Proof.
  constructor; auto. exists []. rewrite app_nil_r. auto.
Qed.

Lemma frame_trans g1 g2 g3 : framed g1 g2 -> framed g2 g3 -> framed g1 g3.
Proof.
  intros [a1 b1 c1 d1 e1 [f1 f1'] [l1 [h1 k1]]] [a2 b2 c2 d2 e2 [f2 f2'] [l2 [h2 k2]]].
  constructor; intros.
  - rewrite a2; auto.
  - rewrite b2; auto.
  - rewrite c2; auto.
  - congruence.
  - rewrite e2; auto.
  - split; congruence.
  - exists (l1 ++ l2). split.
    + rewrite h2, h1, app_assoc. reflexivity.
    + apply Forall_app; auto.
Qed.

Lemma frame_xreq g0 g r : framed g0 g -> benign r -> framed g0 (xreq r g).
Proof.
  intros H Hr. apply frame_trans with g; auto.
  constructor; auto. exists [r]. split; auto.
Qed.

Lemma frame_with_client g0 g c f :
  framed g0 g -> P c -> (forall x, pc (f x) = pc x) -> framed g0 (with_client c f g).
Proof.
  intros H Hc Hf. apply frame_trans with g; auto.
  constructor; auto; try (intros c'; unfold with_client, client, upd; simpl).
  - destruct (Nat.eqb_spec c' c); subst; auto.
  - destruct (Nat.eqb_spec c' c); subst; auto. intros F. contradiction.
  - exists []. rewrite app_nil_r. auto.
Qed.

Lemma frame_with_monitor g0 g m f :
  framed g0 g -> (forall x, pm (f x) = pm x) -> framed g0 (with_monitor m f g).
Proof.
  intros H Hf. apply frame_trans with g; auto.
  constructor; auto; try (intros m'; unfold with_monitor, monitor, upd; simpl).
  - destruct (Nat.eqb_spec m' m); subst; auto.
  - exists []. rewrite app_nil_r. auto.
Qed.

Lemma frame_set_selmon g0 g m : ks = false -> framed g0 g -> framed g0 (set_g_selmon m g).
Proof.
  intros Hk H. apply frame_trans with g; auto.
  constructor; auto.
  - intros F. congruence.
  - exists []. rewrite app_nil_r. auto.
Qed.

(** A field that the projection keeps has the same value before and after. *)
Lemma frame_cfield {A} (f : Client -> A) g g' c :
  framed g g' -> (forall x, f (pc x) = f x) -> f (client g' c) = f (client g c).
Proof.
  intros H Hf. rewrite <- (Hf (client g' c)), <- (Hf (client g c)).
  f_equal. apply (fr_client _ _ _ _ _ _ H).
Qed.

Lemma frame_mfield {A} (f : Monitor -> A) g g' m :
  framed g g' -> (forall x, f (pm x) = f x) -> f (monitor g' m) = f (monitor g m).
Proof.
  intros H Hf. rewrite <- (Hf (monitor g' m)), <- (Hf (monitor g m)).
  f_equal. apply (fr_monitor _ _ _ _ _ _ H).
Qed.

Lemma frame_fold {A} (f : World -> A -> World) (l : list A) g0 :
  (forall g a, framed g0 g -> framed g0 (f g a)) ->
  forall g, framed g0 g -> framed g0 (fold_left f l g).
Proof.
  intros Hf. induction l as [|a l IH]; simpl; auto.
Qed.

End Frame.

Arguments frame_refl {pc pm P ks} g.
Arguments frame_xreq {pc pm P ks g0 g} r _ _.

Lemma frame_weaken pc pm (P Q : cid -> Prop) ks g g' :
  (forall c, P c -> Q c) -> frame pc pm P ks g g' -> frame pc pm Q ks g g'.
Proof.
  intros HPQ [a b c d e f h]. constructor; auto.
Qed.

Lemma arrP_evolves P g g' : arrP P g g' -> evolves g g'.
Proof.
  intros [a b c d e f h]. constructor.
  - intros k. unfold cstable. rewrite (a k). reflexivity.
  - intros k F. exfalso. apply F. exact I.
  - intros k. unfold mstable.
    assert (Hp : m_pertag (monitor g' k) = m_pertag (monitor g k)).
    { exact (f_equal m_pertag (c k)). }
    rewrite Hp, (c k). reflexivity.
  - exact d.
  - discriminate.
  - exact f.
  - exact h.
Qed.

Ltac frame_step :=
  lazymatch goal with
  | H : frame ?pc ?pm ?P ?ks ?a ?b |- frame ?pc ?pm ?P ?ks ?a ?b => exact H
  | |- frame _ _ _ _ ?g ?g => apply frame_refl
  | |- frame _ _ _ _ _ (xreq _ _) => apply frame_xreq; [ | exact I ]
  | |- frame _ _ _ _ _ (with_client _ _ _) =>
      apply frame_with_client; [ | | intros; reflexivity ]
  | |- frame _ _ _ _ _ (with_monitor _ _ _) =>
      apply frame_with_monitor; [ | intros; reflexivity ]
  | |- frame _ _ _ _ _ (if ?b then _ else _) => destruct b
  | |- frame _ _ _ _ _ (match ?x with _ => _ end) => destruct x
  end.

Ltac frame_auto := try (solve [auto]); repeat (frame_step; try (solve [auto])).

(** ** What arranging reads is kept by arranging *)

Section ArrReads.

Variables (P : cid -> Prop) (g g' : World).
Hypothesis H : arrP P g g'.

Lemma arr_tags c : c_tags (client g' c) = c_tags (client g c).
Proof. apply (frame_cfield _ _ _ _ c_tags _ _ c H). reflexivity. Qed.

Lemma arr_isfloating c : c_isfloating (client g' c) = c_isfloating (client g c).
Proof. apply (frame_cfield _ _ _ _ c_isfloating _ _ c H). reflexivity. Qed.

Lemma arr_mon c : c_mon (client g' c) = c_mon (client g c).
Proof. apply (frame_cfield _ _ _ _ c_mon _ _ c H). reflexivity. Qed.

Lemma arr_sel_tagset m : sel_tagset (monitor g' m) = sel_tagset (monitor g m).
Proof. apply (frame_mfield _ _ _ _ sel_tagset _ _ m H). reflexivity. Qed.

Lemma arr_sel_layout m : sel_layout (monitor g' m) = sel_layout (monitor g m).
Proof. apply (frame_mfield _ _ _ _ sel_layout _ _ m H). reflexivity. Qed.

Lemma arr_clients m : m_clients (monitor g' m) = m_clients (monitor g m).
Proof. apply (frame_mfield _ _ _ _ m_clients _ _ m H). reflexivity. Qed.

Lemma arr_stack m : m_stack (monitor g' m) = m_stack (monitor g m).
Proof. apply (frame_mfield _ _ _ _ m_stack _ _ m H). reflexivity. Qed.

Lemma arr_visible c : ISVISIBLE g' c = ISVISIBLE g c.
Proof. unfold ISVISIBLE. rewrite arr_tags, arr_mon, arr_sel_tagset. reflexivity. Qed.

Lemma arr_untiled c : untiled g' c = untiled g c.
Proof. unfold untiled. rewrite arr_isfloating, arr_visible. reflexivity. Qed.

End ArrReads.

Lemma untiled_visible g c : untiled g c = false -> ISVISIBLE g c = true.
Proof.
  unfold untiled. intros H. apply orb_false_elim in H. destruct H as [_ H].
  destruct (ISVISIBLE g c); auto.
Qed.

(** ** resize and the loops over tiled clients *)

Lemma resizeclient_frame (P : cid -> Prop) c x y w h g0 g :
  P c -> arrP P g0 g -> arrP P g0 (resizeclient c x y w h g).
Proof.
  intros Hc H. unfold resizeclient, configure. cbv zeta. frame_auto.
Qed.

Lemma resize_frame (P : cid -> Prop) c x y w h i g0 g :
  P c -> arrP P g0 g -> arrP P g0 (resize c x y w h i g).
Proof.
  intros Hc H. unfold resize.
  destruct (applysizehints g c x y w h i) as [changed [[[x' y'] w'] h']].
  destruct changed; auto using resizeclient_frame.
Qed.

Lemma tiled_loop_frame {S : Type} (body : S -> cid -> World -> S * World) g0 l0 :
  (forall st c g, tiled_in g0 l0 c -> arrP (tiled_in g0 l0) g0 g ->
                  arrP (tiled_in g0 l0) g0 (snd (body st c g))) ->
  forall l st g, incl l l0 -> arrP (tiled_in g0 l0) g0 g ->
                 arrP (tiled_in g0 l0) g0 (snd (tiled_loop body st l g)).
Proof.
  intros Hbody. induction l as [|c l IH]; intros st g Hl Hg; simpl; auto.
  assert (Hl' : incl l l0) by (intros k Hk; apply Hl; right; exact Hk).
  destruct (untiled g c) eqn:Hu; auto.
  specialize (Hbody st c g).
  destruct (body st c g) as [st' g1]. simpl in Hbody.
  apply IH; auto. apply Hbody; auto.
  split.
  - rewrite <- (arr_untiled _ _ _ Hg). exact Hu.
  - apply Hl. left. reflexivity.
Qed.

Ltac body_tac :=
  intros;
  repeat match goal with
         | |- context [match ?x with _ => _ end] => destruct x
         end;
  cbn [snd fst];
  try (apply resize_frame; assumption); try assumption.

Ltac layout_tac :=
  cbv zeta;
  repeat match goal with
         | |- frame _ _ _ _ _ (match ?x with _ => _ end) => destruct x
         | |- frame _ _ _ _ ?g ?g => apply frame_refl
         end;
  try (apply tiled_loop_frame; [ body_tac | apply incl_refl | apply frame_refl ]).

Lemma layout_frame f m g :
  arrP (tiled_in g (m_clients (monitor g m))) g (run_layout f m g).
Proof.
  destruct f; simpl.
  - unfold centeredmaster. layout_tac.
  - unfold monocle. cbv zeta.
    match goal with
    | |- frame _ _ _ _ _ (snd (tiled_loop _ _ _ ?w)) =>
        assert (H1 : arrP (tiled_in g (m_clients (monitor g m))) g w) by frame_auto
    end.
    apply tiled_loop_frame; auto.
    + body_tac.
    + rewrite (arr_clients _ _ _ H1). apply incl_refl.
  - unfold tile. layout_tac.
  - unfold deck. cbv zeta.
    repeat match goal with
           | |- frame _ _ _ _ _ (match ?x with (_, _) => _ end) => destruct x
           end.
    destruct (_ =? 0); [apply frame_refl|].
    repeat match goal with
           | |- frame _ _ _ _ _ (match ?x with (_, _) => _ end) => destruct x
           end.
    match goal with
    | |- frame _ _ _ _ _ (snd (tiled_loop _ _ _ ?w)) =>
        assert (H1 : arrP (tiled_in g (m_clients (monitor g m))) g w) by frame_auto
    end.
    apply tiled_loop_frame; auto.
    + body_tac.
    + apply incl_refl.
  - unfold dwindle, fibonacci. layout_tac.
  - unfold spiral, fibonacci. layout_tac.
  - unfold grid. layout_tac.
  - unfold horizgrid. layout_tac.
  - unfold gaplessgrid. layout_tac.
  - unfold bstack. layout_tac.
  - unfold bstackhoriz. layout_tac.
  - unfold centeredfloatingmaster. layout_tac.
Qed.

(** ** arrange *)

Lemma showhide_frame g0 l :
  forall g, arrP (shown g0) g0 g -> arrP (shown g0) g0 (showhide l g).
Proof.
  induction l as [|c l IH]; intros g H; simpl; auto.
  destruct (ISVISIBLE g c) eqn:Hv.
  - apply IH.
    assert (Hc : shown g0 c).
    { unfold shown. rewrite <- (arr_visible _ _ _ H). exact Hv. }
    destruct (_ && _); frame_auto.
    apply resize_frame; frame_auto.
  - frame_auto.
Qed.

Lemma updatebarpos_frame (P : cid -> Prop) m g0 g :
  arrP P g0 g -> arrP P g0 (updatebarpos m g).
Proof.
  intros H. unfold updatebarpos. cbv zeta. frame_auto.
Qed.

Lemma run_layout_frame f m g0 g :
  arrP (shown g0) g0 g -> arrP (shown g0) g0 (run_layout f m g).
Proof.
  intros H. apply frame_trans with g; auto.
  apply frame_weaken with (P := tiled_in g (m_clients (monitor g m))).
  - intros c [Hc _]. unfold shown. rewrite <- (arr_visible _ _ _ H).
    apply untiled_visible. exact Hc.
  - apply layout_frame.
Qed.

Lemma arrangemon_frame m g0 g :
  arrP (shown g0) g0 g -> arrP (shown g0) g0 (arrangemon m g).
Proof.
  intros H. unfold arrangemon. cbv zeta.
  match goal with
  | |- frame _ _ _ _ _ (match _ with Some f => run_layout f m ?w | None => _ end) =>
      assert (H1 : arrP (shown g0) g0 w)
        by (frame_auto; apply updatebarpos_frame; exact H)
  end.
  destruct (l_arrange _); auto using run_layout_frame.
Qed.

Lemma restack_below_frame (P : cid -> Prop) g0 l :
  forall s g, arrP P g0 g -> arrP P g0 (restack_below s l g).
Proof.
  induction l as [|c l IH]; intros s g H; simpl; auto.
  destruct (_ && _); apply IH; frame_auto.
Qed.

Lemma restack_frame (P : cid -> Prop) m g0 g :
  arrP P g0 g -> arrP P g0 (restack m g).
Proof.
  intros H. unfold restack, drawbar, drawtab. cbv zeta.
  destruct (m_sel _); frame_auto; apply restack_below_frame; frame_auto.
Qed.

Theorem arrange_frame m g0 g :
  arrP (shown g0) g0 g -> arrP (shown g0) g0 (arrange m g).
Proof.
  intros H. destruct m as [m|]; simpl.
  - apply restack_frame, arrangemon_frame, showhide_frame, H.
  - apply frame_fold.
    + intros. apply arrangemon_frame. assumption.
    + apply frame_fold; auto. intros. apply showhide_frame. assumption.
Qed.

Lemma arrange_evolves m g0 g : evolves g0 g -> evolves g0 (arrange m g).
Proof.
  intros H. apply frame_trans with g; auto.
  apply arrP_evolves with (P := shown g). apply arrange_frame, frame_refl.
Qed.

(** ** focus, titles, the fullscreen toggle *)

Lemma resizeclient_evolves c x y w h g0 g :
  evolves g0 g -> evolves g0 (resizeclient c x y w h g).
Proof.
  intros H. apply frame_trans with g; auto.
  apply arrP_evolves with (P := fun _ => True).
  apply resizeclient_frame; auto. apply frame_refl.
Qed.

Lemma detachstack_evolves c g0 g : evolves g0 g -> evolves g0 (detachstack c g).
Proof.
  intros H. unfold detachstack. cbv zeta. frame_auto.
Qed.

Lemma unfocus_evolves c s g0 g : evolves g0 g -> evolves g0 (unfocus c s g).
Proof.
  intros H. unfold unfocus, grabbuttons. frame_auto.
Qed.

Lemma focus_evolves c g0 g : evolves g0 g -> evolves g0 (focus c g).
Proof.
  intros H. unfold focus, drawtabs, drawbars. cbv zeta.
  apply frame_fold; [intros; unfold drawtab; frame_auto|].
  apply frame_fold; [intros; unfold drawbar; frame_auto|].
  apply frame_with_monitor; [|reflexivity].
  match goal with
  | |- frame _ _ _ _ _ (match ?c' with Some _ => _ | None => _ end) =>
      destruct c'
  end.
  - unfold setfocus, sendevent_takefocus, grabbuttons, attachstack, seturgent. cbv zeta.
    frame_auto;
      repeat first
        [ apply detachstack_evolves
        | apply frame_set_selmon; [reflexivity|]
        | apply unfocus_evolves
        | frame_step; try (solve [auto]) ].
  - frame_auto; apply unfocus_evolves; exact H.
Qed.

Lemma updatetitle_evolves c g0 g : evolves g0 g -> evolves g0 (updatetitle c g).
Proof.
  intros H. unfold updatetitle. frame_auto.
Qed.

Lemma setfullscreen_evolves c f g0 g : evolves g0 g -> evolves g0 (setfullscreen c f g).
Proof.
  intros H. unfold setfullscreen. cbv zeta.
  destruct (_ && _).
  - frame_auto. apply resizeclient_evolves. frame_auto.
  - destruct (_ && _); auto.
    apply arrange_evolves, resizeclient_evolves. frame_auto.
Qed.

Lemma togglebar_evolves g0 g : evolves g0 g -> evolves g0 (togglebar g).
Proof.
  intros H. unfold togglebar. cbv zeta.
  apply arrange_evolves. frame_auto.
  apply frame_trans with (with_monitor (g_selmon g)
    (fun mo => set_m_showbar (b2z (negb (truthy (m_showbar (monitor g (g_selmon g))))))
       (set_m_pertag
          (set_pt_showbars
             (aset (pt_showbars (m_pertag mo)) (pt_curtag (m_pertag mo))
                   (b2z (negb (truthy (m_showbar (monitor g (g_selmon g)))))))
             (m_pertag mo)) mo)) g).
  - frame_auto.
  - apply arrP_evolves with (P := fun _ => True). apply updatebarpos_frame, frame_refl.
Qed.

(** ** Reading the heap after an update *)

Lemma client_with_client_same c f g : client (with_client c f g) c = f (client g c).
Proof. unfold client, with_client, upd. simpl. rewrite Nat.eqb_refl. reflexivity. Qed.

Lemma client_with_client_other c c' f g :
  c' <> c -> client (with_client c f g) c' = client g c'.
Proof.
  intros H. unfold client, with_client, upd. simpl.
  destruct (Nat.eqb_spec c' c); congruence.
Qed.

Lemma monitor_with_monitor_same m f g : monitor (with_monitor m f g) m = f (monitor g m).
Proof. unfold monitor, with_monitor, upd. simpl. rewrite Nat.eqb_refl. reflexivity. Qed.

Lemma monitor_with_monitor_other m m' f g :
  m' <> m -> monitor (with_monitor m f g) m' = monitor g m'.
Proof.
  intros H. unfold monitor, with_monitor, upd. simpl.
  destruct (Nat.eqb_spec m' m); congruence.
Qed.

Lemma client_xreq r g k : client (xreq r g) k = client g k.
Proof. reflexivity. Qed.

Lemma monitor_xreq r g k : monitor (xreq r g) k = monitor g k.
Proof. reflexivity. Qed.

Lemma client_with_monitor m f g k : client (with_monitor m f g) k = client g k.
Proof. reflexivity. Qed.

Lemma monitor_with_client c f g k : monitor (with_client c f g) k = monitor g k.
Proof. reflexivity. Qed.

(** The log only grows. *)
Lemma frame_log_grows pc pm P ks g g' :
  frame pc pm P ks g g' -> exists l, g_xlog g' = g_xlog g ++ l.
Proof. intros H. destruct (fr_log _ _ _ _ _ _ H) as [l [Hl _]]. eauto. Qed.

(** * What arranging depends on

    Two states with the same [norm] are arranged alike. *)

Lemma norm_intro a b :
  (forall c, unsaved (client a c) = unsaved (client b c)) ->
  (forall m, monitor a m = monitor b m) ->
  g_mons a = g_mons b -> g_selmon a = g_selmon b ->
  g_bh a = g_bh b -> g_th a = g_th b -> g_sw a = g_sw b -> g_sh a = g_sh b ->
  g_enablegaps a = g_enablegaps b ->
  g_xtitle a = g_xtitle b -> g_xclass a = g_xclass b ->
  norm a = norm b.
Proof.
  intros Hc Hm H1 H2 H3 H4 H5 H6 H7 H8 H9. unfold norm.
  assert (Ec : (fun c => unsaved (g_clients a c)) = (fun c => unsaved (g_clients b c))).
  { apply functional_extensionality. exact Hc. }
  assert (Em : g_monitors a = g_monitors b).
  { apply functional_extensionality. exact Hm. }
  rewrite Ec, Em, H1, H2, H3, H4, H5, H6, H7, H8, H9. reflexivity.
Qed.

Lemma norm_client a b c : norm a = norm b -> unsaved (client a c) = unsaved (client b c).
Proof. intros H. exact (f_equal (fun w => g_clients w c) H). Qed.

Lemma norm_monitor a b m : norm a = norm b -> monitor a m = monitor b m.
Proof. intros H. exact (f_equal (fun w => g_monitors w m) H). Qed.

Lemma norm_bh a b : norm a = norm b -> g_bh a = g_bh b.
Proof. intros H. exact (f_equal g_bh H). Qed.

Lemma norm_enablegaps a b : norm a = norm b -> g_enablegaps a = g_enablegaps b.
Proof. intros H. exact (f_equal g_enablegaps H). Qed.

(** What is read through [norm] is the same in two states of one [norm]. *)
Lemma norm_reads {A} (r : World -> A) :
  (forall g, r (norm g) = r g) -> forall a b, norm a = norm b -> r a = r b.
Proof. intros Hr a b H. rewrite <- (Hr a), <- (Hr b), H. reflexivity. Qed.

Lemma norm_respects (F : World -> World) :
  (forall g, norm (F (norm g)) = norm (F g)) ->
  forall a b, norm a = norm b -> norm (F a) = norm (F b).
Proof. intros HF a b H. rewrite <- (HF a), <- (HF b), H. reflexivity. Qed.

Lemma norm_xreq r g : norm (xreq r g) = norm g.
Proof. reflexivity. Qed.

Lemma norm_with_client c f a b :
  norm a = norm b ->
  unsaved (f (client a c)) = unsaved (f (client b c)) ->
  norm (with_client c f a) = norm (with_client c f b).
Proof.
  intros H Hf.
  apply norm_intro; try (exact (f_equal _ H)).
  - intros k. unfold with_client, client, upd. simpl.
    destruct (Nat.eqb k c); [exact Hf|exact (norm_client a b k H)].
  - intros m. exact (norm_monitor a b m H).
  - exact (f_equal g_mons H).
  - exact (f_equal g_selmon H).
  - exact (f_equal g_bh H).
  - exact (f_equal g_th H).
  - exact (f_equal g_sw H).
  - exact (f_equal g_sh H).
  - exact (f_equal g_enablegaps H).
  - exact (f_equal g_xtitle H).
  - exact (f_equal g_xclass H).
Qed.

(** An update that acts on the fields [unsaved] keeps, as [h] does. *)
Lemma norm_with_client_through c f (h : Client -> Client) a b :
  norm a = norm b ->
  (forall x, unsaved (f x) = h (unsaved x)) ->
  norm (with_client c f a) = norm (with_client c f b).
Proof.
  intros H Hf. apply norm_with_client; [exact H|].
  rewrite !Hf, (norm_client a b c H). reflexivity.
Qed.

Lemma norm_with_monitor m f a b :
  norm a = norm b -> norm (with_monitor m f a) = norm (with_monitor m f b).
Proof.
  intros H.
  apply norm_intro.
  - intros k. exact (norm_client a b k H).
  - intros k. pose proof (norm_monitor a b m H) as H1.
    pose proof (norm_monitor a b k H) as H2.
    unfold with_monitor, monitor, upd in *. simpl.
    rewrite H1, H2. reflexivity.
  - exact (f_equal g_mons H).
  - exact (f_equal g_selmon H).
  - exact (f_equal g_bh H).
  - exact (f_equal g_th H).
  - exact (f_equal g_sw H).
  - exact (f_equal g_sh H).
  - exact (f_equal g_enablegaps H).
  - exact (f_equal g_xtitle H).
  - exact (f_equal g_xclass H).
Qed.

(** ** What the layouts read *)

Lemma norm_visible a b c : norm a = norm b -> ISVISIBLE a c = ISVISIBLE b c.
Proof. apply (norm_reads (fun g => ISVISIBLE g c)). reflexivity. Qed.

Lemma norm_untiled a b c : norm a = norm b -> untiled a c = untiled b c.
Proof. apply (norm_reads (fun g => untiled g c)). reflexivity. Qed.

Lemma norm_bw a b c : norm a = norm b -> c_bw (client a c) = c_bw (client b c).
Proof. apply (norm_reads (fun g => c_bw (client g c))). reflexivity. Qed.

Lemma norm_rect a b c : norm a = norm b -> rect a c = rect b c.
Proof. apply (norm_reads (fun g => rect g c)). reflexivity. Qed.

Lemma norm_HEIGHT a b c : norm a = norm b -> HEIGHT (client a c) = HEIGHT (client b c).
Proof. apply (norm_reads (fun g => HEIGHT (client g c))). reflexivity. Qed.

Lemma norm_WIDTH a b c : norm a = norm b -> WIDTH (client a c) = WIDTH (client b c).
Proof. apply (norm_reads (fun g => WIDTH (client g c))). reflexivity. Qed.

Lemma norm_nexttiled a b l : norm a = norm b -> nexttiled a l = nexttiled b l.
Proof.
  intros H. induction l as [|c l IH]; simpl; [reflexivity|].
  rewrite (norm_untiled a b c H), IH. reflexivity.
Qed.

Lemma norm_applysizehints a b c x y w h i :
  norm a = norm b -> applysizehints a c x y w h i = applysizehints b c x y w h i.
Proof. apply (norm_reads (fun g => applysizehints g c x y w h i)). reflexivity. Qed.

Lemma norm_borderless a b c : norm a = norm b -> borderless a c = borderless b c.
Proof.
  intros H. unfold borderless.
  rewrite (norm_reads (fun g => c_mon (client g c)) (fun _ => eq_refl) a b H).
  rewrite (norm_monitor a b _ H).
  rewrite !(norm_nexttiled a b _ H).
  rewrite (norm_reads (fun g => c_isfullscreen (client g c)) (fun _ => eq_refl) a b H).
  rewrite (norm_reads (fun g => c_isfloating (client g c)) (fun _ => eq_refl) a b H).
  reflexivity.
Qed.

(** ** resize *)

Lemma norm_resizeclient c x y w h a b :
  norm a = norm b -> norm (resizeclient c x y w h a) = norm (resizeclient c x y w h b).
Proof.
  intros H. unfold resizeclient, configure. cbv zeta.
  match goal with
  | |- context [borderless ?w1 c] =>
      match goal with
      | |- norm _ = norm ?rhs =>
          match rhs with
          | context [borderless ?w2 c] =>
              assert (H1 : norm w1 = norm w2)
          end
      end
  end.
  { apply (norm_with_client_through c _ (set_c_geom x y w h)); [exact H|].
    intros cl. reflexivity. }
  rewrite (norm_bw _ _ c H1), (norm_borderless _ _ c H1).
  destruct (borderless _ c); rewrite !norm_xreq.
  - match goal with
    | |- norm (with_client c (set_c_geom ?x' ?y' ?w' ?h') _) = _ =>
        apply (norm_with_client_through c _ (set_c_geom x' y' w' h')); [exact H1|]
    end.
    intros cl. reflexivity.
  - apply (norm_with_client_through c _ (set_c_geom x y w h)); [exact H1|].
    intros cl. reflexivity.
Qed.

Lemma norm_resize c x y w h i a b :
  norm a = norm b -> norm (resize c x y w h i a) = norm (resize c x y w h i b).
Proof.
  intros H. unfold resize. rewrite (norm_applysizehints a b c x y w h i H).
  destruct (applysizehints b c x y w h i) as [changed [[[x' y'] w'] h']].
  destruct changed; [apply norm_resizeclient|]; exact H.
Qed.

(** ** The loops over tiled clients *)

Lemma norm_tiled_loop {S : Type} (body : S -> cid -> World -> S * World) :
  (forall st c a b, norm a = norm b ->
     fst (body st c a) = fst (body st c b)
     /\ norm (snd (body st c a)) = norm (snd (body st c b))) ->
  forall l st a b, norm a = norm b ->
    fst (tiled_loop body st l a) = fst (tiled_loop body st l b)
    /\ norm (snd (tiled_loop body st l a)) = norm (snd (tiled_loop body st l b)).
Proof.
  intros Hbody. induction l as [|c l IH]; intros st a b H; simpl; [auto|].
  rewrite (norm_untiled a b c H).
  destruct (untiled b c); [apply IH; exact H|].
  specialize (Hbody st c a b H).
  destruct (body st c a) as [sa ga], (body st c b) as [sb gb].
  simpl in Hbody. destruct Hbody as [-> Hg]. apply IH. exact Hg.
Qed.

(** A loop whose body leaves the state alone. *)
Ltac pure_body :=
  intros;
  repeat match goal with
         | |- context [match ?x with _ => _ end] => destruct x
         end;
  (split; [reflexivity|assumption]).

Ltac norm_pure_loops a b H :=
  repeat match goal with
         | |- context [fst (tiled_loop ?bd ?s0 ?l a)] =>
             let Hb := fresh "Hb" in
             assert (Hb : forall s k x y, norm x = norm y ->
                            fst (bd s k x) = fst (bd s k y)
                            /\ norm (snd (bd s k x)) = norm (snd (bd s k y)))
               by pure_body;
             rewrite (proj1 (norm_tiled_loop bd Hb l s0 a b H)); clear Hb
         end.

Lemma norm_count_tiled a b l : norm a = norm b -> count_tiled a l = count_tiled b l.
Proof.
  intros H. unfold count_tiled. apply norm_tiled_loop; [pure_body|exact H].
Qed.

Lemma norm_getgaps a b m : norm a = norm b -> getgaps a m = getgaps b m.
Proof.
  intros H. unfold getgaps.
  rewrite (norm_monitor a b m H), (norm_count_tiled a b _ H), (norm_enablegaps a b H).
  reflexivity.
Qed.

Lemma norm_getfacts a b m msize ssize :
  norm a = norm b -> getfacts a m msize ssize = getfacts b m msize ssize.
Proof.
  intros H. unfold getfacts.
  rewrite (norm_monitor a b m H), (norm_count_tiled a b _ H).
  norm_pure_loops a b H.
  reflexivity.
Qed.

Lemma norm_tile_extents a b m : norm a = norm b -> tile_extents a m = tile_extents b m.
Proof.
  intros H. unfold tile_extents.
  rewrite (norm_monitor a b m H), (norm_getgaps a b m H). reflexivity.
Qed.

Lemma norm_count_visible a b l : norm a = norm b -> count_visible a l = count_visible b l.
Proof.
  intros H. unfold count_visible. f_equal. f_equal.
  induction l as [|c l IH]; simpl; [reflexivity|].
  rewrite (norm_visible a b c H), IH. reflexivity.
Qed.

(** ** The layouts *)

(** The body of a layout loop: what it reads of the state is read through
    [norm], and it changes the state by resize alone. *)
Ltac norm_body m :=
  let st := fresh "st" in
  let c := fresh "c" in
  let a := fresh "a" in
  let b := fresh "b" in
  let H := fresh "H" in
  intros st c a b H;
  cbv beta zeta;
  repeat match goal with
         | |- context [match ?x with _ => _ end] => destruct x
         end;
  cbv beta zeta; cbn [fst snd];
  rewrite ?(norm_bw a b c H), ?(norm_monitor a b m H), ?(norm_bh a b H);
  repeat match goal with
         | |- context [match ?x with _ => _ end] => destruct x
         end;
  cbv beta zeta; cbn [fst snd];
  try match goal with
      | |- context [resize c ?x ?y ?w ?h ?i a] =>
          let Hr := fresh "Hr" in
          pose proof (norm_resize c x y w h i a b H) as Hr;
          rewrite ?(norm_HEIGHT _ _ c Hr), ?(norm_WIDTH _ _ c Hr);
          (split; [reflexivity|exact Hr])
      end;
  try (split; [reflexivity|assumption]).

(** The reads of a layout before its loop. *)
Ltac norm_reads_tac a b m H :=
  rewrite ?(norm_monitor a b m H), ?(norm_getgaps a b m H),
    ?(norm_tile_extents a b m H), ?(norm_bh a b H);
  repeat match goal with
         | |- context [getfacts a m ?x ?y] => rewrite (norm_getfacts a b m x y H)
         end;
  repeat match goal with
         | |- context [count_visible a ?l] => rewrite (norm_count_visible a b l H)
         end;
  norm_pure_loops a b H.

Ltac norm_layout a b m H :=
  cbv zeta;
  repeat (norm_reads_tac a b m H;
          match goal with
          | |- norm (match ?x with _ => _ end) = _ => destruct x
          end);
  norm_reads_tac a b m H;
  try exact H;
  try (apply norm_tiled_loop; [norm_body m|]; try exact H).

Lemma norm_tile m a b : norm a = norm b -> norm (tile m a) = norm (tile m b).
Proof. intros H. unfold tile. norm_layout a b m H. Qed.

Lemma norm_monocle m a b : norm a = norm b -> norm (monocle m a) = norm (monocle m b).
Proof.
  intros H. unfold monocle. cbv zeta. norm_reads_tac a b m H.
  match goal with
  | |- norm (snd (tiled_loop _ _ _ ?wa)) = norm (snd (tiled_loop _ _ _ ?wb)) =>
      assert (H1 : norm wa = norm wb)
        by (destruct (_ >? 0); [apply norm_with_monitor|]; exact H)
  end.
  match goal with
  | |- norm (snd (tiled_loop _ _ (m_clients (monitor ?wa m)) _)) = _ =>
      rewrite (norm_monitor wa _ m H1)
  end.
  apply norm_tiled_loop; [norm_body m|exact H1].
Qed.

Lemma norm_deck m a b : norm a = norm b -> norm (deck m a) = norm (deck m b).
Proof.
  intros H. unfold deck. cbv zeta.
  repeat (norm_reads_tac a b m H;
          match goal with
          | |- norm (match ?x with (_, _) => _ end) = _ => destruct x
          end).
  norm_reads_tac a b m H.
  destruct (_ =? 0); [exact H|].
  repeat (norm_reads_tac a b m H;
          match goal with
          | |- norm (match ?x with (_, _) => _ end) = _ => destruct x
          end).
  norm_reads_tac a b m H.
  match goal with
  | |- norm (snd (tiled_loop _ _ _ ?wa)) = norm (snd (tiled_loop _ _ _ ?wb)) =>
      assert (H1 : norm wa = norm wb)
        by (destruct (_ >? 0); [apply norm_with_monitor|]; exact H)
  end.
  apply norm_tiled_loop; [norm_body m|exact H1].
Qed.

Lemma norm_fibonacci m s a b :
  norm a = norm b -> norm (fibonacci m s a) = norm (fibonacci m s b).
Proof. intros H. unfold fibonacci. norm_layout a b m H. Qed.

Lemma norm_run_layout f m a b :
  norm a = norm b -> norm (run_layout f m a) = norm (run_layout f m b).
Proof.
  intros H. destruct f; simpl.
  - unfold centeredmaster. norm_layout a b m H.
  - apply norm_monocle, H.
  - apply norm_tile, H.
  - apply norm_deck, H.
  - apply norm_fibonacci, H.
  - apply norm_fibonacci, H.
  - unfold grid. norm_layout a b m H.
  - unfold horizgrid. norm_layout a b m H.
  - unfold gaplessgrid. norm_layout a b m H.
  - unfold bstack. norm_layout a b m H.
  - unfold bstackhoriz. norm_layout a b m H.
  - unfold centeredfloatingmaster. norm_layout a b m H.
Qed.

(** ** arrange *)

Ltac norm_client_reads a b c H :=
  rewrite ?(norm_reads (fun g => c_win (client g c)) (fun _ => eq_refl) a b H),
    ?(norm_reads (fun g => c_x (client g c)) (fun _ => eq_refl) a b H),
    ?(norm_reads (fun g => c_y (client g c)) (fun _ => eq_refl) a b H),
    ?(norm_reads (fun g => c_w (client g c)) (fun _ => eq_refl) a b H),
    ?(norm_reads (fun g => c_h (client g c)) (fun _ => eq_refl) a b H),
    ?(norm_reads (fun g => c_mon (client g c)) (fun _ => eq_refl) a b H),
    ?(norm_reads (fun g => c_isfloating (client g c)) (fun _ => eq_refl) a b H),
    ?(norm_reads (fun g => c_isfullscreen (client g c)) (fun _ => eq_refl) a b H).

Lemma norm_showhide l : forall a b,
  norm a = norm b -> norm (showhide l a) = norm (showhide l b).
Proof.
  induction l as [|c l IH]; intros a b H; cbn [showhide]; [exact H|].
  rewrite (norm_visible a b c H).
  destruct (ISVISIBLE b c).
  - cbv zeta. apply IH. rewrite !monitor_xreq.
    norm_client_reads a b c H. rewrite (norm_monitor a b _ H).
    destruct (_ && _); [apply norm_resize|]; rewrite !norm_xreq; exact H.
  - cbv zeta. rewrite !norm_xreq. apply IH. exact H.
Qed.

Lemma norm_updatebarpos m a b :
  norm a = norm b -> norm (updatebarpos m a) = norm (updatebarpos m b).
Proof.
  intros H. unfold updatebarpos. cbv zeta.
  rewrite ?(norm_reads g_th (fun _ => eq_refl) a b H).
  repeat (norm_reads_tac a b m H;
          match goal with
          | |- norm (match ?x with _ => _ end) = _ => destruct x
          end).
  apply norm_with_monitor. exact H.
Qed.

Lemma norm_arrangemon m a b :
  norm a = norm b -> norm (arrangemon m a) = norm (arrangemon m b).
Proof.
  intros H. unfold arrangemon. cbv zeta.
  pose proof (norm_updatebarpos m a b H) as H1.
  set (a1 := updatebarpos m a) in *. set (b1 := updatebarpos m b) in *.
  rewrite (norm_monitor a1 b1 m H1).
  match goal with
  | |- norm (match _ with Some f => run_layout f m ?wa | None => _ end)
       = norm (match _ with Some f2 => run_layout f2 m ?wb | None => _ end) =>
      assert (H2 : norm wa = norm wb)
        by (apply norm_with_monitor; rewrite !norm_xreq; exact H1);
      set (a2 := wa) in *; set (b2 := wb) in *
  end.
  rewrite (norm_monitor a2 b2 m H2).
  destruct (l_arrange _); [apply norm_run_layout|]; exact H2.
Qed.

Lemma norm_restack_below l : forall s g, norm (restack_below s l g) = norm g.
Proof.
  induction l as [|c l IH]; intros s g; simpl; [reflexivity|].
  destruct (_ && _); rewrite IH; reflexivity.
Qed.

Lemma norm_restack m g : norm (restack m g) = norm g.
Proof.
  unfold restack, drawbar, drawtab. cbv zeta.
  destruct (m_sel _); [|reflexivity].
  rewrite !norm_xreq.
  destruct (has_arrange _); [rewrite norm_restack_below|];
    destruct (_ || _); reflexivity.
Qed.

(** Arranging a monitor depends on the [norm] of the state alone. *)
Lemma norm_arrange m a b :
  norm a = norm b -> norm (arrange (Some m) a) = norm (arrange (Some m) b).
Proof.
  intros H. unfold arrange. cbv zeta. rewrite !norm_restack.
  apply norm_arrangemon. rewrite (norm_monitor a b m H). apply norm_showhide. exact H.
Qed.
(** * togglefloating *)

(** C10. togglefloating does nothing when no client is selected, and nothing
    when the selected client is fullscreen: the whole state, and so the
    client's isfloating flag, its geometry and every field of the monitor, is
    the one before the call. *)
Theorem togglefloating_noop (g : World) :
  match m_sel (monitor g (g_selmon g)) with
  | None => togglefloating g = g
  | Some s =>
      if truthy (c_isfullscreen (client g s)) then togglefloating g = g else True
  end.
Proof.
  unfold togglefloating.
  destruct (m_sel (monitor g (g_selmon g))) as [s|]; [|reflexivity].
  destruct (truthy (c_isfullscreen (client g s))); [reflexivity|exact I].
Qed.

(** * swallow *)

(** What swallow does once the child passed the test. *)
Lemma swallow_effects (p c : cid) (g : World) :
  truthy (c_noswallow (client g c)) || truthy (c_isterminal (client g c)) = false ->
  let g' := swallow p c g in
  let m := c_mon (client g c) in
  g' <> g
  /\ m_clients (monitor g' m) = unlink c (m_clients (monitor g m))
  /\ m_stack (monitor g' m) = unlink c (m_stack (monitor g m))
  /\ (exists l,
        g_xlog g' =
        g_xlog g ++ XSetWMState (c_win (client g c)) WithdrawnState
                 :: XUnmapWindow (c_win (client g p)) :: l)
  /\ c_win (client g' p) = c_win (client g c)
  /\ c_win (client g' c) = c_win (client g p)
  /\ c_swallowing (client g' p) = Some c.
Proof.
  intros Hflags. cbv zeta. unfold swallow. rewrite Hflags.
  replace (truthy (c_noswallow (client g c)) && negb (truthy 1)
           && truthy (c_isfloating (client g c))) with false
    by (destruct (truthy (c_noswallow (client g c))); reflexivity).
  cbv zeta.
  set (m := c_mon (client g c)).
  set (g2 := detachstack c (detach c g)).
  assert (Hc2 : forall k, client g2 k = client g k).
  { intros k. unfold g2, detachstack, detach. cbv zeta.
    destruct (same_client _ c); reflexivity. }
  assert (Hm2 : m_clients (monitor g2 m) = unlink c (m_clients (monitor g m))
                /\ m_stack (monitor g2 m) = unlink c (m_stack (monitor g m))).
  { unfold g2, detachstack. cbv zeta.
    replace (c_mon (client (detach c g) c)) with m by reflexivity.
    destruct (same_client _ c);
      repeat rewrite monitor_with_monitor_same; unfold detach; fold m;
      rewrite monitor_with_monitor_same; split; reflexivity. }
  assert (Hl2 : g_xlog g2 = g_xlog g).
  { unfold g2, detachstack, detach. cbv zeta. destruct (same_client _ c); reflexivity. }
  set (g3 := xreq (XUnmapWindow (c_win (client (setclientstate c WithdrawnState g2) p)))
                  (setclientstate c WithdrawnState g2)).
  assert (Hl3 : g_xlog g3 = g_xlog g ++ [XSetWMState (c_win (client g c)) WithdrawnState;
                                         XUnmapWindow (c_win (client g p))]).
  { unfold g3, setclientstate, xreq. simpl. rewrite Hl2, <- app_assoc.
    change (client (set_g_xlog ?l g2) ?k) with (client g2 k).
    rewrite !Hc2. reflexivity. }
  assert (Hc3 : forall k, client g3 k = client g k) by (intros k; apply Hc2).
  assert (Hm3 : forall k, monitor g3 k = monitor g2 k) by reflexivity.
  set (g4 := with_client c (set_c_mon (c_mon (client (with_client p (set_c_swallowing (Some c)) g3) p)))
               (with_client p (set_c_swallowing (Some c)) g3)).
  set (g5 := with_client c (set_c_win (c_win (client g4 p)))
               (with_client p (set_c_win (c_win (client g4 c))) g4)).
  assert (Hw : c_win (client g5 p) = c_win (client g c)
               /\ c_win (client g5 c) = c_win (client g p)
               /\ c_swallowing (client g5 p) = Some c).
  { unfold g5, g4. destruct (Nat.eq_dec p c) as [->|Hpc].
    - repeat rewrite client_with_client_same. simpl.
      fold (client g2 c). rewrite !Hc2. auto.
    - assert (Hcp : c <> p) by auto.
      repeat first
        [ rewrite client_with_client_same
        | rewrite (client_with_client_other c p) by exact Hpc
        | rewrite (client_with_client_other p c) by exact Hcp ].
      simpl. fold (client g2 c). fold (client g2 p). rewrite !Hc2. auto. }
  assert (Hm5 : forall k, monitor g5 k = monitor g2 k) by reflexivity.
  assert (Hl5 : g_xlog g5 = g_xlog g3) by reflexivity.
  match goal with
  | |- updateclientlist (configure p (arrange _ ?b)) <> _ /\ _ => set (g6 := b)
  end.
  match goal with
  | |- updateclientlist (configure p (arrange ?a g6)) <> _ /\ _ =>
      set (g7 := arrange a g6)
  end.
  assert (Hc6 : forall k, cstable (client g6 k) = cstable (client g5 k)).
  { intros k. apply (fr_client cstable mstable (fun _ => True) false g5 g6).
    unfold g6, updatetitle. frame_auto. }
  assert (Hm6 : forall k, monitor g6 k = monitor g5 k) by reflexivity.
  assert (Hl6 : exists l, g_xlog g6 = g_xlog g5 ++ l).
  { eexists. unfold g6, xreq, updatetitle. simpl. reflexivity. }
  assert (H7 : arrP (shown g6) g6 g7) by (apply arrange_frame, frame_refl).
  set (g' := updateclientlist (configure p g7)).
  assert (Hc' : forall k, client g' k = client g7 k).
  { intros k. unfold g', updateclientlist, configure.
    rewrite !client_xreq. reflexivity. }
  assert (Hm' : forall k, monitor g' k = monitor g7 k).
  { intros k. unfold g', updateclientlist, configure.
    rewrite !monitor_xreq. reflexivity. }
  assert (Hl' : exists l, g_xlog g' = g_xlog g7 ++ l).
  { eexists. unfold g', updateclientlist, configure, xreq. simpl.
    rewrite <- app_assoc. reflexivity. }
  assert (Hlog : exists l,
             g_xlog g' =
             g_xlog g ++ XSetWMState (c_win (client g c)) WithdrawnState
                      :: XUnmapWindow (c_win (client g p)) :: l).
  { destruct Hl' as [l1 Hl1]. destruct (frame_log_grows _ _ _ _ _ _ H7) as [l2 Hl2'].
    destruct Hl6 as [l3 Hl3']. exists (l3 ++ l2 ++ l1).
    rewrite Hl1, Hl2', Hl3', Hl5, Hl3. rewrite <- !app_assoc. reflexivity. }
  assert (Hwin : forall k, c_win (client g' k) = c_win (client g5 k)
                           /\ c_swallowing (client g' k) = c_swallowing (client g5 k)).
  { intros k. rewrite Hc'.
    pose proof (arrP_evolves _ _ _ H7) as He.
    split.
    - rewrite (frame_cfield _ _ _ _ c_win _ _ k He) by reflexivity.
      exact (f_equal c_win (Hc6 k)).
    - rewrite (frame_cfield _ _ _ _ c_swallowing _ _ k He) by reflexivity.
      exact (f_equal c_swallowing (Hc6 k)). }
  repeat split.
  - intros F. destruct Hlog as [l Hl]. rewrite F in Hl.
    apply (f_equal (@List.length XReq)) in Hl. rewrite length_app in Hl. simpl in Hl. lia.
  - rewrite Hm', (arr_clients _ _ _ H7), Hm6, Hm5. apply Hm2.
  - rewrite Hm', (arr_stack _ _ _ H7), Hm6, Hm5. apply Hm2.
  - exact Hlog.
  - rewrite (proj1 (Hwin p)). apply Hw.
  - rewrite (proj1 (Hwin c)). apply Hw.
  - rewrite (proj2 (Hwin p)). apply Hw.
Qed.

(** ** Unlinking from a chain *)

Lemma unlink_incl c l k : In k (unlink c l) -> In k l.
Proof.
  induction l as [|d l IH]; simpl; [auto|].
  destruct (Nat.eqb_spec d c) as [->|Hne]; simpl; intuition.
Qed.

Lemma unlink_absent c l : ~ In c l -> unlink c l = l.
Proof.
  induction l as [|d l IH]; simpl; intros H; [reflexivity|].
  destruct (Nat.eqb_spec d c) as [->|Hne].
  - exfalso. apply H. left. reflexivity.
  - rewrite IH; [reflexivity|]. intros F. apply H. right. exact F.
Qed.

Lemma unlink_NoDup c l : NoDup l -> NoDup (unlink c l) /\ ~ In c (unlink c l).
Proof.
  induction 1 as [|d l Hd Hnd [IH1 IH2]]; simpl.
  - split; [constructor|auto].
  - destruct (Nat.eqb_spec d c) as [->|Hne].
    + split; assumption.
    + split.
      * constructor; [|exact IH1]. intros F. apply Hd. eapply unlink_incl. exact F.
      * simpl. intros [F|F]; [congruence|contradiction].
Qed.

Lemma filter_absent c l : ~ In c l -> filter (fun k => negb (Nat.eqb k c)) l = l.
Proof.
  induction l as [|d l IH]; simpl; intros H; [reflexivity|].
  destruct (Nat.eqb_spec d c) as [->|Hne]; simpl.
  - exfalso. apply H. left. reflexivity.
  - rewrite IH; [reflexivity|]. intros F. apply H. right. exact F.
Qed.

Lemma unlink_filter c l :
  NoDup l -> unlink c l = filter (fun k => negb (Nat.eqb k c)) l.
Proof.
  induction 1 as [|d l Hd Hnd IH]; simpl; [reflexivity|].
  destruct (Nat.eqb_spec d c) as [->|Hne]; simpl.
  - symmetry. apply filter_absent. exact Hd.
  - rewrite IH. reflexivity.
Qed.

(** C4. swallow returns at once, leaving the whole state as it is, exactly
    when the child has noswallow or isterminal set.  Otherwise the state
    changes: the child is unlinked from the client chain and from the focus
    stack of its monitor (on a chain that holds no client twice the child is
    then not on the chain, and the chain is the old one without the child,
    the others in their order), WM_STATE of the child's window is set to
    WithdrawnState, the terminal's window is unmapped, the two window handles
    are exchanged and the terminal's swallowing pointer is the child. *)
Theorem swallow_guard (p c : cid) (g : World) :
  let g' := swallow p c g in
  let m := c_mon (client g c) in
  let others := filter (fun k => negb (Nat.eqb k c)) in
  if truthy (c_noswallow (client g c)) || truthy (c_isterminal (client g c))
  then g' = g
  else
    g' <> g
    /\ m_clients (monitor g' m) = unlink c (m_clients (monitor g m))
    /\ m_stack (monitor g' m) = unlink c (m_stack (monitor g m))
    /\ (NoDup (m_clients (monitor g m)) ->
        ~ In c (m_clients (monitor g' m))
        /\ m_clients (monitor g' m) = others (m_clients (monitor g m)))
    /\ (NoDup (m_stack (monitor g m)) ->
        ~ In c (m_stack (monitor g' m))
        /\ m_stack (monitor g' m) = others (m_stack (monitor g m)))
    /\ (exists l,
          g_xlog g' =
          g_xlog g ++ XSetWMState (c_win (client g c)) WithdrawnState
                   :: XUnmapWindow (c_win (client g p)) :: l)
    /\ c_win (client g' p) = c_win (client g c)
    /\ c_win (client g' c) = c_win (client g p)
    /\ c_swallowing (client g' p) = Some c.
Proof.
  cbv zeta.
  destruct (truthy (c_noswallow (client g c)) || truthy (c_isterminal (client g c)))
    eqn:Hflags.
  - unfold swallow. rewrite Hflags. reflexivity.
  - destruct (swallow_effects p c g Hflags) as (H1 & H2 & H3 & H4 & H5 & H6 & H7).
    repeat split; try assumption.
    + rewrite H2. apply unlink_NoDup. assumption.
    + rewrite H2. apply unlink_filter. assumption.
    + rewrite H3. apply unlink_NoDup. assumption.
    + rewrite H3. apply unlink_filter. assumption.
Qed.

(** The terminal 1 swallows the client 2 of the chain 1, 2, 3: the chain and
    the focus stack are 1, 3 afterwards. *)
Lemma swallow_guard_witness :
  let g := with_client 1%nat (set_c_isterminal 1) (sample_world 2 [1; 2; 3]%nat 1) in
  let g' := swallow 1%nat 2%nat g in
  g' <> g
  /\ m_clients (monitor g' O) = [1; 3]%nat
  /\ m_stack (monitor g' O) = [1; 3]%nat
  /\ ~ In 2%nat (m_clients (monitor g' O))
  /\ ~ In 2%nat (m_stack (monitor g' O))
  /\ c_win (client g' 1%nat) = 102
  /\ c_win (client g' 2%nat) = 101
  /\ c_swallowing (client g' 1%nat) = Some 2%nat.
Proof.
  cbv zeta.
  pose proof (swallow_guard 1%nat 2%nat
                (with_client 1%nat (set_c_isterminal 1) (sample_world 2 [1; 2; 3]%nat 1))) as H.
  cbv zeta in H.
  change (truthy (c_noswallow (client (with_client 1%nat (set_c_isterminal 1)
            (sample_world 2 [1; 2; 3]%nat 1)) 2%nat))
          || truthy (c_isterminal (client (with_client 1%nat (set_c_isterminal 1)
            (sample_world 2 [1; 2; 3]%nat 1)) 2%nat))) with false in H.
  cbv iota in H.
  destruct H as (H1 & H2 & H3 & H4 & H5 & H6 & H7 & H8 & H9).
  assert (Hnd : NoDup [1; 2; 3]%nat).
  { repeat constructor; simpl; intuition discriminate. }
  destruct (H4 Hnd) as [H4a H4b]. destruct (H5 Hnd) as [H5a H5b].
  exact (conj H1 (conj H4b (conj H5b (conj H4a (conj H5a (conj H7 (conj H8 H9))))))).
Defined.
(** * view *)

Lemma apply_pertag_keeps {A} (f : Monitor -> A) mo :
  (forall v x, f (set_m_nmaster v x) = f x) ->
  (forall v x, f (set_m_mfact v x) = f x) ->
  (forall v x, f (set_m_sellt v x) = f x) ->
  (forall v x, f (set_m_lt0 v x) = f x) ->
  (forall v x, f (set_m_lt1 v x) = f x) ->
  f (apply_pertag mo) = f mo.
Proof.
  intros H1 H2 H3 H4 H5. unfold apply_pertag, set_m_lt. cbv zeta.
  repeat match goal with
         | |- context [if ?b then _ else _] => destruct b
         end;
    repeat first [rewrite H4 | rewrite H5 | rewrite H3 | rewrite H2 | rewrite H1];
    reflexivity.
Qed.

Lemma sel_tagset_set_m_tagset i v mo :
  m_tagset (set_m_tagset i v mo) i = v.
Proof.
  unfold m_tagset, set_m_tagset, idx2. destruct (i =? 0); reflexivity.
Qed.

(** What togglebar, focus and arrange leave alone in every monitor. *)
Lemma evolves_tag_state g g' m :
  evolves g g' ->
  m_seltags (monitor g' m) = m_seltags (monitor g m)
  /\ (forall i, m_tagset (monitor g' m) i = m_tagset (monitor g m) i)
  /\ pt_curtag (m_pertag (monitor g' m)) = pt_curtag (m_pertag (monitor g m))
  /\ pt_prevtag (m_pertag (monitor g' m)) = pt_prevtag (m_pertag (monitor g m)).
Proof.
  intros H. repeat split; [|intros i| |].
  - apply (frame_mfield _ _ _ _ m_seltags _ _ m H). reflexivity.
  - apply (frame_mfield _ _ _ _ (fun x => m_tagset x i) _ _ m H). reflexivity.
  - apply (frame_mfield _ _ _ _ (fun x => pt_curtag (m_pertag x)) _ _ m H). reflexivity.
  - apply (frame_mfield _ _ _ _ (fun x => pt_prevtag (m_pertag x)) _ _ m H). reflexivity.
Qed.

(** C1. view on the selected monitor.  When [mask & TAGMASK] is the active
    tagset, view changes nothing.  Otherwise seltags is flipped; for a nonzero
    [mask & TAGMASK] the newly active slot holds [mask & TAGMASK] and prevtag
    is the old curtag; for a zero one the active tagset is what the other
    slot held, and curtag and prevtag are exchanged. *)
Theorem view_spec (ui : Z) (g : World) :
  let m := g_selmon g in
  let mo := monitor g m in
  let mo' := monitor (view ui g) m in
  let mask := Z.land ui TAGMASK in
  if mask =? sel_tagset mo then view ui g = g
  else
    m_seltags mo' = Z.lxor (m_seltags mo) 1
    /\ if truthy mask
       then sel_tagset mo' = mask
            /\ pt_prevtag (m_pertag mo') = pt_curtag (m_pertag mo)
       else sel_tagset mo' = m_tagset mo (Z.lxor (m_seltags mo) 1)
            /\ pt_curtag (m_pertag mo') = pt_prevtag (m_pertag mo)
            /\ pt_prevtag (m_pertag mo') = pt_curtag (m_pertag mo).
Proof.
  cbv zeta. unfold view.
  destruct (Z.land ui TAGMASK =? sel_tagset (monitor g (g_selmon g))); [reflexivity|].
  cbv zeta.
  set (m := g_selmon g).
  set (g1 := with_monitor m (fun mo => set_m_seltags (Z.lxor (m_seltags mo) 1) mo) g).
  match goal with
  | |- context [with_monitor m apply_pertag ?w] => set (g2 := w)
  end.
  set (g3 := with_monitor m apply_pertag g2).
  match goal with
  | |- context [focus None ?w] => set (g4 := w)
  end.
  assert (H34 : evolves g3 g4).
  { unfold g4. destruct (negb _); [apply togglebar_evolves|]; apply frame_refl. }
  match goal with
  | |- context [arrange ?a ?w] => set (g5 := arrange a w)
  end.
  assert (H35 : evolves g3 g5).
  { unfold g5. apply arrange_evolves, focus_evolves, H34. }
  destruct (evolves_tag_state _ _ m H35) as [Es [Et [Ec Ep]]].
  unfold sel_tagset. rewrite Es, Et, Ec, Ep.
  assert (H3 : monitor g3 m = apply_pertag (monitor g2 m)).
  { unfold g3. apply monitor_with_monitor_same. }
  rewrite H3.
  rewrite (apply_pertag_keeps m_seltags) by reflexivity.
  rewrite (apply_pertag_keeps (fun x => m_tagset x _)) by reflexivity.
  rewrite !(apply_pertag_keeps (fun x => pt_curtag (m_pertag x))) by reflexivity.
  rewrite !(apply_pertag_keeps (fun x => pt_prevtag (m_pertag x))) by reflexivity.
  assert (H1 : monitor g1 m = set_m_seltags (Z.lxor (m_seltags (monitor g m)) 1) (monitor g m)).
  { unfold g1. rewrite monitor_with_monitor_same. reflexivity. }
  unfold g2.
  destruct (truthy (Z.land ui TAGMASK)).
  - rewrite monitor_with_monitor_same, H1. cbv zeta.
    split; [|split].
    + unfold set_m_tagset. destruct (_ =? 0); destruct (ui =? _); reflexivity.
    + change (m_seltags (set_m_pertag ?a ?b)) with (m_seltags b).
      change (m_tagset (set_m_pertag ?a ?b) ?i) with (m_tagset b i).
      replace (m_seltags (set_m_tagset _ _ _)) with (Z.lxor (m_seltags (monitor g m)) 1)
        by (unfold set_m_tagset; destruct (_ =? 0); reflexivity).
      apply sel_tagset_set_m_tagset.
    + unfold set_m_tagset. destruct (_ =? 0); destruct (ui =? _); reflexivity.
  - rewrite monitor_with_monitor_same, H1. cbv zeta.
    repeat split.
Qed.

(** * setmfact *)

Lemma Qltb_false a b : Qltb a b = false -> (b <= a)%Q.
Proof.
  unfold Qltb. intros H. apply negb_false_iff in H. apply Qle_bool_iff. exact H.
Qed.

Lemma Qltb_true a b : Qltb a b = true -> (a < b)%Q.
Proof.
  unfold Qltb. intros H. apply negb_true_iff in H.
  apply Qnot_le_lt. intros F. apply Qle_bool_iff in F. congruence.
Qed.

Lemma Qltb_lt a b : (a < b)%Q -> Qltb a b = true.
Proof.
  intros H. unfold Qltb. apply negb_true_iff.
  destruct (Qle_bool b a) eqn:E; [|reflexivity].
  apply Qle_bool_iff in E. lra.
Qed.

Lemma Qltb_ge a b : (b <= a)%Q -> Qltb a b = false.
Proof.
  intros H. unfold Qltb. apply negb_false_iff. apply Qle_bool_iff. exact H.
Qed.

Lemma round_not_nan prec emax x : round prec emax x <> FNaN.
Proof.
  unfold round. destruct (Qeq_bool x 0); [discriminate|].
  destruct (Qle_bool _ _); discriminate.
Qed.

Lemma dlit_one : dlit 1 = FFin 1.
Proof. vm_compute. reflexivity. Qed.

(** The [double] constants 0.1 and 0.9. *)
Lemma dlit_tenth : dlit (1 # 10) = FFin (3602879701896397 # 36028797018963968).
Proof. vm_compute. reflexivity. Qed.

Lemma dlit_nine_tenths : dlit (9 # 10) = FFin (8106479329266893 # 9007199254740992).
Proof. vm_compute. reflexivity. Qed.

(** For a [float], the test of setmfact against the [double] constants is
    the test against the real numbers 0.1 and 0.9: no [float] lies between
    0.1 and the constant 0.1, nor between 0.9 and the constant 0.9. *)
Lemma float_range_test x q :
  f32 x = FFin q ->
  flt (FFin q) (dlit (1 # 10)) || fgt (FFin q) (dlit (9 # 10)) = false
  <-> ((1 # 10) <= q /\ q <= (9 # 10))%Q.
Proof.
  intros Hq. rewrite dlit_tenth, dlit_nine_tenths. unfold fgt, flt.
  rewrite orb_false_iff. split.
  - intros [Hlo Hhi]. apply Qltb_false in Hlo, Hhi. split; [lra|].
    destruct (Qlt_le_dec q (1 # 2)) as [Hs|Hs]; [lra|].
    destruct (round_grid 24 128 x q (-1) ltac:(lia) ltac:(lia) Hq Hs) as [z Hz].
    change (pow2 (-1 - 24 + 1)) with (1 # 16777216)%Q in Hz.
    assert (Hz1 : (inject_Z z < inject_Z 15099495)%Q).
    { change (inject_Z 15099495) with (15099495 # 1)%Q. lra. }
    rewrite <- Zlt_Qlt in Hz1.
    assert (Hz2 : (inject_Z z <= inject_Z 15099494)%Q) by (rewrite <- Zle_Qle; lia).
    change (inject_Z 15099494) with (15099494 # 1)%Q in Hz2. lra.
  - intros [Hlo Hhi]. split; apply Qltb_ge; [|lra].
    assert (Hs : (pow2 (-4) <= q)%Q) by (change (pow2 (-4)) with (1 # 16)%Q; lra).
    destruct (round_grid 24 128 x q (-4) ltac:(lia) ltac:(lia) Hq Hs) as [z Hz].
    change (pow2 (-4 - 24 + 1)) with (1 # 134217728)%Q in Hz.
    assert (Hz1 : (inject_Z 13421772 < inject_Z z)%Q).
    { change (inject_Z 13421772) with (13421772 # 1)%Q. lra. }
    rewrite <- Zlt_Qlt in Hz1.
    assert (Hz2 : (inject_Z 13421773 <= inject_Z z)%Q) by (rewrite <- Zle_Qle; lia).
    change (inject_Z 13421773) with (13421773 # 1)%Q in Hz2. lra.
Qed.

(** The candidate is an infinity or a rounded number when the argument is not
    a NaN and the factor is a number. *)
Lemma mfact_candidate_cases af mo :
  af <> FNaN -> (exists q, m_mfact mo = FFin q) ->
  (exists s, mfact_candidate af mo = FInf s)
  \/ (exists x, mfact_candidate af mo = f32 x).
Proof.
  intros Ha [q Hq]. unfold mfact_candidate. rewrite Hq, dlit_one.
  assert (H : forall b, (exists s, d2f (fadd 24 128 af (FFin b)) = FInf s)
                        \/ (exists x, d2f (fadd 24 128 af (FFin b)) = f32 x)).
  { intros b. destruct af as [|s|a]; [congruence| |].
    - left. exists s. reflexivity.
    - simpl. destruct (round 24 128 (a + b)) as [|s|y] eqn:E.
      + exfalso. exact (round_not_nan _ _ _ E).
      + left. exists s. reflexivity.
      + right. exists y. reflexivity. }
  assert (H' : forall b, (exists s, d2f (fadd 53 1024 af (FFin b)) = FInf s)
                         \/ (exists x, d2f (fadd 53 1024 af (FFin b)) = f32 x)).
  { intros b. destruct af as [|s|a]; [congruence| |].
    - left. exists s. reflexivity.
    - simpl. destruct (round 53 1024 (a + b)) as [|s|y] eqn:E.
      + exfalso. exact (round_not_nan _ _ _ E).
      + left. exists s. reflexivity.
      + right. exists y. reflexivity. }
  destruct (flt af (FFin 1)); [apply H|apply H'].
Qed.

Lemma mfact_range_test af mo :
  af <> FNaN -> mfact_in_range (m_mfact mo) ->
  let f := mfact_candidate af mo in
  flt f (dlit (1 # 10)) || fgt f (dlit (9 # 10)) = false <-> mfact_in_range f.
Proof.
  intros Ha Hm. cbv zeta.
  assert (Hfin : exists q, m_mfact mo = FFin q).
  { destruct (m_mfact mo) as [| |q]; try contradiction. exists q. reflexivity. }
  destruct (mfact_candidate_cases af mo Ha Hfin) as [[s E]|[x E]]; rewrite E.
  - rewrite dlit_tenth, dlit_nine_tenths. simpl. destruct s; simpl; split;
      (discriminate || contradiction).
  - destruct (f32 x) as [|s|q] eqn:Ex.
    + exfalso. exact (round_not_nan _ _ _ Ex).
    + rewrite dlit_tenth, dlit_nine_tenths. simpl. destruct s; simpl; split;
        (discriminate || contradiction).
    + apply (float_range_test x q Ex).
Qed.

(** C8, as the code has it.  For a factor in [0.1, 0.9] and an argument that
    is not a NaN: setmfact changes nothing under the floating layout, and
    nothing when the candidate is outside [0.1, 0.9]; otherwise mfact, and
    the mfact slot of the current tag, become the candidate.  So the factor
    stays in [0.1, 0.9]. *)
Theorem setmfact_spec (af : cfloat) (g : World) :
  let m := g_selmon g in
  let mo := monitor g m in
  let f := mfact_candidate af mo in
  let g' := setmfact (Some af) g in
  mfact_in_range (m_mfact mo) -> af <> FNaN ->
  (if has_arrange mo
   then (~ mfact_in_range f -> g' = g)
        /\ (mfact_in_range f ->
            m_mfact (monitor g' m) = f
            /\ pt_mfacts (m_pertag (monitor g' m)) =
               aset (pt_mfacts (m_pertag mo)) (pt_curtag (m_pertag mo)) f)
   else g' = g)
  /\ mfact_in_range (m_mfact (monitor g' m)).
Proof.
  cbv zeta. intros Hm Ha.
  pose proof (mfact_range_test af (monitor g (g_selmon g)) Ha Hm) as Ht.
  cbv zeta in Ht. unfold setmfact. fold (mfact_candidate af (monitor g (g_selmon g))).
  set (m := g_selmon g) in *. set (mo := monitor g m) in *.
  set (f := mfact_candidate af mo) in *.
  destruct (has_arrange mo); simpl negb; cbv iota; [|split; [reflexivity|exact Hm]].
  destruct (flt f (dlit (1 # 10)) || fgt f (dlit (9 # 10))) eqn:Hr.
  - split; [|exact Hm]. split; [reflexivity|].
    intros Hin. apply Ht in Hin. discriminate.
  - match goal with
    | |- context [arrange (Some m) ?w] => set (g1 := w)
    end.
    assert (H : arrP (shown g1) g1 (arrange (Some m) g1))
      by apply arrange_frame, frame_refl.
    assert (Hf : m_mfact (monitor (arrange (Some m) g1) m) = f).
    { rewrite (frame_mfield _ _ _ _ m_mfact _ _ m H) by reflexivity.
      unfold g1. rewrite monitor_with_monitor_same. reflexivity. }
    assert (Hin : mfact_in_range f) by (apply Ht; reflexivity).
    split; [split|].
    + intros F. contradiction.
    + intros _. split; [exact Hf|].
      rewrite (frame_mfield _ _ _ _ (fun x => pt_mfacts (m_pertag x)) _ _ m H)
        by reflexivity.
      unfold g1. rewrite monitor_with_monitor_same. reflexivity.
    + rewrite Hf. exact Hin.
Qed.

(** The factor 0.5 and the argument 0.4: the [float] sum is 7549747 / 2^23,
    just below 0.9, and becomes the factor. *)
Lemma setmfact_spec_witness :
  let g := with_monitor O (set_m_mfact (flit (1 # 2))) (sample_world 2 [1; 2]%nat 1) in
  mfact_in_range (m_mfact (monitor g O))
  /\ flit (4 # 10) <> FNaN
  /\ mfact_candidate (flit (4 # 10)) (monitor g O) = FFin (7549747 # 8388608)
  /\ m_mfact (monitor (setmfact (Some (flit (4 # 10))) g) O) = FFin (7549747 # 8388608)
  /\ mfact_in_range (m_mfact (monitor (setmfact (Some (flit (4 # 10))) g) O)).
Proof.
  cbv zeta.
  assert (H1 : mfact_in_range
                 (m_mfact (monitor (with_monitor O (set_m_mfact (flit (1 # 2)))
                                      (sample_world 2 [1; 2]%nat 1)) O)))
    by (vm_compute; split; discriminate).
  assert (H2 : flit (4 # 10) <> FNaN) by (vm_compute; discriminate).
  split; [exact H1|]. split; [exact H2|].
  split; [vm_compute; reflexivity|].
  split; [vm_compute; reflexivity|].
  apply (setmfact_spec (flit (4 # 10))
           (with_monitor O (set_m_mfact (flit (1 # 2))) (sample_world 2 [1; 2]%nat 1))
           H1 H2).
Defined.

(** C8 as claimed fails under the floating layout: the candidate 0.05 + 0.5
    lies in [0.1, 0.9] and mfact does not become it. *)
Lemma setmfact_floating_counterexample :
  let g := with_monitor O (set_m_mfact (flit (1 # 2))) (sample_world 12 [1; 2]%nat 1) in
  let f := mfact_candidate (flit (5 # 100)) (monitor g (g_selmon g)) in
  has_arrange (monitor g (g_selmon g)) = false
  /\ mfact_in_range (m_mfact (monitor g (g_selmon g)))
  /\ mfact_in_range f
  /\ m_mfact (monitor (setmfact (Some (flit (5 # 100))) g) (g_selmon g)) <> f.
Proof.
  cbv zeta. split; [vm_compute; reflexivity|]. split; [|split].
  - vm_compute. split; discriminate.
  - vm_compute. split; discriminate.
  - vm_compute. discriminate.
Qed.

(** A NaN argument passes both comparisons of the test and becomes the
    factor. *)
Lemma setmfact_nan :
  m_mfact (monitor (setmfact (Some FNaN) (sample_world 2 [1; 2]%nat 1)) O) = FNaN.
Proof. vm_compute. reflexivity. Qed.
(** * The layouts resize tiled clients only *)

(** C9. Whatever the layout, a client that is floating, or not visible, or
    not on the chain of the arranged monitor, comes out of the arrange
    function as it went in; in particular its rectangle is unchanged. *)
Theorem layout_resizes_tiled_only (f : ArrangeFn) (m : mid) (g : World) (c : cid) :
  c_isfloating (client g c) <> 0
  \/ ISVISIBLE g c = false
  \/ ~ In c (m_clients (monitor g m)) ->
  let cl := client g c in
  let cl' := client (run_layout f m g) c in
  cl' = cl /\ (c_x cl', c_y cl', c_w cl', c_h cl') = (c_x cl, c_y cl, c_w cl, c_h cl).
Proof.
  intros H. cbv zeta.
  assert (E : client (run_layout f m g) c = client g c).
  { apply (fr_other _ _ _ _ _ _ (layout_frame f m g)).
    intros [Hu Hin]. unfold untiled in Hu. apply orb_false_elim in Hu.
    destruct Hu as [Hf Hv]. destruct H as [H|[H|H]].
    - unfold truthy in Hf. apply negb_false_iff, Z.eqb_eq in Hf. contradiction.
    - rewrite H in Hv. discriminate.
    - contradiction. }
  rewrite E. split; reflexivity.
Qed.

Lemma layout_resizes_tiled_only_witness :
  let g := with_client 2%nat (set_c_isfloating 1) (sample_world 2 [1; 2; 3]%nat 1) in
  client (run_layout LtTile O g) 2%nat = client g 2%nat
  /\ c_w (client (run_layout LtTile O g) 1%nat) = 1055.
Proof.
  cbv zeta. split.
  - apply (layout_resizes_tiled_only LtTile O
             (with_client 2%nat (set_c_isfloating 1) (sample_world 2 [1; 2; 3]%nat 1)) 2%nat).
    left. vm_compute. discriminate.
  - vm_compute. reflexivity.
Defined.

(** * The tag mask of a client *)

Lemma TAGMASK_ones : TAGMASK = Z.ones 25.
Proof. reflexivity. Qed.

Lemma valid_tags_range t : valid_tags t <-> 0 < t < 2 ^ 25.
Proof.
  unfold valid_tags. rewrite TAGMASK_ones, Z.land_ones by lia.
  split.
  - intros [Hn He]. pose proof (Z.mod_pos_bound t (2 ^ 25) ltac:(lia)). lia.
  - intros H. rewrite Z.mod_small by lia. lia.
Qed.

Lemma valid_tags_land ui : truthy (Z.land ui TAGMASK) = true -> valid_tags (Z.land ui TAGMASK).
Proof.
  intros H. unfold truthy in H. apply negb_true_iff, Z.eqb_neq in H.
  split.
  - rewrite <- Z.land_assoc, Z.land_diag. exact H.
  - rewrite <- Z.land_assoc, Z.land_diag. reflexivity.
Qed.

Lemma valid_tags_lxor t ui :
  valid_tags t -> truthy (Z.lxor t (Z.land ui TAGMASK)) = true ->
  valid_tags (Z.lxor t (Z.land ui TAGMASK)).
Proof.
  intros [_ Ht] H. unfold truthy in H. apply negb_true_iff, Z.eqb_neq in H.
  assert (E : Z.land (Z.lxor t (Z.land ui TAGMASK)) TAGMASK = Z.lxor t (Z.land ui TAGMASK)).
  { apply Z.bits_inj'. intros n Hn.
    rewrite Z.land_spec, !Z.lxor_spec, Z.land_spec.
    rewrite <- Ht at 1 2. rewrite Z.land_spec.
    destruct (Z.testbit t n), (Z.testbit ui n), (Z.testbit TAGMASK n); reflexivity. }
  split; rewrite E; auto.
Qed.

Lemma valid_tags_bit k : 0 <= k < 25 -> valid_tags (Z.shiftl 1 k).
Proof.
  intros H. apply valid_tags_range. rewrite Z.shiftl_1_l.
  split.
  - apply Z.pow_pos_nonneg; lia.
  - apply Z.pow_lt_mono_r; lia.
Qed.

(** ** tagdest holds tag indices *)

Lemma skip_occupied_bounds fuel : forall unocc i occ,
  unocc <= skip_occupied fuel unocc i occ <= Z.max unocc i.
Proof.
  induction fuel as [|fuel IH]; intros unocc i occ; simpl; [lia|].
  destruct (unocc <? i) eqn:Hlt; simpl; [|lia].
  apply Z.ltb_lt in Hlt.
  destruct (truthy _); [|lia].
  specialize (IH (unocc + 1) i occ). lia.
Qed.

Lemma aset_nat_Forall {A} (Q : A -> Prop) (l : list A) v :
  Forall Q l -> Q v -> forall n, Forall Q (aset_nat l n v).
Proof.
  intros Hl Hv. induction Hl as [|a l Ha Hl IH]; intros n; simpl.
  - destruct n; constructor.
  - destruct n; constructor; auto.
Qed.

Lemma aget_Forall {A} (Q : A -> Prop) (d : A) (l : list A) i :
  Q d -> Forall Q l -> Q (aget d l i).
Proof.
  intros Hd Hl. unfold aget. generalize (Z.to_nat i). intros n.
  revert n. induction Hl as [|a l Ha Hl IH]; intros [|n]; simpl; auto.
Qed.

Lemma organize_step_bounds st i :
  tag_index i ->
  (0 <= snd (fst st) < 25 /\ Forall tag_index (snd st)) ->
  (0 <= snd (fst (organize_step st i)) < 25 /\ Forall tag_index (snd (organize_step st i))).
Proof.
  intros Hi. destruct st as [[occ unocc] td]. simpl. intros [Hu Htd].
  unfold organize_step.
  pose proof (skip_occupied_bounds (Z.to_nat i) unocc i occ) as Hs.
  unfold tag_index in Hi.
  destruct (truthy _); simpl; split; try lia; auto.
  apply aset_nat_Forall; auto. unfold tag_index. lia.
Qed.

Lemma tagdest_of_bounds occ : Forall tag_index (tagdest_of occ).
Proof.
  unfold tagdest_of.
  assert (H : forall l st,
             Forall tag_index l ->
             (0 <= snd (fst st) < 25 /\ Forall tag_index (snd st)) ->
             Forall tag_index (snd (fold_left organize_step l st))).
  { induction l as [|i l IH]; intros st Hl Hst; simpl.
    - apply Hst.
    - inversion Hl; subst. apply IH; auto. apply organize_step_bounds; auto. }
  apply H.
  - unfold tag_indices. simpl. repeat constructor; unfold tag_index; lia.
  - simpl. split; [lia|]. repeat constructor; unfold tag_index; lia.
Qed.

Lemma organized_tag_valid occ t :
  valid_tags (Z.shiftl 1 (aget 0 (tagdest_of occ) (ffs t - 1))).
Proof.
  apply valid_tags_bit.
  apply (aget_Forall tag_index); [unfold tag_index; lia|apply tagdest_of_bounds].
Qed.

(** ** Each operation *)

Lemma evolves_tags g g' c : evolves g g' -> c_tags (client g' c) = c_tags (client g c).
Proof. intros H. apply (frame_cfield _ _ _ _ c_tags _ _ c H). reflexivity. Qed.

Lemma with_client_tags_valid c f g k :
  (k <> c -> valid_tags (c_tags (client g k))) ->
  (k = c -> valid_tags (c_tags (f (client g c)))) ->
  valid_tags (c_tags (client (with_client c f g) k)).
Proof.
  intros Hg Hf. destruct (Nat.eq_dec k c) as [->|Hk].
  - rewrite client_with_client_same. apply Hf. reflexivity.
  - rewrite client_with_client_other by exact Hk. apply Hg. exact Hk.
Qed.

Lemma sel_tagset_with_monitor m' f g m :
  (forall x, sel_tagset (f x) = sel_tagset x) ->
  sel_tagset (monitor (with_monitor m' f g) m) = sel_tagset (monitor g m).
Proof.
  intros Hf. destruct (Nat.eq_dec m m') as [->|Hm].
  - rewrite monitor_with_monitor_same. apply Hf.
  - rewrite monitor_with_monitor_other by exact Hm. reflexivity.
Qed.

Lemma apply_rule_frame c class instance g r :
  (forall k, k <> c -> client (apply_rule c class instance g r) k = client g k)
  /\ (forall m, monitor (apply_rule c class instance g r) m = monitor g m).
Proof.
  unfold apply_rule. destruct (rule_matches _ _ _ r); [|auto].
  destruct (find_monitor _ _ _); split; intros;
    rewrite ?monitor_with_client, ?client_with_client_other by assumption; reflexivity.
Qed.

Lemma apply_rules_frame c class instance rs : forall g,
  (forall k, k <> c ->
     client (fold_left (apply_rule c class instance) rs g) k = client g k)
  /\ (forall m, monitor (fold_left (apply_rule c class instance) rs g) m = monitor g m).
Proof.
  induction rs as [|r rs IH]; intros g; simpl; [auto|].
  destruct (IH (apply_rule c class instance g r)) as [Hc Hm].
  destruct (apply_rule_frame c class instance g r) as [Hc' Hm'].
  split; intros.
  - rewrite Hc, Hc'; auto.
  - rewrite Hm, Hm'. reflexivity.
Qed.

(** After applyrules the client carries a valid mask, whatever it carried
    before; the other clients are as they were. *)
Lemma applyrules_tags_valid rs c g :
  (forall m, valid_tags (sel_tagset (monitor g m))) ->
  valid_tags (c_tags (client (applyrules_with rs c g) c))
  /\ (forall k, k <> c -> client (applyrules_with rs c g) k = client g k).
Proof.
  intros Hm. unfold applyrules_with. cbv zeta.
  match goal with
  | |- context [fold_left (apply_rule c _ _) rs ?w] => set (g1 := w)
  end.
  match goal with
  | |- context [fold_left (apply_rule c ?cl ?ins) rs g1] =>
      destruct (apply_rules_frame c cl ins rs g1) as [Fc Fm];
      set (g2 := fold_left (apply_rule c cl ins) rs g1) in *
  end.
  split.
  - rewrite client_with_client_same.
    change (c_tags (set_c_tags ?v ?x)) with v.
    destruct (truthy (Z.land (c_tags (client g2 c)) TAGMASK)) eqn:Ht.
    + apply valid_tags_land. exact Ht.
    + rewrite Fm. unfold g1. rewrite monitor_with_client. apply Hm.
  - intros k Hk. rewrite client_with_client_other by exact Hk.
    rewrite Fc by exact Hk. unfold g1.
    rewrite client_with_client_other by exact Hk. reflexivity.
Qed.

Lemma tag_tags_valid ui g k :
  valid_tags (c_tags (client g k)) -> valid_tags (c_tags (client (tag ui g) k)).
Proof.
  intros Hc. unfold tag.
  destruct (m_sel _) as [s|]; [|apply Hc].
  destruct (truthy (Z.land ui TAGMASK)) eqn:Ht; [|apply Hc].
  cbv zeta.
  match goal with
  | |- context [arrange ?a (focus None ?w)] =>
      rewrite (evolves_tags w (arrange a (focus None w)))
        by (apply arrange_evolves, focus_evolves, frame_refl)
  end.
  apply with_client_tags_valid; intros; auto. apply valid_tags_land, Ht.
Qed.

Lemma toggletag_tags_valid ui g k :
  valid_tags (c_tags (client g k)) -> valid_tags (c_tags (client (toggletag ui g) k)).
Proof.
  intros Hc. unfold toggletag.
  destruct (m_sel _) as [s|]; [|apply Hc].
  cbv zeta.
  destruct (truthy (Z.lxor (c_tags (client g s)) (Z.land ui TAGMASK))) eqn:Ht; [|apply Hc].
  match goal with
  | |- context [arrange ?a (focus None ?w)] =>
      rewrite (evolves_tags w (arrange a (focus None w)))
        by (apply arrange_evolves, focus_evolves, frame_refl)
  end.
  apply with_client_tags_valid; intros; auto. subst k. apply valid_tags_lxor; auto.
Qed.

(** What sendmon leaves in [c->tags]: the active tagset of the target monitor
    for the client sent, unless it is on that monitor already; the mask it
    had for every other client. *)
Lemma sendmon_tags c m g k :
  c_tags (client (sendmon c m g) k)
  = if Nat.eqb (c_mon (client g c)) m then c_tags (client g k)
    else if Nat.eqb k c then sel_tagset (monitor g m) else c_tags (client g k).
Proof.
  unfold sendmon.
  destruct (Nat.eqb _ m); [reflexivity|]. cbv zeta.
  match goal with
  | |- context [arrange None (focus None ?w)] =>
      rewrite (evolves_tags w (arrange None (focus None w)))
        by (apply arrange_evolves, focus_evolves, frame_refl)
  end.
  unfold attachstack, attach. rewrite !client_with_monitor.
  destruct (Nat.eqb_spec k c) as [->|Hk].
  - rewrite client_with_client_same.
    change (c_tags (set_c_tags ?v ?x)) with v.
    rewrite monitor_with_client.
    unfold detachstack, detach, unfocus, grabbuttons. cbv zeta.
    destruct (same_client _ c);
      repeat first [ rewrite sel_tagset_with_monitor by reflexivity
                   | rewrite monitor_xreq ];
      reflexivity.
  - rewrite client_with_client_other by exact Hk.
    rewrite client_with_client_other by exact Hk.
    unfold detachstack, detach, unfocus, grabbuttons. cbv zeta.
    destruct (same_client _ c); repeat rewrite ?client_with_monitor, ?client_xreq;
      reflexivity.
Qed.

Lemma sendmon_tags_valid c m g k :
  (forall m, valid_tags (sel_tagset (monitor g m))) ->
  valid_tags (c_tags (client g k)) -> valid_tags (c_tags (client (sendmon c m g) k)).
Proof.
  intros Hm Hc. rewrite sendmon_tags.
  destruct (Nat.eqb _ m); [exact Hc|].
  destruct (Nat.eqb k c); [apply Hm|exact Hc].
Qed.

Lemma retag_fold_valid (F : Z -> Z) (l : list cid) k :
  (forall t, valid_tags (F t)) ->
  forall g, valid_tags (c_tags (client g k)) ->
    valid_tags
      (c_tags (client (fold_left
                         (fun g c => with_client c (fun cl => set_c_tags (F (c_tags cl)) cl) g)
                         l g) k)).
Proof.
  intros HF. induction l as [|c l IH]; intros g Hg; simpl; [apply Hg|].
  apply IH. apply with_client_tags_valid; intros; auto. apply HF.
Qed.

Lemma organizetags_tags_valid g k :
  valid_tags (c_tags (client g k)) -> valid_tags (c_tags (client (organizetags g) k)).
Proof.
  intros Hc. unfold organizetags. cbv zeta.
  match goal with
  | |- context [arrange ?a ?w] =>
      rewrite (evolves_tags w (arrange a w)) by (apply arrange_evolves, frame_refl)
  end.
  match goal with
  | |- context [fold_left ?f ?l g] =>
      assert (Hf : valid_tags (c_tags (client (fold_left f l g) k)))
  end.
  { apply (retag_fold_valid
             (fun t => Z.shiftl 1 (aget 0 (tagdest_of (occupied g (m_clients (monitor g (g_selmon g)))))
                                        (ffs t - 1)))); auto.
    intros t. apply organized_tag_valid. }
  destruct (m_sel _); rewrite ?client_with_monitor; apply Hf.
Qed.

Lemma apply_rules_tagless c class instance rs : forall g,
  forallb rule_tagless rs = true ->
  Z.land (c_tags (client g c)) TAGMASK = 0 ->
  Z.land (c_tags (client (fold_left (apply_rule c class instance) rs g) c)) TAGMASK = 0.
Proof.
  induction rs as [|r rs IH]; intros g Hrs Hg; simpl; [exact Hg|].
  simpl in Hrs. apply andb_true_iff in Hrs. destruct Hrs as [Hr Hrs].
  apply IH; auto.
  unfold apply_rule. destruct (rule_matches _ _ _ r); [|exact Hg].
  assert (E : Z.land (Z.lor (c_tags (client g c)) (r_tags r)) TAGMASK = 0).
  { rewrite Z.land_lor_distr_l, Hg. unfold rule_tagless in Hr.
    apply Z.eqb_eq in Hr. rewrite Hr. reflexivity. }
  destruct (find_monitor _ _ _).
  - rewrite client_with_client_same, client_with_client_same. exact E.
  - rewrite client_with_client_same. exact E.
Qed.

(** C7. When every monitor shows a valid tagset (a bit under TAGMASK, none
    outside it), each of applyrules, tag, toggletag, sendmon and organizetags
    leaves a valid mask on every client that carried one.  applyrules gives
    its client a valid mask whatever the client carried before (a new client
    carries none), and sendmon gives the client it moves the active tagset of
    the target monitor.  In particular: toggletag changes nothing when the
    XOR would be zero; tag changes nothing when [mask & TAGMASK] is zero and
    otherwise assigns [mask & TAGMASK]; applyrules gives the client the active
    tagset of its monitor when no rule brings a tag under TAGMASK. *)
Theorem tag_operations_keep_tags_valid (g : World) :
  (forall m, valid_tags (sel_tagset (monitor g m))) ->
  (forall op c, valid_tags (c_tags (client g c)) ->
                valid_tags (c_tags (client (run_tagop op g) c)))
  /\ (forall rs c, valid_tags (c_tags (client (applyrules_with rs c g) c)))
  /\ (forall c m, c_mon (client g c) <> m ->
        c_tags (client (sendmon c m g) c) = sel_tagset (monitor g m)
        /\ valid_tags (c_tags (client (sendmon c m g) c)))
  /\ (forall ui,
        match m_sel (monitor g (g_selmon g)) with
        | None => toggletag ui g = g /\ tag ui g = g
        | Some s =>
            (if truthy (Z.lxor (c_tags (client g s)) (Z.land ui TAGMASK))
             then c_tags (client (toggletag ui g) s)
                  = Z.lxor (c_tags (client g s)) (Z.land ui TAGMASK)
             else toggletag ui g = g)
            /\ (if truthy (Z.land ui TAGMASK)
                then c_tags (client (tag ui g) s) = Z.land ui TAGMASK
                     /\ valid_tags (c_tags (client (tag ui g) s))
                else tag ui g = g)
        end)
  /\ (forall rs c,
        let g' := applyrules_with rs c g in
        if forallb rule_tagless rs
        then c_tags (client g' c) = sel_tagset (monitor g (c_mon (client g' c)))
        else True).
Proof.
  intros Hinv. split; [|split; [|split; [|split]]].
  - intros op c Hc. destruct op as [rs c0|ui|ui|c0 m0|]; unfold run_tagop.
    + destruct (applyrules_tags_valid rs c0 g Hinv) as [Hs Ho].
      destruct (Nat.eq_dec c c0) as [->|Hk]; [exact Hs|].
      rewrite Ho by exact Hk. exact Hc.
    + apply tag_tags_valid, Hc.
    + apply toggletag_tags_valid, Hc.
    + apply sendmon_tags_valid; assumption.
    + apply organizetags_tags_valid, Hc.
  - intros rs c. apply applyrules_tags_valid, Hinv.
  - intros c m Hne. rewrite sendmon_tags.
    destruct (Nat.eqb_spec (c_mon (client g c)) m) as [E|_]; [contradiction|].
    rewrite Nat.eqb_refl. split; [reflexivity|apply Hinv].
  - intros ui. unfold toggletag, tag.
    destruct (m_sel (monitor g (g_selmon g))) as [s|]; [|auto].
    cbv zeta. split.
    + destruct (truthy (Z.lxor _ _)); [|reflexivity].
      match goal with
      | |- context [arrange ?a (focus None ?w)] =>
          rewrite (evolves_tags w (arrange a (focus None w)))
            by (apply arrange_evolves, focus_evolves, frame_refl)
      end.
      rewrite client_with_client_same. reflexivity.
    + destruct (truthy (Z.land ui TAGMASK)) eqn:Ht; [|reflexivity].
      match goal with
      | |- context [arrange ?a (focus None ?w)] =>
          rewrite (evolves_tags w (arrange a (focus None w)))
            by (apply arrange_evolves, focus_evolves, frame_refl)
      end.
      rewrite client_with_client_same.
      change (c_tags (set_c_tags ?v ?x)) with v.
      split; [reflexivity|apply valid_tags_land, Ht].
  - intros rs c. cbv zeta.
    destruct (forallb rule_tagless rs) eqn:Hrs; [|exact I].
    unfold applyrules_with. cbv zeta.
    match goal with
    | |- context [fold_left (apply_rule c _ _) rs ?w] => set (g1 := w)
    end.
    match goal with
    | |- context [fold_left (apply_rule c ?cl ?ins) rs g1] =>
        destruct (apply_rules_frame c cl ins rs g1) as [Fc Fm];
        pose proof (apply_rules_tagless c cl ins rs g1 Hrs) as Ft;
        set (g2 := fold_left (apply_rule c cl ins) rs g1) in *
    end.
    rewrite client_with_client_same.
    assert (E : Z.land (c_tags (client g2 c)) TAGMASK = 0).
    { apply Ft. unfold g1. rewrite client_with_client_same. reflexivity. }
    change (c_tags (set_c_tags ?v ?x)) with v.
    change (c_mon (set_c_tags ?v ?x)) with (c_mon x).
    rewrite E. simpl. rewrite Fm. unfold g1. rewrite monitor_with_client. reflexivity.
Qed.

(** A state whose clients carry no tag yet, as manage leaves a new client
    before applyrules: every monitor shows tag 1, and applyrules gives the
    client tag 1. *)
Lemma tag_operations_keep_tags_valid_witness :
  (forall m, valid_tags (sel_tagset (monitor (sample_world 2 [1; 2; 3]%nat 0) m)))
  /\ c_tags (client (sample_world 2 [1; 2; 3]%nat 0) 1%nat) = 0
  /\ valid_tags (c_tags (client (applyrules 1%nat (sample_world 2 [1; 2; 3]%nat 0)) 1%nat))
  /\ c_tags (client (applyrules 1%nat (sample_world 2 [1; 2; 3]%nat 0)) 1%nat) = 1.
Proof.
  assert (H : forall m, valid_tags (sel_tagset (monitor (sample_world 2 [1; 2; 3]%nat 0) m))).
  { intros m. vm_compute. split; [discriminate|reflexivity]. }
  split; [exact H|]. split; [reflexivity|]. split.
  - apply (tag_operations_keep_tags_valid (sample_world 2 [1; 2; 3]%nat 0) H).
  - vm_compute. reflexivity.
Defined.
(** * swallow, then unswallow *)

Lemma x_mapped_benign l win : Forall benign l -> forall b, x_mapped l win b = b.
Proof.
  unfold x_mapped. induction 1 as [|r l Hr Hl IH]; intros b; simpl; [reflexivity|].
  rewrite IH. destruct r; simpl in Hr; try contradiction; reflexivity.
Qed.

Lemma x_wm_state_benign l win : Forall benign l -> forall s, x_wm_state l win s = s.
Proof.
  unfold x_wm_state. induction 1 as [|r l Hr Hl IH]; intros s; simpl; [reflexivity|].
  rewrite IH. destruct r; simpl in Hr; try contradiction; reflexivity.
Qed.

Lemma evolves_win g g' c : evolves g g' -> c_win (client g' c) = c_win (client g c).
Proof. intros H. apply (frame_cfield _ _ _ _ c_win _ _ c H). reflexivity. Qed.

Lemma evolves_swallowing g g' c :
  evolves g g' -> c_swallowing (client g' c) = c_swallowing (client g c).
Proof. intros H. apply (frame_cfield _ _ _ _ c_swallowing _ _ c H). reflexivity. Qed.

(** C2. A terminal [p] swallows a child [c] that passes swallow's test, then
    [p] is unswallowed with nothing in between.  [p] has its own window
    handle again and swallows nothing; unswallow has asked the server to map
    that window, to move and resize it to the rectangle stored in [p] at that
    point, and to set its WM_STATE to NormalState, and nothing it asks
    afterwards unmaps the window or rewrites its WM_STATE: at the end the
    window is mapped and in NormalState. *)
Theorem swallow_unswallow_restores (p c : cid) (g : World) :
  c_isterminal (client g p) <> 0 ->
  c_noswallow (client g c) = 0 ->
  c_isterminal (client g c) = 0 ->
  let g1 := swallow p c g in
  let g2 := unswallow p g1 in
  let w0 := c_win (client g p) in
  let pl := client (unswallow_restore p c g1) p in
  c_win (client g2 p) = w0
  /\ c_swallowing (client g2 p) = None
  /\ (exists before after,
        g_xlog g2 =
        g_xlog g1 ++ before
                  ++ [XMapWindow w0;
                      XMoveResizeWindow w0 (c_x pl) (c_y pl) (c_w pl) (c_h pl);
                      XSetWMState w0 NormalState]
                  ++ after
        /\ Forall benign after)
  /\ (forall b, x_mapped (g_xlog g2) w0 b = true)
  /\ (forall s, x_wm_state (g_xlog g2) w0 s = Some NormalState).
Proof.
  intros Hp Hns Hnt. cbv zeta.
  assert (Hflags : truthy (c_noswallow (client g c)) || truthy (c_isterminal (client g c))
                   = false) by (rewrite Hns, Hnt; reflexivity).
  destruct (swallow_effects p c g Hflags) as [_ [_ [_ [_ [Hwp [Hwc Hsw]]]]]].
  set (g1 := swallow p c g) in *.
  set (w0 := c_win (client g p)) in *.
  unfold unswallow. rewrite Hsw.
  set (ge := unswallow_restore p c g1).
  (* the first half *)
  set (gb := with_client p (set_c_swallowing None)
               (with_client p (set_c_win (c_win (client g1 c))) g1)).
  assert (Hbe : evolves gb ge).
  { unfold ge, unswallow_restore. cbv zeta. fold gb.
    apply arrange_evolves, updatetitle_evolves, setfullscreen_evolves, frame_refl. }
  assert (Hgb : c_win (client gb p) = w0 /\ c_swallowing (client gb p) = None
                /\ g_xlog gb = g_xlog g1).
  { unfold gb. rewrite !client_with_client_same. simpl. auto. }
  destruct Hgb as [Hb1 [Hb2 Hb3]].
  assert (He1 : c_win (client ge p) = w0) by (rewrite (evolves_win _ _ _ Hbe); exact Hb1).
  assert (He2 : c_swallowing (client ge p) = None)
    by (rewrite (evolves_swallowing _ _ _ Hbe); exact Hb2).
  destruct (fr_log _ _ _ _ _ _ Hbe) as [before [Hlog1 _]].
  (* the second half *)
  unfold unswallow_show. cbv zeta. rewrite He1.
  set (pl := client ge p).
  set (gs := setclientstate p NormalState
               (xreq (XMoveResizeWindow w0 (c_x pl) (c_y pl) (c_w pl) (c_h pl))
                     (xreq (XMapWindow w0) ge))).
  assert (Hs1 : forall k, client gs k = client ge k).
  { intros k. unfold gs, setclientstate. rewrite !client_xreq. reflexivity. }
  assert (Hs2 : g_xlog gs =
                g_xlog ge ++ [XMapWindow w0;
                              XMoveResizeWindow w0 (c_x pl) (c_y pl) (c_w pl) (c_h pl);
                              XSetWMState w0 NormalState]).
  { unfold gs, setclientstate. rewrite !client_xreq. rewrite He1.
    unfold xreq. simpl. rewrite <- !app_assoc. reflexivity. }
  match goal with
  | |- context [arrange ?a (focus None gs)] => set (g2 := arrange a (focus None gs))
  end.
  assert (Hs2' : evolves gs g2).
  { unfold g2. apply arrange_evolves, focus_evolves, frame_refl. }
  destruct (fr_log _ _ _ _ _ _ Hs2') as [after [Hlog2 Hben]].
  assert (Hlog : g_xlog g2 =
                 (g_xlog g1 ++ before)
                   ++ [XMapWindow w0;
                       XMoveResizeWindow w0 (c_x pl) (c_y pl) (c_w pl) (c_h pl);
                       XSetWMState w0 NormalState] ++ after).
  { rewrite Hlog2, Hs2, Hlog1, Hb3. rewrite <- !app_assoc. reflexivity. }
  split; [|split; [|split; [|split]]].
  - rewrite (evolves_win _ _ _ Hs2'), Hs1. exact He1.
  - rewrite (evolves_swallowing _ _ _ Hs2'), Hs1. exact He2.
  - exists before, after. split; [|exact Hben].
    rewrite Hlog, <- !app_assoc. reflexivity.
  - intros b. rewrite Hlog. unfold x_mapped. rewrite !fold_left_app. simpl.
    rewrite Z.eqb_refl. apply (x_mapped_benign after w0 Hben).
  - intros s. rewrite Hlog. unfold x_wm_state. rewrite !fold_left_app. simpl.
    rewrite Z.eqb_refl. apply (x_wm_state_benign after w0 Hben).
Qed.

Lemma swallow_unswallow_restores_witness :
  let g := with_client 1%nat (set_c_isterminal 1) (sample_world 2 [1; 2]%nat 1) in
  c_isterminal (client g 1%nat) <> 0
  /\ c_win (client (unswallow 1%nat (swallow 1%nat 2%nat g)) 1%nat) = c_win (client g 1%nat).
Proof.
  cbv zeta. split; [vm_compute; discriminate|].
  refine (proj1 (swallow_unswallow_restores 1%nat 2%nat
                   (with_client 1%nat (set_c_isterminal 1) (sample_world 2 [1; 2]%nat 1))
                   _ _ _)).
  - vm_compute. discriminate.
  - vm_compute. reflexivity.
  - vm_compute. reflexivity.
Defined.

(** * The fullscreen toggle *)

(** resizeclient while the client is fullscreen. *)
Lemma resizeclient_fullscreen c x y w h g :
  c_isfullscreen (client g c) <> 0 ->
  client (resizeclient c x y w h g) c
  = set_c_geom x y w h
      (set_c_old (c_x (client g c)) (c_y (client g c)) (c_w (client g c))
                 (c_h (client g c)) (client g c)).
Proof.
  intros Hf. unfold resizeclient. cbv zeta.
  match goal with
  | |- context [borderless ?w c] => set (g1 := w)
  end.
  assert (Hb : borderless g1 c = false).
  { unfold borderless. cbv zeta. unfold g1. rewrite client_with_client_same.
    change (c_isfullscreen (set_c_geom ?a ?b ?d ?e (set_c_old ?a' ?b' ?d' ?e' ?x)))
      with (c_isfullscreen x).
    assert (Ht : truthy (c_isfullscreen (client g c)) = true).
    { unfold truthy. apply negb_true_iff, Z.eqb_neq. exact Hf. }
    rewrite Ht. simpl. rewrite andb_false_r. reflexivity. }
  rewrite Hb. unfold configure. rewrite !client_xreq, client_with_client_same.
  unfold g1. rewrite client_with_client_same. reflexivity.
Qed.

(** The client after [setfullscreen(c, 1)], for a client that was not
    fullscreen. *)
Lemma setfullscreen_on c g :
  c_isfullscreen (client g c) = 0 ->
  let cl := client g c in
  let mo := monitor g (c_mon cl) in
  client (setfullscreen c 1 g) c
  = set_c_geom (m_mx mo) (m_my mo) (m_mw mo) (m_mh mo)
      (set_c_old (c_x cl) (c_y cl) (c_w cl) (c_h cl)
         (set_c_isfloating 1
            (set_c_bw 0
               (set_c_oldbw (c_bw cl)
                  (set_c_oldstate (c_isfloating cl) (set_c_isfullscreen 1 cl)))))).
Proof.
  intros Hf. cbv zeta. unfold setfullscreen. rewrite Hf. simpl andb. cbv iota zeta.
  rewrite client_xreq.
  rewrite resizeclient_fullscreen.
  - rewrite client_with_client_same, client_xreq, monitor_with_client, monitor_xreq.
    reflexivity.
  - rewrite client_with_client_same. simpl. discriminate.
Qed.

(** [setfullscreen(c, 0)] on a fullscreen client. *)
Lemma setfullscreen_off c g :
  c_isfullscreen (client g c) <> 0 ->
  setfullscreen c 0 g
  = let g2 := with_client c (fun cl =>
                set_c_geom (c_oldx cl) (c_oldy cl) (c_oldw cl) (c_oldh cl)
                  (set_c_bw (c_oldbw cl) (set_c_isfloating (c_oldstate cl)
                    (set_c_isfullscreen 0 cl))))
              (xreq (XSetNetWMState (c_win (client g c)) false) g) in
    let cl := client g2 c in
    let g3 := resizeclient c (c_x cl) (c_y cl) (c_w cl) (c_h cl) g2 in
    arrange (Some (c_mon (client g3 c))) g3.
Proof.
  intros Hf. unfold setfullscreen.
  assert (Ht : truthy (c_isfullscreen (client g c)) = true).
  { unfold truthy. apply negb_true_iff, Z.eqb_neq. exact Hf. }
  rewrite Ht. reflexivity.
Qed.

(** ** States that differ in one client *)

Lemma norm_one_client c g g' :
  only_client c g g' ->
  unsaved (client g' c) = unsaved (client g c) ->
  norm g' = norm g.
Proof.
  intros [Hk [Hm [H1 [H2 [H3 [H4 [H5 [H6 [H7 [H8 H9]]]]]]]]]] Hc.
  apply norm_intro; auto.
  intros k. destruct (Nat.eq_dec k c) as [->|Hne]; [exact Hc|].
  rewrite Hk by exact Hne. reflexivity.
Qed.

Lemma only_client_refl c g : only_client c g g.
Proof. unfold only_client. repeat split; auto. Qed.

Lemma only_client_trans c g1 g2 g3 :
  only_client c g1 g2 -> only_client c g2 g3 -> only_client c g1 g3.
Proof.
  intros [Hk [Hm [H1 [H2 [H3 [H4 [H5 [H6 [H7 [H8 H9]]]]]]]]]]
         [Hk' [Hm' [H1' [H2' [H3' [H4' [H5' [H6' [H7' [H8' H9']]]]]]]]]].
  unfold only_client.
  split; [intros k Hne; rewrite Hk', Hk by exact Hne; reflexivity|].
  split; [intros m; rewrite Hm', Hm; reflexivity|].
  repeat split; congruence.
Qed.

Lemma only_client_xreq c r g : only_client c g (xreq r g).
Proof. unfold only_client. repeat split; auto. Qed.

Lemma only_client_with_client c f g : only_client c g (with_client c f g).
Proof.
  unfold only_client. repeat split; auto.
  intros k Hne. apply client_with_client_other. exact Hne.
Qed.

Lemma only_client_resizeclient c x y w h g : only_client c g (resizeclient c x y w h g).
Proof.
  unfold resizeclient, configure. cbv zeta.
  destruct (borderless _ c);
    repeat first [ eapply only_client_trans; [|apply only_client_xreq]
                 | eapply only_client_trans; [|apply only_client_with_client] ];
    apply only_client_refl.
Qed.

(** resizeclient on a client its borderless rule does not apply to. *)
Lemma resizeclient_bordered c x y w h g :
  borderless
    (with_client c (fun cl =>
       set_c_geom x y w h (set_c_old (c_x cl) (c_y cl) (c_w cl) (c_h cl) cl)) g) c = false ->
  client (resizeclient c x y w h g) c
  = set_c_geom x y w h
      (set_c_old (c_x (client g c)) (c_y (client g c)) (c_w (client g c))
                 (c_h (client g c)) (client g c)).
Proof.
  intros Hb. unfold resizeclient. cbv zeta. rewrite Hb.
  unfold configure. rewrite !client_xreq, !client_with_client_same. reflexivity.
Qed.

(** The state in which [setfullscreen(c, 0)] calls arrange, after
    [setfullscreen(c, 1)]: it is the state before the two calls but for the
    saved fields of [c] and the log. *)
Lemma fullscreen_toggle_before_arrange c g :
  c_isfullscreen (client g c) = 0 ->
  borderless g c = false ->
  exists g3,
    setfullscreen c 0 (setfullscreen c 1 g) = arrange (Some (c_mon (client g c))) g3
    /\ norm g3 = norm g.
Proof.
  intros Hfs Hb.
  pose proof (setfullscreen_on c g Hfs) as H1. cbv zeta in H1.
  assert (O1 : only_client c g (setfullscreen c 1 g)).
  { unfold setfullscreen. rewrite Hfs. simpl andb. cbv iota zeta.
    eapply only_client_trans; [|apply only_client_xreq].
    eapply only_client_trans; [|apply only_client_resizeclient].
    eapply only_client_trans; [|apply only_client_with_client].
    apply only_client_xreq. }
  set (g1 := setfullscreen c 1 g) in *.
  assert (Hfs1 : c_isfullscreen (client g1 c) = 1) by (rewrite H1; reflexivity).
  rewrite (setfullscreen_off c g1) by (rewrite Hfs1; discriminate).
  cbv zeta.
  match goal with
  | |- context [resizeclient c _ _ _ _ ?w] => set (g2 := w)
  end.
  assert (O2 : only_client c g g2).
  { unfold g2. eapply only_client_trans; [|apply only_client_with_client].
    eapply only_client_trans; [|apply only_client_xreq]. exact O1. }
  assert (H2 : client g2 c
               = set_c_geom (c_x (client g c)) (c_y (client g c)) (c_w (client g c))
                   (c_h (client g c))
                   (set_c_bw (c_bw (client g c))
                      (set_c_isfloating (c_isfloating (client g c))
                         (set_c_isfullscreen 0 (client g1 c))))).
  { unfold g2. rewrite client_with_client_same, client_xreq, H1. reflexivity. }
  assert (Hx : c_x (client g2 c) = c_x (client g c)) by (rewrite H2; reflexivity).
  assert (Hy : c_y (client g2 c) = c_y (client g c)) by (rewrite H2; reflexivity).
  assert (Hw : c_w (client g2 c) = c_w (client g c)) by (rewrite H2; reflexivity).
  assert (Hh : c_h (client g2 c) = c_h (client g c)) by (rewrite H2; reflexivity).
  rewrite Hx, Hy, Hw, Hh.
  set (x := c_x (client g c)) in *. set (y := c_y (client g c)) in *.
  set (w := c_w (client g c)) in *. set (h := c_h (client g c)) in *.
  set (g2' := with_client c (fun cl =>
                set_c_geom x y w h (set_c_old (c_x cl) (c_y cl) (c_w cl) (c_h cl) cl)) g2).
  assert (N2 : norm g2' = norm g).
  { apply (norm_one_client c).
    - eapply only_client_trans; [exact O2|apply only_client_with_client].
    - unfold g2'. rewrite client_with_client_same, H2, H1.
      unfold x, y, w, h. clear -Hfs.
      destruct (client g c). simpl in Hfs. subst. reflexivity. }
  assert (Hb2 : borderless g2' c = false).
  { rewrite (norm_borderless g2' g c N2). exact Hb. }
  pose proof (resizeclient_bordered c x y w h g2 Hb2) as H3.
  set (g3 := resizeclient c x y w h g2) in *.
  assert (N3 : norm g3 = norm g).
  { apply (norm_one_client c).
    - eapply only_client_trans; [exact O2|apply only_client_resizeclient].
    - rewrite H3, H2, H1. unfold x, y, w, h. clear -Hfs.
      destruct (client g c). simpl in Hfs. subst. reflexivity. }
  exists g3. split; [|exact N3].
  rewrite (norm_reads (fun u => c_mon (client u c)) (fun _ => eq_refl) g3 g N3).
  reflexivity.
Qed.

Lemma toggle_tuple_eq g1 g2 c :
  c_isfloating (client g1 c) = c_isfloating (client g2 c) ->
  c_bw (client g1 c) = c_bw (client g2 c) ->
  rect g1 c = rect g2 c ->
  toggle_tuple g1 c = toggle_tuple g2 c.
Proof.
  unfold toggle_tuple, rect. cbv zeta. intros H1 H2 H3.
  injection H3 as Hx Hy Hw Hh. rewrite H1, H2, Hx, Hy, Hw, Hh. reflexivity.
Qed.

(** C3, as the code has it.  For a client that is neither fullscreen nor
    floating, and that resizeclient's borderless rule does not apply to,
    [setfullscreen(c, 1)] followed by [setfullscreen(c, 0)] restores
    isfloating and bw and leaves every rectangle as [arrange(c->mon)] leaves
    it from the state before the two calls.  So x, y, w and h are restored
    when arranging the monitor leaves them as they are; they are for a client
    that is not shown. *)
Theorem fullscreen_toggle_restores (c : cid) (g : World) :
  c_isfullscreen (client g c) = 0 ->
  c_isfloating (client g c) = 0 ->
  borderless g c = false ->
  let g' := setfullscreen c 0 (setfullscreen c 1 g) in
  let ga := arrange (Some (c_mon (client g c))) g in
  c_isfloating (client g' c) = c_isfloating (client g c)
  /\ c_bw (client g' c) = c_bw (client g c)
  /\ (forall k, rect g' k = rect ga k)
  /\ (rect ga c = rect g c -> toggle_tuple g' c = toggle_tuple g c)
  /\ (ISVISIBLE g c = false -> toggle_tuple g' c = toggle_tuple g c).
Proof.
  intros Hfs Hfl Hb. cbv zeta.
  destruct (fullscreen_toggle_before_arrange c g Hfs Hb) as [g3 [E N3]].
  rewrite E. set (m := c_mon (client g c)).
  pose proof (norm_arrange m g3 g N3) as N.
  assert (A : arrP (shown g) g (arrange (Some m) g)) by (apply arrange_frame, frame_refl).
  assert (Hfl' : c_isfloating (client (arrange (Some m) g3) c) = c_isfloating (client g c)).
  { rewrite (norm_reads (fun u => c_isfloating (client u c)) (fun _ => eq_refl) _ _ N).
    apply (arr_isfloating _ _ _ A). }
  assert (Hbw' : c_bw (client (arrange (Some m) g3) c) = c_bw (client g c)).
  { rewrite (norm_bw _ _ c N).
    apply (frame_cfield _ _ _ _ c_bw _ _ c A). reflexivity. }
  assert (Hr : forall k, rect (arrange (Some m) g3) k = rect (arrange (Some m) g) k).
  { intros k. apply norm_rect. exact N. }
  assert (Ht : rect (arrange (Some m) g) c = rect g c ->
               toggle_tuple (arrange (Some m) g3) c = toggle_tuple g c).
  { intros Hs. apply toggle_tuple_eq; [exact Hfl'|exact Hbw'|].
    rewrite (Hr c). exact Hs. }
  split; [exact Hfl'|]. split; [exact Hbw'|]. split; [exact Hr|]. split; [exact Ht|].
  intros Hv. apply Ht.
  assert (Hc : client (arrange (Some m) g) c = client g c).
  { apply (fr_other _ _ _ _ _ _ A). unfold shown. rewrite Hv. discriminate. }
  unfold rect. rewrite Hc. reflexivity.
Qed.

(** An arranged monitor with two tiled clients: the toggle restores the
    whole tuple of the first. *)
Lemma fullscreen_toggle_restores_witness :
  c_isfullscreen (client arranged_world 1%nat) = 0
  /\ c_isfloating (client arranged_world 1%nat) = 0
  /\ borderless arranged_world 1%nat = false
  /\ toggle_tuple arranged_world 1%nat = (0, 2, 10, 30, 1055, 1036)
  /\ toggle_tuple (setfullscreen 1%nat 0 (setfullscreen 1%nat 1 arranged_world)) 1%nat
     = toggle_tuple arranged_world 1%nat.
Proof.
  assert (H1 : c_isfullscreen (client arranged_world 1%nat) = 0)
    by (vm_compute; reflexivity).
  assert (H2 : c_isfloating (client arranged_world 1%nat) = 0)
    by (vm_compute; reflexivity).
  assert (H3 : borderless arranged_world 1%nat = false) by (vm_compute; reflexivity).
  split; [exact H1|]. split; [exact H2|]. split; [exact H3|].
  split; [vm_compute; reflexivity|].
  pose proof (fullscreen_toggle_restores 1%nat arranged_world H1 H2 H3) as H.
  cbv zeta in H. destruct H as (_ & _ & _ & Ht & _).
  apply Ht. vm_compute. reflexivity.
Defined.

(** C3 as claimed fails.  Client 1 is tiled, not fullscreen, not fixed, and
    resizeclient's borderless rule does not apply to it; its border width was
    set after the monitor was last arranged.  The closing arrange of
    [setfullscreen(c, 0)] tiles it anew and its width and height change. *)
Lemma fullscreen_toggle_counterexample :
  let g := border_changed_world in
  c_isfullscreen (client g 1%nat) = 0
  /\ c_isfloating (client g 1%nat) = 0
  /\ c_isfixed (client g 1%nat) = 0
  /\ borderless g 1%nat = false
  /\ toggle_tuple g 1%nat = (0, 5, 10, 30, 1055, 1036)
  /\ toggle_tuple (setfullscreen 1%nat 0 (setfullscreen 1%nat 1 g)) 1%nat
     = (0, 5, 10, 30, 1049, 1030).
Proof.
  vm_compute. repeat split.
Qed.

(** Where resizeclient's borderless rule applies and the closing arrange
    does not lay the client out anew, the rule widens the restored rectangle
    by twice the border: a client alone on its monitor under the floating
    layout. *)
Lemma fullscreen_toggle_borderless_grows :
  let g := floating_layout_world in
  c_isfullscreen (client g 1%nat) = 0
  /\ c_isfloating (client g 1%nat) = 0
  /\ borderless g 1%nat = true
  /\ toggle_tuple g 1%nat = (0, 2, 100, 100, 300, 200)
  /\ toggle_tuple (setfullscreen 1%nat 0 (setfullscreen 1%nat 1 g)) 1%nat
     = (0, 2, 100, 100, 304, 204).
Proof.
  vm_compute. repeat split.
Qed.

(** Where the rule applies and the closing arrange lays the client out anew,
    the outcome depends on the rectangle the client had: here, two clients
    as monocle has arranged them, the tuple is restored. *)
Lemma fullscreen_toggle_monocle_example :
  let g := arrange (Some O) (sample_world 1 [1; 2]%nat 1) in
  borderless g 1%nat = true
  /\ toggle_tuple g 1%nat = (0, 2, 0, 20, 1920, 1040)
  /\ toggle_tuple (setfullscreen 1%nat 0 (setfullscreen 1%nat 1 g)) 1%nat
     = (0, 2, 0, 20, 1920, 1040).
Proof.
  vm_compute. repeat split.
Qed.
(** * getfacts and the heights of tile *)

Lemma iter_shift {S : Type} (f : S -> S) n st : Nat.iter n f (f st) = f (Nat.iter n f st).
Proof. induction n as [|n IH]; simpl; [reflexivity|]. rewrite IH. reflexivity. Qed.

(** A loop whose body reads neither the client nor the world. *)
Lemma tiled_loop_pure {S : Type} (f : S -> S) l g : forall st,
  tiled_loop (fun st _ g' => (f st, g')) st l g = (Nat.iter (ntiled g l) f st, g).
Proof.
  induction l as [|c l IH]; intros st; simpl; [reflexivity|].
  destruct (untiled g c); [apply IH|].
  rewrite IH. simpl. rewrite iter_shift. reflexivity.
Qed.

Lemma tiled_loop_ext {S : Type} (b1 b2 : S -> cid -> World -> S * World) l :
  (forall st c g, b1 st c g = b2 st c g) ->
  forall st g, tiled_loop b1 st l g = tiled_loop b2 st l g.
Proof.
  intros H. induction l as [|c l IH]; intros st g; simpl; [reflexivity|].
  destruct (untiled g c); [apply IH|]. rewrite H. destruct (b2 st c g). apply IH.
Qed.

Lemma count_tiled_ntiled g l : count_tiled g l = Z.of_nat (ntiled g l).
Proof.
  unfold count_tiled. rewrite (tiled_loop_pure (fun n => n + 1)). simpl.
  induction (ntiled g l) as [|n IH]; simpl Nat.iter; [reflexivity|]. rewrite IH. lia.
Qed.

Lemma ntiled_length g l : ntiled g l = List.length (tiled_list g l).
Proof.
  unfold tiled_list. induction l as [|c l IH]; simpl; [reflexivity|].
  destruct (untiled g c); simpl; rewrite IH; reflexivity.
Qed.

Lemma MIN_min a b : MIN a b = Z.min a b.
Proof. unfold MIN. destruct (a <? b) eqn:H; [apply Z.ltb_lt in H|apply Z.ltb_ge in H]; lia. Qed.

Lemma div_mul_le size k : 0 <= size -> 0 < k -> k * (size / k) <= size.
Proof. intros Hs Hk. apply Z.mul_div_le. exact Hk. Qed.

(** ** The totals of getfacts *)

Lemma facts_step_iter n nm msize ssize mf sf i :
  0 <= nm ->
  (1 <= Z.min n nm -> mf = i2f (Z.min n nm) /\ Z.min n nm <= 1024 /\ 0 <= msize < 2 ^ 14) ->
  (1 <= n - nm -> sf = i2f (n - nm) /\ n - nm <= 1024 /\ 0 <= ssize < 2 ^ 14) ->
  Z.of_nat i <= n ->
  Nat.iter i (facts_step nm msize ssize mf sf) (0, 0, 0)
  = (Z.of_nat i, Z.min (Z.of_nat i) nm * (msize / Z.min n nm),
     Z.max 0 (Z.of_nat i - nm) * (ssize / (n - nm))).
Proof.
  intros Hnm Hk Hs. induction i as [|i IH]; intros Hi.
  - cbn [Nat.iter]. change (Z.of_nat 0) with 0.
    rewrite Z.min_l, Z.max_l by lia. reflexivity.
  - rewrite Nat.iter_succ. rewrite IH by lia. unfold facts_step.
    destruct (Z.of_nat i <? nm) eqn:Hlt.
    + apply Z.ltb_lt in Hlt.
      destruct (Hk ltac:(lia)) as [-> [Hk1 Hm]].
      set (k := Z.min n nm) in *.
      assert (Hq : 0 <= msize / k) by (apply Z.div_pos; lia).
      assert (Hle : k * (msize / k) <= msize) by (apply div_mul_le; lia).
      rewrite add_share_exact; [| |lia|lia| |lia].
      * replace (Z.min (Z.of_nat (S i)) nm) with (Z.of_nat i + 1) by lia.
        replace (Z.min (Z.of_nat i) nm) with (Z.of_nat i) by lia.
        replace (Z.max 0 (Z.of_nat (S i) - nm)) with 0 by lia.
        replace (Z.max 0 (Z.of_nat i - nm)) with 0 by lia.
        rewrite Nat2Z.inj_succ. apply f_equal2; [apply f_equal2|]; ring.
      * apply Z.mul_nonneg_nonneg; lia.
      * replace (Z.min (Z.of_nat i) nm) with (Z.of_nat i) by lia. nia.
    + apply Z.ltb_ge in Hlt.
      destruct (Hs ltac:(lia)) as [-> [Hs1 Hm]].
      set (s := n - nm) in *.
      assert (Hq : 0 <= ssize / s) by (apply Z.div_pos; lia).
      assert (Hle : s * (ssize / s) <= ssize) by (apply div_mul_le; lia).
      rewrite add_share_exact; [| |lia|lia| |lia].
      * replace (Z.min (Z.of_nat (S i)) nm) with nm by lia.
        replace (Z.min (Z.of_nat i) nm) with nm by lia.
        replace (Z.max 0 (Z.of_nat (S i) - nm)) with (Z.of_nat i - nm + 1) by lia.
        replace (Z.max 0 (Z.of_nat i - nm)) with (Z.of_nat i - nm) by lia.
        rewrite Nat2Z.inj_succ. apply f_equal2; [apply f_equal2|]; ring.
      * apply Z.mul_nonneg_nonneg; lia.
      * replace (Z.max 0 (Z.of_nat i - nm)) with (Z.of_nat i - nm) by lia. nia.
Qed.

(** What getfacts returns: the factors, converted to [float], the master
    extent less [k] times the floor of its [k]-th, and the stack extent less
    [n - nmaster] times the floor of its share when there is a stack. *)
Lemma getfacts_closed g m msize ssize :
  let mo := monitor g m in
  let n := count_tiled g (m_clients mo) in
  let nm := m_nmaster mo in
  let k := Z.min n nm in
  1 <= n <= 1024 -> 0 <= nm < 2 ^ 31 ->
  (1 <= k -> 0 <= msize < 2 ^ 14) -> (nm < n -> 0 <= ssize < 2 ^ 14) ->
  getfacts g m msize ssize
  = (i2f k, i2f (u32 (n - nm)),
     msize - k * (msize / k), ssize - Z.max 0 (n - nm) * (ssize / (n - nm))).
Proof.
  cbv zeta. intros Hn Hnm Hm Hs. unfold getfacts. cbv zeta.
  set (mo := monitor g m) in *. set (n := count_tiled g (m_clients mo)) in *.
  set (nm := m_nmaster mo) in *.
  assert (Hu1 : u32 nm = nm) by (unfold u32; apply Z.mod_small; lia).
  rewrite Hu1, MIN_min.
  rewrite (tiled_loop_ext _
             (fun st (_ : cid) (g' : World) =>
                (facts_step nm msize ssize (i2f (Z.min n nm)) (i2f (u32 (n - nm))) st, g')))
    by (intros [[a b] d] c' g'; reflexivity).
  rewrite tiled_loop_pure. cbn [fst].
  assert (Hc : n = Z.of_nat (ntiled g (m_clients mo))) by apply count_tiled_ntiled.
  rewrite (facts_step_iter n); try lia.
  - rewrite <- Hc. reflexivity.
  - intros Hk. split; [reflexivity|]. split; [lia|]. apply Hm. exact Hk.
  - intros Hs1. split; [|split; [lia|apply Hs; lia]].
    f_equal. unfold u32. apply Z.mod_small. lia.
Qed.

(** ** getfacts and applysizehints in [float]

    An extent of [2 ^ 24 + 1] is rounded to [2 ^ 24] by the conversion to
    [float], and getfacts returns the rest 1 for one master; with [nmaster]
    above the number of tiled clients the stack factor is the [float] of the
    [unsigned] difference, 4294967296. *)
Lemma getfacts_rounds :
  getfacts (sample_world 2 [1; 2; 3]%nat 1) O (2 ^ 24 + 1) 1030 = (FFin 1, FFin 2, 1, 0)
  /\ getfacts (with_monitor O (set_m_nmaster 4) (sample_world 2 [1; 2; 3]%nat 1)) O 1040 1030
     = (FFin 3, FFin 4294967296, 2, 1030).
Proof. vm_compute. split; reflexivity. Qed.

(** A floating client with aspect limits whose base height is the height
    asked for: the height less the base is 0, the quotient [(float)w / h] is
    the positive infinity, above maxa, and the width becomes
    [0 * maxa + 0.5], that is 0, before the base and the minimum are added
    back. *)
Lemma applysizehints_zero_height :
  applysizehints (set_g_clients (fun _ => hinted_client) (sample_world 2 [1]%nat 1))
                 1%nat 100 100 100 20 0
  = (true, (100, 100, 0, 20)).
Proof. vm_compute. reflexivity. Qed.

(** ** resize on a tiled client *)

(** On a client that is not floating, under a layout with an arrange
    function, applysizehints leaves a height that is at least 1 and at least
    the bar height as it is; and it reports no change only if the client has
    that height already. *)
Lemma applysizehints_height g c x y w h :
  c_isfloating (client g c) = 0 ->
  has_arrange (monitor g (c_mon (client g c))) = true ->
  1 <= h -> g_bh g <= h ->
  let r := applysizehints g c x y w h 0 in
  snd (snd r) = h /\ (fst r = false -> c_h (client g c) = h).
Proof.
  intros Hfl Ha H1 Hb. cbv zeta. unfold applysizehints. cbv zeta.
  rewrite Hfl, Ha. change (truthy 0) with false. cbn [negb orb andb].
  assert (E1 : MAX 1 h = h) by (unfold MAX; destruct (1 >? h) eqn:E; [lia|reflexivity]).
  rewrite E1.
  assert (E2 : (h <? g_bh g) = false) by (apply Z.ltb_ge; exact Hb).
  rewrite E2.
  repeat match goal with
         | |- context [if ?b then _ else _] =>
             match b with
             | context [c_h] => fail 1
             | _ => destruct b
             end
         end;
    cbn [fst snd]; (split; [reflexivity|]);
    intros Hc; repeat (apply orb_false_elim in Hc; destruct Hc as [Hc ?]);
    match goal with
    | Hh : negb (h =? c_h (client g c)) = false |- _ =>
        apply negb_false_iff, Z.eqb_eq in Hh; symmetry; exact Hh
    end.
Qed.

Lemma arr_nexttiled P g g' l : arrP P g g' -> nexttiled g' l = nexttiled g l.
Proof.
  intros H. induction l as [|c l IH]; simpl; [reflexivity|].
  rewrite (arr_untiled _ _ _ H), IH. reflexivity.
Qed.

Lemma arr_borderless P g g' c : arrP P g g' -> borderless g' c = borderless g c.
Proof.
  intros H. unfold borderless. cbv zeta.
  rewrite (arr_mon _ _ _ H), (arr_clients _ _ _ H), !(arr_nexttiled _ _ _ _ H).
  rewrite (frame_mfield _ _ _ _ (arrange_is LtMonocle) _ _ _ H) by reflexivity.
  rewrite (frame_cfield _ _ _ _ c_isfullscreen _ _ c H) by reflexivity.
  rewrite (arr_isfloating _ _ _ H). reflexivity.
Qed.

(** The height of the client after resize: the one asked for, or, where the
    borderless rule of resizeclient applies, that height and twice the
    border. *)
Lemma resize_height c x y w h g :
  c_isfloating (client g c) = 0 ->
  has_arrange (monitor g (c_mon (client g c))) = true ->
  1 <= h -> g_bh g <= h ->
  let g' := resize c x y w h 0 g in
  c_h (client g' c) = h
  \/ (borderless g c = true /\ c_h (client g' c) = h + c_bw (client g c) * 2).
Proof.
  intros Hfl Ha H1 Hb. cbv zeta.
  destruct (applysizehints_height g c x y w h Hfl Ha H1 Hb) as [Hh Hc].
  unfold resize.
  destruct (applysizehints g c x y w h 0) as [changed [[[x' y'] w'] h']].
  cbn [fst snd] in Hh, Hc. subst h'.
  destruct changed; [|left; apply Hc; reflexivity].
  unfold resizeclient. cbv zeta.
  match goal with
  | |- context [borderless ?u c] => set (g1 := u)
  end.
  assert (A1 : arrP (fun _ => True) g g1) by (unfold g1; frame_auto).
  rewrite (arr_borderless _ _ _ c A1).
  rewrite (frame_cfield _ _ _ _ c_bw _ _ c A1) by reflexivity.
  unfold configure.
  destruct (borderless g c); rewrite !client_xreq, client_with_client_same.
  - right. split; reflexivity.
  - left. reflexivity.
Qed.

(** resize touches the rectangle of its client and the log, and nothing
    else. *)
Lemma only_client_resize c x y w h i g : only_client c g (resize c x y w h i g).
Proof.
  unfold resize.
  destruct (applysizehints g c x y w h i) as [changed [[[x' y'] w'] h']].
  destruct changed; [apply only_client_resizeclient|apply only_client_refl].
Qed.

(** ** A tiled client that is not alone *)

Lemma tiled_list_nexttiled_nil g l : is_null (nexttiled g l) = true -> tiled_list g l = [].
Proof.
  unfold tiled_list. induction l as [|d l IH]; simpl; [reflexivity|].
  destruct (untiled g d); simpl; [exact IH|discriminate].
Qed.

Lemma sole_tiled g l c :
  head_is (nexttiled g l) c = true ->
  is_null (nexttiled g (next_of c l)) = true ->
  tiled_list g l = [c].
Proof.
  unfold tiled_list. induction l as [|d l IH]; simpl; [discriminate|].
  destruct (untiled g d) eqn:Hu; simpl.
  - intros Hh Hn. destruct (Nat.eqb_spec d c) as [->|Hne].
    + destruct (nexttiled g l); [discriminate|discriminate].
    + apply IH; assumption.
  - intros Hh Hn. apply Nat.eqb_eq in Hh. subst d.
    rewrite Nat.eqb_refl in Hn.
    fold (tiled_list g l). rewrite (tiled_list_nexttiled_nil g l Hn). reflexivity.
Qed.

(** Under tile, the borderless rule applies to a client of the chain only if
    it is the one tiled client. *)
Lemma borderless_sole g m c :
  l_arrange (sel_layout (monitor g m)) = Some LtTile ->
  c_mon (client g c) = m ->
  borderless g c = true ->
  tiled_list g (m_clients (monitor g m)) = [c].
Proof.
  intros Hl Hm Hb. unfold borderless in Hb. cbv zeta in Hb. rewrite Hm in Hb.
  unfold arrange_is in Hb. rewrite Hl in Hb. simpl ArrangeFn_eqb in Hb.
  rewrite orb_false_r in Hb.
  apply andb_true_iff in Hb. destruct Hb as [Hb _].
  apply andb_true_iff in Hb. destruct Hb as [Hb _].
  apply andb_true_iff in Hb. destruct Hb as [Hh Hn].
  apply sole_tiled; assumption.
Qed.

(** ** The loop of tile *)

Lemma untiled_not_floating g c : untiled g c = false -> c_isfloating (client g c) = 0.
Proof.
  unfold untiled, truthy. intros H. apply orb_false_elim in H. destruct H as [H _].
  apply negb_false_iff, Z.eqb_eq in H. exact H.
Qed.

Section TileLoop.

Variables (g0 : World) (m : mid).
Variables (nm mx mw sx sw ih mh sh : Z) (mf sf : cfloat) (mr sr : Z).

Hypothesis Harr : has_arrange (monitor g0 m) = true.

Lemma tile_loop_heights : forall l i my sy g,
  NoDup l ->
  arrP (fun _ => True) g0 g -> (forall k, monitor g k = monitor g0 k) ->
  (forall c, In c l -> untiled g0 c = false -> c_mon (client g0 c) = m) ->
  (forall j c, nth_error (tiled_list g0 l) j = Some c ->
     1 <= tile_arg g0 nm mh sh mf sf mr sr (i + Z.of_nat j) c
     /\ g_bh g0 <= tile_arg g0 nm mh sh mf sf mr sr (i + Z.of_nat j) c) ->
  let g' := snd (tiled_loop (tile_body nm mx mw sx sw ih mh sh mf sf mr sr)
                            (i, my, sy) l g) in
  arrP (fun _ => True) g0 g'
  /\ (forall k, monitor g' k = monitor g0 k)
  /\ (forall k, ~ In k l -> client g' k = client g k)
  /\ (forall j c, nth_error (tiled_list g0 l) j = Some c ->
        c_h (client g' c) = tile_arg g0 nm mh sh mf sf mr sr (i + Z.of_nat j) c
        \/ (borderless g0 c = true
            /\ c_h (client g' c)
               = tile_arg g0 nm mh sh mf sf mr sr (i + Z.of_nat j) c
                 + c_bw (client g0 c) * 2)).
Proof.
  induction l as [|c l IH]; intros i my sy g Hnd Ha Hm Hmon Hb; cbv zeta.
  - simpl. split; [exact Ha|]. split; [exact Hm|]. split; [reflexivity|].
    intros j c Hj. destruct j; discriminate.
  - inversion Hnd as [|c' l' Hc Hnd']; subst.
    cbn [tiled_loop]. rewrite (arr_untiled _ _ _ Ha).
    unfold tiled_list in Hb |- *. cbn [filter] in Hb |- *.
    destruct (untiled g0 c) eqn:Hu; cbn [negb] in Hb |- *.
    + specialize (IH i my sy g Hnd' Ha Hm).
      destruct IH as [I1 [I2 [I3 I4]]].
      * intros k Hk. apply Hmon. right. exact Hk.
      * exact Hb.
      * split; [exact I1|]. split; [exact I2|]. split; [|exact I4].
        intros k Hk. apply I3. intros F. apply Hk. right. exact F.
    + assert (Hbw : c_bw (client g c) = c_bw (client g0 c))
        by (apply (frame_cfield _ _ _ _ c_bw _ _ c Ha); reflexivity).
      assert (Hfl : c_isfloating (client g c) = 0).
      { rewrite (arr_isfloating _ _ _ Ha). apply untiled_not_floating. exact Hu. }
      assert (Hcm : c_mon (client g c) = m).
      { rewrite (arr_mon _ _ _ Ha). apply Hmon; [left; reflexivity|exact Hu]. }
      assert (Har : has_arrange (monitor g (c_mon (client g c))) = true).
      { rewrite Hcm, Hm. exact Harr. }
      assert (Hbh : g_bh g = g_bh g0) by (apply (fr_env _ _ _ _ _ _ Ha)).
      destruct (Hb O c eq_refl) as [Hb1 Hb2].
      change (Z.of_nat 0) with 0 in Hb1, Hb2. rewrite Z.add_0_r in Hb1, Hb2.
      set (h := tile_arg g0 nm mh sh mf sf mr sr i c) in *.
      assert (Hstep : exists x y w my' sy',
                 tile_body nm mx mw sx sw ih mh sh mf sf mr sr (i, my, sy) c g
                 = (i + 1, my', sy', resize c x y w h 0 g)).
      { unfold tile_body. cbv zeta. rewrite Hbw. unfold h, tile_arg. cbv zeta.
        destruct (i <? nm); repeat eexists. }
      destruct Hstep as [x [y [w [my' [sy' Hstep]]]]].
      rewrite Hstep.
      set (g1 := resize c x y w h 0 g).
      assert (A1 : arrP (fun _ => True) g0 g1)
        by (apply resize_frame; [exact I|exact Ha]).
      assert (O1 : only_client c g g1) by apply only_client_resize.
      assert (M1 : forall k, monitor g1 k = monitor g0 k).
      { intros k. destruct O1 as [_ [Hk _]]. rewrite Hk. apply Hm. }
      specialize (IH (i + 1) my' sy' g1 Hnd' A1 M1).
      destruct IH as [I1 [I2 [I3 I4]]].
      * intros k Hk. apply Hmon. right. exact Hk.
      * intros j k Hj. specialize (Hb (S j) k Hj).
        rewrite Nat2Z.inj_succ in Hb.
        replace (i + 1 + Z.of_nat j) with (i + Z.succ (Z.of_nat j)) by lia. exact Hb.
      * split; [exact I1|]. split; [exact I2|]. split.
        -- intros k Hk. rewrite I3 by (intros F; apply Hk; right; exact F).
           destruct O1 as [Ho _]. apply Ho. intros F. apply Hk. left. symmetry. exact F.
        -- intros j k Hj. destruct j as [|j].
           ++ cbn [nth_error] in Hj. injection Hj as <-.
              change (Z.of_nat 0) with 0. rewrite Z.add_0_r. fold h.
              rewrite (I3 c Hc).
              pose proof (resize_height c x y w h g Hfl Har Hb1
                            ltac:(rewrite Hbh; exact Hb2)) as Hr.
              cbv zeta in Hr. fold g1 in Hr.
              rewrite (arr_borderless _ _ _ c Ha), Hbw in Hr. exact Hr.
           ++ cbn [nth_error] in Hj. specialize (I4 j k Hj).
              rewrite Nat2Z.inj_succ.
              replace (i + Z.succ (Z.of_nat j)) with (i + 1 + Z.of_nat j) by lia.
              exact I4.
Qed.

End TileLoop.

(** ** tile *)

Lemma tile_unfold g m :
  let mo := monitor g m in
  count_tiled g (m_clients mo) <> 0 ->
  exists mx mw sx sw ih my,
    tile m g
    = snd (tiled_loop
             (tile_body (u32 (m_nmaster mo)) mx mw sx sw ih
                (fst (tile_extents g m)) (snd (tile_extents g m))
                (fst (fst (fst (getfacts g m (fst (tile_extents g m))
                                         (snd (tile_extents g m))))))
                (snd (fst (fst (getfacts g m (fst (tile_extents g m))
                                         (snd (tile_extents g m))))))
                (snd (fst (getfacts g m (fst (tile_extents g m))
                                    (snd (tile_extents g m)))))
                (snd (getfacts g m (fst (tile_extents g m)) (snd (tile_extents g m)))))
             (0, my, my) (m_clients mo) g).
Proof.
  cbv zeta. intros Hn. unfold tile. cbv zeta.
  assert (E : getgaps g m
              = (fst (fst (fst (fst (getgaps g m)))), snd (fst (fst (fst (getgaps g m)))),
                 snd (fst (fst (getgaps g m))), snd (fst (getgaps g m)),
                 count_tiled g (m_clients (monitor g m)))).
  { unfold getgaps. cbv zeta. reflexivity. }
  rewrite E.
  destruct (count_tiled g (m_clients (monitor g m)) =? 0) eqn:E0;
    [apply Z.eqb_eq in E0; contradiction|].
  destruct (tile_extents g m) as [mh sh]. cbn [fst snd].
  destruct (getfacts g m mh sh) as [[[mf sf] mr] sr]. cbn [fst snd].
  destruct (truthy (m_nmaster (monitor g m)) && _);
    do 6 eexists; f_equal; apply tiled_loop_ext; intros [[i my] sy] c g'; reflexivity.
Qed.

Lemma nth_error_tiled_length {A} (l : list A) j c :
  nth_error l j = Some c -> Z.of_nat j < Z.of_nat (List.length l).
Proof.
  intros H. assert (Hj : (j < List.length l)%nat).
  { apply nth_error_Some. rewrite H. discriminate. }
  lia.
Qed.

(** The height that tile hands to resize is the share of the claim less the
    border. *)
Lemma tile_arg_exact g m j bw :
  let mo := monitor g m in
  let n := count_tiled g (m_clients mo) in
  let nm := m_nmaster mo in
  let k := Z.min n nm in
  let mh := fst (tile_extents g m) in
  let sh := snd (tile_extents g m) in
  0 <= j < n -> n <= 1024 -> 0 <= nm < 2 ^ 31 ->
  (1 <= k -> 0 <= mh < 2 ^ 14 - 1) -> (nm < n -> 0 <= sh < 2 ^ 14 - 1) ->
  0 <= bw -> 1 <= tile_height g m j - 2 * bw ->
  (if j <? nm
   then share mh (i2f k) j (mh - k * (mh / k)) bw
   else share sh (i2f (u32 (n - nm))) (u32 (j - nm))
              (sh - Z.max 0 (n - nm) * (sh / (n - nm))) bw)
  = tile_height g m j - 2 * bw.
Proof.
  cbv zeta. unfold tile_height. cbv zeta.
  set (n := count_tiled g (m_clients (monitor g m))).
  set (nm := m_nmaster (monitor g m)).
  set (mh := fst (tile_extents g m)). set (sh := snd (tile_extents g m)).
  intros Hj Hn Hnm Hm Hs Hbw Hh. unfold even_share in *.
  destruct (j <? nm) eqn:Hlt; [apply Z.ltb_lt in Hlt|apply Z.ltb_ge in Hlt].
  - specialize (Hm ltac:(lia)).
    rewrite <- (Z.mod_eq mh (Z.min n nm)) by lia.
    pose proof (Z.mod_pos_bound mh (Z.min n nm) ltac:(lia)) as Hr.
    apply share_exact; try lia.
    destruct (j <? mh mod Z.min n nm); lia.
  - specialize (Hs ltac:(lia)).
    assert (Hu1 : u32 (n - nm) = n - nm) by (unfold u32; apply Z.mod_small; lia).
    assert (Hu2 : u32 (j - nm) = j - nm) by (unfold u32; apply Z.mod_small; lia).
    rewrite Hu1, Hu2, Z.max_r by lia.
    rewrite <- (Z.mod_eq sh (n - nm)) by lia.
    pose proof (Z.mod_pos_bound sh (n - nm) ltac:(lia)) as Hr.
    apply share_exact; try lia.
    destruct (j - nm <? sh mod (n - nm)); lia.
Qed.

(** ** The shares add up *)

Lemma even_share_sum (f : cid -> Z) ext k : 0 < k ->
  forall L off,
    (forall j c, nth_error L j = Some c -> f c = even_share ext k (off + Z.of_nat j)) ->
    zsum (map f L)
    = Z.of_nat (List.length L) * (ext / k)
      + (Z.min (Z.max off (off + Z.of_nat (List.length L))) (Z.max off (ext mod k))
         - off).
Proof.
  intros Hk. induction L as [|c L IH]; intros off H.
  - simpl. lia.
  - cbn [map zsum fold_right List.length]. fold (zsum (map f L)).
    rewrite (IH (off + 1)).
    + rewrite (H O c eq_refl). unfold even_share. change (Z.of_nat 0) with 0.
      rewrite Z.add_0_r, Nat2Z.inj_succ.
      destruct (off <? ext mod k) eqn:E;
        [apply Z.ltb_lt in E|apply Z.ltb_ge in E]; lia.
    + intros j d Hj. rewrite (H (S j) d Hj), Nat2Z.inj_succ. f_equal. lia.
Qed.

Lemma even_share_total (f : cid -> Z) ext k L :
  0 < k -> Z.of_nat (List.length L) = k ->
  (forall j c, nth_error L j = Some c -> f c = even_share ext k (Z.of_nat j)) ->
  zsum (map f L) = ext.
Proof.
  intros Hk Hl H. rewrite (even_share_sum f ext k Hk L 0) by exact H.
  pose proof (Z.mod_pos_bound ext k Hk) as Hr.
  pose proof (Z.div_mod ext k ltac:(lia)) as Hd. rewrite Hl. lia.
Qed.

Lemma nth_error_firstn_some {A} (l : list A) : forall a j c,
  nth_error (firstn a l) j = Some c -> nth_error l j = Some c.
Proof.
  induction l as [|x l IH]; intros a j c H.
  - destruct a; destruct j; discriminate.
  - destruct a; [destruct j; discriminate|].
    destruct j; [exact H|]. simpl in *. apply (IH a). exact H.
Qed.

Lemma nth_error_skipn_shift {A} (l : list A) : forall a j,
  nth_error (skipn a l) j = nth_error l (a + j).
Proof.
  induction l as [|x l IH]; intros a j.
  - destruct a; destruct j; reflexivity.
  - destruct a; [reflexivity|]. simpl. apply IH.
Qed.

(** C5, as the code has it.  A monitor under tile, no client twice on its
    chain, its [n] tiled clients (at least 1, at most 1024) its own,
    [nmaster] not negative; the master extent, if there is a master, and the
    stack extent, if there is a stack, not negative and less than 16383; and
    for every tile a share of the extent that, less the border (which is not
    negative), is at least 1 and at least the bar height.  Then getfacts
    returns the factors [k = min(n, nmaster)] and [n - nmaster] and the
    remainders of the floor divisions; tile leaves the tile of index [i] with
    the height [floor(extent / factor)], one pixel more for an index below
    the remainder, less the border; and with two tiled clients or more these
    heights, borders included, add up to the master extent over the masters
    and to the stack extent over the stack.  A tiled client that is alone has
    that height or, by the borderless rule of resizeclient, the height with
    the border. *)
Theorem tile_heights_conserve (g : World) (m : mid) :
  let mo := monitor g m in
  let tl := tiled_list g (m_clients mo) in
  let n := count_tiled g (m_clients mo) in
  let nm := m_nmaster mo in
  let k := Z.min n nm in
  let mh := fst (tile_extents g m) in
  let sh := snd (tile_extents g m) in
  let g' := tile m g in
  l_arrange (sel_layout mo) = Some LtTile ->
  NoDup (m_clients mo) ->
  (forall c, In c tl -> c_mon (client g c) = m) ->
  1 <= n <= 1024 -> 0 <= nm < 2 ^ 31 ->
  (1 <= k -> 0 <= mh < 2 ^ 14 - 1) -> (nm < n -> 0 <= sh < 2 ^ 14 - 1) ->
  (forall j c, nth_error tl j = Some c ->
     0 <= c_bw (client g c)
     /\ 1 <= tile_height g m (Z.of_nat j) - 2 * c_bw (client g c)
     /\ g_bh g <= tile_height g m (Z.of_nat j) - 2 * c_bw (client g c)) ->
  (let '(mf, sf, mr, sr) := getfacts g m mh sh in
   mf = i2f k
   /\ (nm <= n -> sf = i2f (n - nm))
   /\ (1 <= k -> mr = mh - k * (mh / k) /\ mr = mh mod k)
   /\ (nm < n -> sr = sh - (n - nm) * (sh / (n - nm)) /\ sr = sh mod (n - nm)))
  /\ (forall j c, nth_error tl j = Some c ->
        c_h (client g' c) = tile_height g m (Z.of_nat j) - 2 * c_bw (client g c)
        \/ (n = 1 /\ c_h (client g' c) = tile_height g m (Z.of_nat j)))
  /\ (2 <= n ->
      (forall j c, nth_error tl j = Some c ->
         HEIGHT (client g' c) = tile_height g m (Z.of_nat j))
      /\ (1 <= k ->
          zsum (map (fun c => HEIGHT (client g' c)) (firstn (Z.to_nat nm) tl)) = mh)
      /\ (nm < n ->
          zsum (map (fun c => HEIGHT (client g' c)) (skipn (Z.to_nat nm) tl)) = sh)).
Proof.
  cbv zeta. intros Hl Hnd Hmon Hn Hnm Hm Hs Hb.
  set (mo := monitor g m) in *. set (l := m_clients mo) in *.
  set (tl := tiled_list g l) in *. set (n := count_tiled g l) in *.
  set (nm := m_nmaster mo) in *.
  set (mh := fst (tile_extents g m)) in *. set (sh := snd (tile_extents g m)) in *.
  assert (Hlen : Z.of_nat (List.length tl) = n).
  { unfold tl, n. rewrite count_tiled_ntiled, ntiled_length. reflexivity. }
  assert (Hgf : getfacts g m mh sh
                = (i2f (Z.min n nm), i2f (u32 (n - nm)),
                   mh - Z.min n nm * (mh / Z.min n nm),
                   sh - Z.max 0 (n - nm) * (sh / (n - nm)))).
  { apply (getfacts_closed g m mh sh); fold mo l n nm; lia. }
  assert (Harr : has_arrange (monitor g m) = true).
  { unfold has_arrange. fold mo. rewrite Hl. reflexivity. }
  destruct (tile_unfold g m ltac:(fold mo l n; lia)) as [mx [mw [sx [sw [ih [my E]]]]]].
  fold mo l nm mh sh in E. rewrite Hgf in E. cbn [fst snd] in E.
  assert (Hu : u32 nm = nm) by (unfold u32; apply Z.mod_small; lia).
  rewrite Hu in E.
  pose proof (tile_loop_heights g m nm mx mw sx sw ih mh sh
                (i2f (Z.min n nm)) (i2f (u32 (n - nm)))
                (mh - Z.min n nm * (mh / Z.min n nm))
                (sh - Z.max 0 (n - nm) * (sh / (n - nm)))
                Harr l 0 my my g Hnd (frame_refl g) (fun _ => eq_refl)) as HL.
  assert (Harg : forall j c, nth_error tl j = Some c ->
            tile_arg g nm mh sh (i2f (Z.min n nm)) (i2f (u32 (n - nm)))
              (mh - Z.min n nm * (mh / Z.min n nm))
              (sh - Z.max 0 (n - nm) * (sh / (n - nm))) (0 + Z.of_nat j) c
            = tile_height g m (Z.of_nat j) - 2 * c_bw (client g c)).
  { intros j c Hj. destruct (Hb j c Hj) as [Hb0 [Hb1 Hb2]].
    pose proof (nth_error_tiled_length tl j c Hj) as Hjn. rewrite Hlen in Hjn.
    unfold tile_arg. cbv zeta. rewrite Z.add_0_l.
    apply (tile_arg_exact g m (Z.of_nat j) (c_bw (client g c)));
      fold mo l n nm mh sh; try lia; assumption. }
  fold tl in HL. cbv zeta in HL. rewrite <- E in HL.
  destruct HL as [A [_ [_ H4]]].
  { intros c Hc Hu'. apply Hmon. unfold tl, tiled_list. apply filter_In.
    split; [exact Hc|]. rewrite Hu'. reflexivity. }
  { intros j c Hj. rewrite (Harg j c Hj). destruct (Hb j c Hj) as [_ [H1 H2]].
    split; assumption. }
  assert (Hbw : forall c, c_bw (client (tile m g) c) = c_bw (client g c)).
  { intros c. apply (frame_cfield _ _ _ _ c_bw _ _ c A). reflexivity. }
  assert (Hh : forall j c, nth_error tl j = Some c ->
            c_h (client (tile m g) c)
            = tile_height g m (Z.of_nat j) - 2 * c_bw (client g c)
            \/ (n = 1 /\ c_h (client (tile m g) c) = tile_height g m (Z.of_nat j))).
  { intros j c Hj. specialize (H4 j c Hj). rewrite (Harg j c Hj) in H4.
    destruct H4 as [H4|[Hbl H4]]; [left; exact H4|right].
    split; [|rewrite H4; lia].
    assert (Hc : In c tl) by (eapply nth_error_In; exact Hj).
    pose proof (borderless_sole g m c Hl (Hmon c Hc) Hbl) as Hsole.
    fold mo l tl in Hsole. rewrite Hsole in Hlen. simpl in Hlen. lia. }
  split; [|split; [exact Hh|]].
  - rewrite Hgf. split; [reflexivity|]. split; [|split].
    + intros Hle. f_equal. unfold u32. apply Z.mod_small. lia.
    + intros Hk. split; [reflexivity|]. rewrite Z.mod_eq by lia. reflexivity.
    + intros Hk. rewrite Z.max_r by lia. split; [reflexivity|].
      rewrite Z.mod_eq by lia. reflexivity.
  - intros Hn2.
    assert (HH : forall j c, nth_error tl j = Some c ->
              HEIGHT (client (tile m g) c) = tile_height g m (Z.of_nat j)).
    { intros j c Hj. unfold HEIGHT. rewrite Hbw.
      destruct (Hh j c Hj) as [H|[H _]]; [rewrite H; lia|lia]. }
    split; [exact HH|]. split.
    + intros Hk. apply (even_share_total _ mh (Z.min n nm)); [lia| |].
      * rewrite length_firstn. lia.
      * intros j c Hj.
        assert (Hjk : Z.of_nat j < Z.of_nat (List.length (firstn (Z.to_nat nm) tl)))
          by (eapply nth_error_tiled_length; exact Hj).
        rewrite length_firstn in Hjk.
        apply nth_error_firstn_some in Hj. rewrite (HH j c Hj).
        unfold tile_height. cbv zeta. fold mo l n nm mh.
        destruct (Z.ltb_spec (Z.of_nat j) nm); [reflexivity|lia].
    + intros Hk. apply (even_share_total _ sh (n - nm)); [lia| |].
      * rewrite length_skipn. lia.
      * intros j c Hj. rewrite nth_error_skipn_shift in Hj. rewrite (HH _ c Hj).
        unfold tile_height. cbv zeta. fold mo l n nm sh.
        destruct (Z.ltb_spec (Z.of_nat (Z.to_nat nm + j)) nm); [lia|].
        f_equal. lia.
Qed.

(** Three tiled clients with border 2 on a monitor of height 1060 with gaps
    of 10: the master extent 1040 and the stack extent 1030; the heights
    1036, 511 and 511, and 515 + 515 = 1030 with the borders. *)
Lemma tile_heights_conserve_witness :
  let g := sample_world 2 [1; 2; 3]%nat 1 in
  let g' := tile O g in
  tile_extents g O = (1040, 1030)
  /\ map (fun c => c_h (client g' c)) [1; 2; 3]%nat = [1036; 511; 511]
  /\ zsum (map (fun c => HEIGHT (client g' c)) [1]%nat) = 1040
  /\ zsum (map (fun c => HEIGHT (client g' c)) [2; 3]%nat) = 1030.
Proof.
  cbv zeta.
  pose proof (tile_heights_conserve (sample_world 2 [1; 2; 3]%nat 1) O) as H.
  cbv zeta in H.
  assert (H1 : l_arrange (sel_layout (monitor (sample_world 2 [1; 2; 3]%nat 1) O))
               = Some LtTile) by (vm_compute; reflexivity).
  assert (H2 : NoDup (m_clients (monitor (sample_world 2 [1; 2; 3]%nat 1) O))).
  { vm_compute. repeat constructor; simpl; intuition discriminate. }
  assert (H3 : forall c,
             In c (tiled_list (sample_world 2 [1; 2; 3]%nat 1)
                     (m_clients (monitor (sample_world 2 [1; 2; 3]%nat 1) O))) ->
             c_mon (client (sample_world 2 [1; 2; 3]%nat 1) c) = O)
    by (intros c _; reflexivity).
  assert (H4 : 1 <= count_tiled (sample_world 2 [1; 2; 3]%nat 1)
                      (m_clients (monitor (sample_world 2 [1; 2; 3]%nat 1) O)) <= 1024)
    by (vm_compute; split; discriminate).
  assert (H5 : 0 <= m_nmaster (monitor (sample_world 2 [1; 2; 3]%nat 1) O) < 2 ^ 31)
    by (vm_compute; split; [discriminate|reflexivity]).
  specialize (H H1 H2 H3 H4 H5).
  destruct H as [_ [_ Hs]].
  - intros _. vm_compute. split; [discriminate|reflexivity].
  - intros _. vm_compute. split; [discriminate|reflexivity].
  - intros j c Hj.
    change (tiled_list (sample_world 2 [1; 2; 3]%nat 1)
              (m_clients (monitor (sample_world 2 [1; 2; 3]%nat 1) O)))
      with [1; 2; 3]%nat in Hj.
    destruct j as [|[|[|j]]]; cbn [nth_error] in Hj;
      try (injection Hj as <-; vm_compute; repeat split; discriminate).
    destruct j; discriminate.
  - destruct Hs as [_ [Hm Hst]]; [vm_compute; discriminate|].
    split; [vm_compute; reflexivity|]. split; [vm_compute; reflexivity|]. split.
    + apply Hm. vm_compute. discriminate.
    + apply Hst. vm_compute. reflexivity.
Defined.

(** C5 as claimed fails on a negative extent.  With every gap at 401, tile
    gives the stack of two tiles the extent -143: the division truncates
    toward zero and getfacts returns the remainder -1, where the floor
    division of the claim leaves 1; and the two tiles, of the height 24 with
    their borders, do not add up to the extent. *)
Lemma getfacts_negative_extent_counterexample :
  let g := wide_gaps_world in
  let n := count_tiled g (m_clients (monitor g O)) in
  let nm := m_nmaster (monitor g O) in
  let mh := fst (tile_extents g O) in
  let sh := snd (tile_extents g O) in
  n = 3 /\ nm = 1 /\ sh = -143
  /\ snd (getfacts g O mh sh) = -1
  /\ sh - (n - nm) * (sh / (n - nm)) = 1
  /\ map (fun c => HEIGHT (client (tile O g) c)) [2; 3]%nat = [24; 24].
Proof.
  vm_compute. repeat split.
Qed.

(** It fails on an extent that is not negative as well: with the inner gap
    at 1020 the stack of two tiles has the extent 20, each share of 10 is
    below the bar height 20, applysizehints raises the height of either tile
    to 20, and the two tiles, 24 with their borders, add up to 48. *)
Lemma tile_clamped_heights_counterexample :
  let g := narrow_stack_world in
  let n := count_tiled g (m_clients (monitor g O)) in
  let nm := m_nmaster (monitor g O) in
  n = 3 /\ nm = 1 /\ tile_extents g O = (1040, 20) /\ g_bh g = 20
  /\ map (fun c => HEIGHT (client (tile O g) c)) [2; 3]%nat = [24; 24]
  /\ zsum (map (fun c => HEIGHT (client (tile O g) c)) [2; 3]%nat) <> 20.
Proof.
  vm_compute. repeat split. discriminate.
Qed.
(** * organizetags *)

(** ** Bits *)

Lemma bit_test occ i : 0 <= i -> truthy (Z.land occ (Z.shiftl 1 i)) = Z.testbit occ i.
Proof.
  intros Hi. unfold truthy. rewrite Z.shiftl_1_l.
  destruct (Z.testbit occ i) eqn:Hb.
  - apply negb_true_iff, Z.eqb_neq. intros F.
    assert (Ht : Z.testbit (Z.land occ (2 ^ i)) i = true).
    { rewrite Z.land_spec, Hb, Z.pow2_bits_true by lia. reflexivity. }
    rewrite F, Z.bits_0 in Ht. discriminate.
  - apply negb_false_iff, Z.eqb_eq. apply Z.bits_inj'. intros j Hj.
    rewrite Z.land_spec, Z.bits_0, Z.pow2_bits_eqb by lia.
    destruct (Z.eqb_spec i j); [subst; rewrite Hb|]; auto using andb_false_r.
Qed.

Lemma moved_bit occ i r j :
  0 <= i -> 0 <= r -> 0 <= j ->
  Z.testbit (Z.lor (Z.land occ (Z.lnot (Z.shiftl 1 i))) (Z.shiftl 1 r)) j
  = (Z.testbit occ j && negb (i =? j)) || (r =? j).
Proof.
  intros Hi Hr Hj.
  rewrite Z.lor_spec, Z.land_spec, Z.lnot_spec, !Z.shiftl_1_l, !Z.pow2_bits_eqb by lia.
  reflexivity.
Qed.

Lemma rank_bounds occ n : 0 <= rank occ n <= Z.of_nat n.
Proof.
  induction n as [|n IH]; simpl rank; [lia|].
  destruct (Z.testbit occ (Z.of_nat n)); simpl b2z; lia.
Qed.

Lemma rank_mono occ n k : (n <= k)%nat -> rank occ n <= rank occ k.
Proof.
  induction 1 as [|k Hk IH]; [lia|]. simpl rank.
  destruct (Z.testbit occ (Z.of_nat k)); simpl b2z; lia.
Qed.

(** Tags below an occupied tag get a smaller index. *)
Lemma relabel_increasing occ i j :
  0 <= i < j -> Z.testbit occ i = true -> relabel occ i < relabel occ j.
Proof.
  intros Hij Hb. unfold relabel.
  assert (H : rank occ (S (Z.to_nat i)) <= rank occ (Z.to_nat j))
    by (apply rank_mono; lia).
  simpl rank in H. rewrite Z2Nat.id, Hb in H by lia. simpl b2z in H. lia.
Qed.

(** Every index below the rank is the index of an occupied tag. *)
Lemma rank_hits occ n j :
  0 <= j < rank occ n ->
  exists i, (i < n)%nat /\ Z.testbit occ (Z.of_nat i) = true /\ rank occ i = j.
Proof.
  induction n as [|n IH]; simpl rank; [lia|].
  destruct (Z.testbit occ (Z.of_nat n)) eqn:Hb; simpl b2z; intros Hj.
  - destruct (Z.eq_dec j (rank occ n)) as [->|Hne].
    + exists n. auto.
    + destruct IH as [i [Hi H]]; [lia|]. exists i. split; [lia|exact H].
  - destruct IH as [i [Hi H]]; [lia|]. exists i. split; [lia|exact H].
Qed.

(** ** The inner loop *)

Lemma skip_occupied_stops fuel : forall unocc i occ r,
  0 <= unocc <= r -> r <= i ->
  (forall j, unocc <= j < i -> Z.testbit occ j = (j <? r)) ->
  (Z.to_nat (r - unocc) <= fuel)%nat ->
  skip_occupied fuel unocc i occ = r.
Proof.
  induction fuel as [|fuel IH]; intros unocc i occ r Hu Hr Hbits Hf; simpl.
  - lia.
  - destruct (unocc <? i) eqn:Hlt; simpl.
    + apply Z.ltb_lt in Hlt. rewrite bit_test by lia.
      rewrite Hbits by lia.
      destruct (unocc <? r) eqn:Hur.
      * apply Z.ltb_lt in Hur. apply IH; try lia.
        intros j Hj. apply Hbits. lia.
      * apply Z.ltb_ge in Hur. lia.
    + apply Z.ltb_ge in Hlt. lia.
Qed.

(** ** The outer loop *)

Lemma aget_aset_same {A} (d : A) l i v :
  0 <= i < Z.of_nat (List.length l) -> aget d (aset l i v) i = v.
Proof.
  unfold aget, aset. intros Hi.
  assert (Hn : (Z.to_nat i < List.length l)%nat) by lia.
  revert Hn. generalize (Z.to_nat i). clear Hi. intros n. revert n.
  induction l as [|a l IH]; intros [|n] Hn; simpl in *; try lia; auto.
  apply IH. lia.
Qed.

Lemma aget_aset_other {A} (d : A) l i j v :
  0 <= i -> 0 <= j -> i <> j -> aget d (aset l i v) j = aget d l j.
Proof.
  unfold aget, aset. intros Hi Hj Hij.
  assert (Hn : Z.to_nat i <> Z.to_nat j) by lia.
  revert Hn. generalize (Z.to_nat i), (Z.to_nat j). clear. intros n k. revert n k.
  induction l as [|a l IH]; intros [|n] [|k] Hn; simpl; auto; try congruence.
Qed.

Lemma aset_length {A} (l : list A) i v : List.length (aset l i v) = List.length l.
Proof.
  unfold aset. generalize (Z.to_nat i). intros n. revert n.
  induction l as [|a l IH]; intros [|n]; simpl; auto.
Qed.

Lemma organize_step_organized occ n st :
  (n < List.length tags)%nat ->
  organized occ n st -> organized occ (S n) (organize_step st (Z.of_nat n)).
Proof.
  intros Hn [Hbits Hun Hdest Hlen]. destruct st as [[o unocc] td]. simpl in *.
  pose proof (rank_bounds occ n) as Hrb.
  unfold organize_step.
  assert (Hskip : skip_occupied (Z.to_nat (Z.of_nat n)) unocc (Z.of_nat n) o = rank occ n).
  { apply skip_occupied_stops; try lia.
    intros j Hj. rewrite Hbits by lia.
    destruct (j <? Z.of_nat n) eqn:Hlt; [reflexivity|]. apply Z.ltb_ge in Hlt. lia. }
  rewrite Hskip. rewrite bit_test by lia.
  assert (Hcur : Z.testbit o (Z.of_nat n) = Z.testbit occ (Z.of_nat n)).
  { rewrite Hbits by lia. rewrite Z.ltb_irrefl. reflexivity. }
  rewrite Hcur.
  destruct (Z.testbit occ (Z.of_nat n)) eqn:Hb; constructor; simpl fst; simpl snd;
    simpl rank; rewrite ?Hb; simpl b2z.
  - intros j Hj. rewrite moved_bit by lia. rewrite Hbits by lia.
    rewrite Nat2Z.inj_succ.
    destruct (j <? Z.of_nat n) eqn:H1; destruct (j <? Z.succ (Z.of_nat n)) eqn:H2;
      destruct (Z.of_nat n =? j) eqn:H3; destruct (rank occ n =? j) eqn:H4;
      destruct (j <? rank occ n) eqn:H5; destruct (j <? rank occ n + 1) eqn:H6;
      try reflexivity;
      repeat match goal with
             | H : (_ <? _) = true |- _ => apply Z.ltb_lt in H
             | H : (_ <? _) = false |- _ => apply Z.ltb_ge in H
             | H : (_ =? _) = true |- _ => apply Z.eqb_eq in H
             | H : (_ =? _) = false |- _ => apply Z.eqb_neq in H
             end;
      try lia;
      destruct (Z.testbit occ j); reflexivity.
  - lia.
  - intros j Hj Hbj. destruct (Z.eq_dec j (Z.of_nat n)) as [->|Hne].
    + rewrite aget_aset_same by (rewrite Hlen; lia).
      unfold relabel. rewrite Nat2Z.id. reflexivity.
    + rewrite aget_aset_other by lia. apply Hdest; [lia|exact Hbj].
  - rewrite aset_length. exact Hlen.
  - intros j Hj. rewrite Hbits by lia. rewrite Nat2Z.inj_succ, Z.add_0_r.
    destruct (Z.ltb_spec j (Z.of_nat n)) as [H1|H1];
      destruct (Z.ltb_spec j (Z.succ (Z.of_nat n))) as [H2|H2];
      try reflexivity; try lia.
    assert (j = Z.of_nat n) by lia. subst j. rewrite Hb.
    symmetry. apply Z.ltb_ge. lia.
  - lia.
  - intros j Hj Hbj. apply Hdest; [|exact Hbj].
    destruct (Z.eq_dec j (Z.of_nat n)) as [->|Hne]; [congruence|lia].
  - exact Hlen.
Qed.

Lemma organize_upto_organized occ n :
  (n <= List.length tags)%nat -> organized occ n (organize_upto occ n).
Proof.
  induction n as [|n IH]; intros Hn.
  - unfold organize_upto. simpl fold_left. constructor; simpl fst; simpl snd.
    + intros j Hj. destruct (j <? Z.of_nat 0) eqn:H; [|reflexivity].
      apply Z.ltb_lt in H. simpl in H. lia.
    + simpl. lia.
    + intros j Hj. simpl in Hj. lia.
    + reflexivity.
  - unfold organize_upto. rewrite seq_S, map_app, fold_left_app. simpl.
    apply organize_step_organized; [lia|]. apply IH. lia.
Qed.

(** tagdest maps every occupied tag to its new index. *)
Lemma tagdest_closed occ i :
  0 <= i < NTAGS -> Z.testbit occ i = true -> aget 0 (tagdest_of occ) i = relabel occ i.
Proof.
  intros Hi Hb.
  assert (H : organized occ (List.length tags) (organize_upto occ (List.length tags)))
    by (apply organize_upto_organized; lia).
  apply (og_dest _ _ _ H); [exact Hi|exact Hb].
Qed.

(** ** The lowest tag of a valid mask *)

Lemma lowbit_from_finds ui fuel : forall i j,
  0 <= i <= j -> Z.testbit ui j = true -> (Z.to_nat (j - i) < fuel)%nat ->
  i <= lowbit_from fuel i ui <= j /\ Z.testbit ui (lowbit_from fuel i ui) = true.
Proof.
  induction fuel as [|fuel IH]; intros i j Hij Hb Hf; [lia|].
  simpl. rewrite bit_test by lia.
  destruct (Z.testbit ui i) eqn:Hi; [split; [lia|exact Hi]|].
  assert (i <> j) by (intros ->; congruence).
  destruct (IH (i + 1) j) as [H1 H2]; try lia; auto. split; [lia|exact H2].
Qed.

Lemma lowest_tag_valid t :
  valid_tags t ->
  0 <= lowest_tag t < NTAGS /\ Z.testbit t (lowest_tag t) = true.
Proof.
  intros Hv. apply valid_tags_range in Hv.
  unfold lowest_tag, ffs. destruct (Z.eqb_spec t 0) as [->|Hne]; [lia|].
  replace (lowbit t + 1 - 1) with (lowbit t) by lia.
  assert (Hlog : 0 <= Z.log2 t < 25).
  { split; [apply Z.log2_nonneg|]. apply Z.log2_lt_pow2; lia. }
  destruct (lowbit_from_finds t 32 0 (Z.log2 t)) as [H1 H2]; try lia.
  - apply Z.bit_log2. lia.
  - unfold lowbit. change NTAGS with 25. split; [lia|exact H2].
Qed.

(** ** The occupied tags *)

Lemma occupied_bits g l i : forall acc,
  0 <= i ->
  (forall c, In c l -> valid_tags (c_tags (client g c))) ->
  Z.testbit
    (fold_left (fun occ c => Z.lor occ (Z.shiftl 1 (ffs (c_tags (client g c)) - 1))) l acc) i
  = Z.testbit acc i || existsb (fun c => lowest_tag (c_tags (client g c)) =? i) l.
Proof.
  intros acc Hi. revert acc. induction l as [|c l IH]; intros acc Hv; simpl.
  - rewrite orb_false_r. reflexivity.
  - rewrite IH by (intros d Hd; apply Hv; right; exact Hd).
    destruct (lowest_tag_valid (c_tags (client g c))) as [Hl _];
      [apply Hv; left; reflexivity|].
    fold (lowest_tag (c_tags (client g c))).
    rewrite Z.lor_spec, Z.shiftl_1_l, Z.pow2_bits_eqb by lia.
    rewrite orb_assoc. reflexivity.
Qed.

Lemma occupied_spec g l i :
  0 <= i ->
  (forall c, In c l -> valid_tags (c_tags (client g c))) ->
  (Z.testbit (occupied g l) i = true
   <-> exists c, In c l /\ lowest_tag (c_tags (client g c)) = i).
Proof.
  intros Hi Hv. unfold occupied. rewrite occupied_bits by assumption.
  rewrite Z.bits_0. simpl. rewrite existsb_exists.
  split; intros [c [Hc H]]; exists c; split; auto; apply Z.eqb_eq; exact H.
Qed.

(** ** The second loop *)

Lemma retag_fold_untouched (F : Z -> Z) (l : list cid) c : forall g,
  ~ In c l ->
  client (fold_left (fun g c => with_client c (fun cl => set_c_tags (F (c_tags cl)) cl) g)
                    l g) c
  = client g c.
Proof.
  induction l as [|d l IH]; intros g Hc; simpl; [reflexivity|].
  rewrite IH by (intros F'; apply Hc; right; exact F').
  apply client_with_client_other. intros ->. apply Hc. left. reflexivity.
Qed.

Lemma m_clients_set_m_tagset i v mo : m_clients (set_m_tagset i v mo) = m_clients mo.
Proof. unfold set_m_tagset. destruct (i =? 0); reflexivity. Qed.

Lemma retag_fold_monitor (F : Z -> Z) (l : list cid) : forall g k,
  monitor (fold_left (fun g c => with_client c (fun cl => set_c_tags (F (c_tags cl)) cl) g)
                     l g) k
  = monitor g k.
Proof.
  induction l as [|c l IH]; intros g k; simpl; [reflexivity|].
  rewrite IH. apply monitor_with_client.
Qed.

Lemma retag_fold_once (F : Z -> Z) (l : list cid) c : forall g,
  NoDup l -> In c l ->
  c_tags (client (fold_left
                    (fun g c => with_client c (fun cl => set_c_tags (F (c_tags cl)) cl) g)
                    l g) c)
  = F (c_tags (client g c)).
Proof.
  induction l as [|d l IH]; intros g Hnd Hc; simpl; [contradiction|].
  inversion Hnd as [|? ? Hd Hnd']; subst.
  destruct (Nat.eq_dec d c) as [->|Hne].
  - rewrite retag_fold_untouched by exact Hd.
    rewrite client_with_client_same. reflexivity.
  - destruct Hc as [Hc|Hc]; [contradiction|].
    rewrite IH by assumption.
    rewrite client_with_client_other by auto. reflexivity.
Qed.

(** C6. organizetags on the chain [l] of the selected monitor, every client of
    which carries a valid mask.  The chain is the same list afterwards.  Of
    the tags of a client the function reads the lowest one alone: every client
    ends on the single tag [relabel occ i], where [i] is its lowest tag before
    the call and [relabel occ i] counts the occupied tags below [i], a
    relabeling that keeps the order of the occupied tags (a tag is occupied
    when it is the lowest tag of a client).  And no gap is left: every index
    below the new tag of a client is the new tag of some client of the
    chain. *)
Theorem organizetags_compacts (g : World) :
  let m := g_selmon g in
  let l := m_clients (monitor g m) in
  let occ := occupied g l in
  let g' := organizetags g in
  let old c := lowest_tag (c_tags (client g c)) in
  NoDup l ->
  (forall c, In c l -> valid_tags (c_tags (client g c))) ->
  m_clients (monitor g' m) = l
  /\ (forall c, In c l -> c_tags (client g' c) = Z.shiftl 1 (relabel occ (old c)))
  /\ (forall c d, In c l -> In d l -> old c < old d ->
        relabel occ (old c) < relabel occ (old d))
  /\ (forall c j, In c l -> 0 <= j < relabel occ (old c) ->
        exists d, In d l /\ c_tags (client g' d) = Z.shiftl 1 j).
Proof.
  cbv zeta. intros Hnd Hv.
  set (m := g_selmon g). set (l := m_clients (monitor g m)) in *.
  set (occ := occupied g l).
  assert (Hocc : forall c, In c l ->
                   0 <= lowest_tag (c_tags (client g c)) < NTAGS
                   /\ Z.testbit occ (lowest_tag (c_tags (client g c))) = true).
  { intros c Hc. destruct (lowest_tag_valid _ (Hv c Hc)) as [Hr _]. split; [exact Hr|].
    apply occupied_spec; [lia|exact Hv|]. exists c. auto. }
  assert (Htags : forall c, In c l ->
            c_tags (client (organizetags g) c)
            = Z.shiftl 1 (relabel occ (lowest_tag (c_tags (client g c))))).
  { intros c Hc. unfold organizetags. cbv zeta. fold m. fold l. fold occ.
    match goal with
    | |- context [arrange ?a ?w] =>
        rewrite (evolves_tags w (arrange a w)) by (apply arrange_evolves, frame_refl)
    end.
    match goal with
    | |- c_tags (client (match _ with Some _ => with_monitor _ _ ?w | None => _ end) c) = _ =>
        replace (c_tags (client (match m_sel (monitor w m) with
                                 | Some s => with_monitor m
                                               (fun mo => set_m_tagset (m_seltags mo)
                                                            (c_tags (client w s)) mo) w
                                 | None => w
                                 end) c))
          with (c_tags (client w c))
          by (destruct (m_sel (monitor w m)); reflexivity)
    end.
    rewrite (retag_fold_once
               (fun t => Z.shiftl 1 (aget 0 (tagdest_of occ) (ffs t - 1)))) by assumption.
    fold (lowest_tag (c_tags (client g c))).
    destruct (Hocc c Hc) as [Hr Hb]. rewrite tagdest_closed by assumption. reflexivity. }
  split; [|split; [|split]].
  - unfold organizetags. cbv zeta. fold m. fold l.
    match goal with
    | |- context [arrange ?a ?w] =>
        rewrite (arr_clients _ _ _ (arrange_frame a w w (frame_refl w)))
    end.
    pose proof (retag_fold_monitor
                  (fun t => Z.shiftl 1 (aget 0 (tagdest_of (occupied g l)) (ffs t - 1))) l g)
      as Hm.
    destruct (m_sel _).
    + rewrite monitor_with_monitor_same.
      rewrite m_clients_set_m_tagset, Hm. reflexivity.
    + rewrite Hm. reflexivity.
  - exact Htags.
  - intros c d Hc Hd Hlt. destruct (Hocc c Hc) as [Hr Hb].
    apply relabel_increasing; [lia|exact Hb].
  - intros c j Hc Hj. unfold relabel in Hj.
    destruct (rank_hits occ _ j Hj) as [i [Hi [Hb Hrk]]].
    destruct (proj1 (occupied_spec g l (Z.of_nat i) ltac:(lia) Hv) Hb) as [d [Hd Hld]].
    exists d. split; [exact Hd|]. rewrite (Htags d Hd), Hld.
    unfold relabel. rewrite Nat2Z.id, Hrk. reflexivity.
Qed.

Lemma organizetags_compacts_witness :
  let g := with_client 1%nat (set_c_tags 4)
             (with_client 2%nat (set_c_tags 16) (sample_world 2 [1; 2; 3]%nat 4)) in
  map (fun c => c_tags (client g c)) [1; 2; 3]%nat = [4; 16; 4]
  /\ map (fun c => c_tags (client (organizetags g) c)) [1; 2; 3]%nat = [1; 2; 1]
  /\ m_clients (monitor (organizetags g) O) = [1; 2; 3]%nat.
Proof.
  cbv zeta. split; [vm_compute; reflexivity|]. split; [vm_compute; reflexivity|].
  apply (organizetags_compacts
           (with_client 1%nat (set_c_tags 4)
              (with_client 2%nat (set_c_tags 16) (sample_world 2 [1; 2; 3]%nat 4)))).
  - vm_compute. repeat constructor; simpl; intuition discriminate.
  - intros c Hc. apply valid_tags_range.
    vm_compute in Hc. destruct Hc as [<-|[<-|[<-|[]]]]; vm_compute; split; reflexivity.
Defined.


Lemma no_relabeling (told tnew : cid -> Z) :
  told 1%nat = 5 -> told 2%nat = 4 -> tnew 1%nat = 1 -> tnew 2%nat = 2 ->
  ~ (exists f : Z -> Z,
       forall c, In c [1; 2]%nat ->
       forall j, 0 <= j < NTAGS ->
         Z.testbit (tnew c) j = true
         <-> (exists i, 0 <= i < NTAGS /\ Z.testbit (told c) i = true /\ f i = j)).
Proof.
  intros E3 E4 E1 E2 [f H].
  assert (N : 0 <= 1 < NTAGS) by (vm_compute; split; discriminate || reflexivity).
  pose proof (H 2%nat (or_intror (or_introl eq_refl)) 1 N) as H2.
  pose proof (H 1%nat (or_introl eq_refl) 1 N) as H1.
  rewrite E2, E4 in H2. rewrite E1, E3 in H1.
  destruct (proj1 H2 eq_refl) as [i [Hi [Hb Hf]]].
  assert (i = 2).
  { change 4 with (2 ^ 2) in Hb. rewrite Z.pow2_bits_eqb in Hb by lia.
    apply Z.eqb_eq in Hb. lia. }
  subst i.
  assert (F : Z.testbit 1 1 = true).
  { apply H1. exists 2. split; [exact Hi|]. split; [reflexivity|exact Hf]. }
  discriminate F.
Qed.

(** Two clients that carry the masks 5 (tags 0 and 2) and 4 (tag 2) end on
    the masks 1 and 2: the first client has lost a tag, the tag the two
    shared is shared no more, and no map of tag indices carries the tags of
    each client before the call onto its tags after it. *)
Lemma organizetags_multitag_counterexample :
  let g := multitag_world in
  let g' := organizetags g in
  m_clients (monitor g (g_selmon g)) = [1; 2]%nat
  /\ map (fun c => c_tags (client g c)) [1; 2]%nat = [5; 4]
  /\ map (fun c => c_tags (client g' c)) [1; 2]%nat = [1; 2]
  /\ Z.land (c_tags (client g 1%nat)) (c_tags (client g 2%nat)) <> 0
  /\ Z.land (c_tags (client g' 1%nat)) (c_tags (client g' 2%nat)) = 0
  /\ ~ (exists f : Z -> Z,
          forall c, In c [1; 2]%nat ->
          forall j, 0 <= j < NTAGS ->
            Z.testbit (c_tags (client g' c)) j = true
            <-> (exists i, 0 <= i < NTAGS
                           /\ Z.testbit (c_tags (client g c)) i = true /\ f i = j)).
Proof.
  cbv zeta.
  split; [vm_compute; reflexivity|].
  split; [vm_compute; reflexivity|].
  split; [vm_compute; reflexivity|].
  split; [vm_compute; discriminate|].
  split; [vm_compute; reflexivity|].
  apply (no_relabeling (fun c => c_tags (client multitag_world c))
                       (fun c => c_tags (client (organizetags multitag_world) c)));
    vm_compute; reflexivity.
Qed.
